(** * DMF platform layer (DmfPlatform.c): object lifetime, contexts, collections

    A shallow embedding of the lower edge of DMF for non-WDF platforms
    ([src/Dmf/Framework/DmfPlatform.c]).  The C code manipulates heap blocks
    through pointers; the embedding keeps that shape:

    - a pointer is an address ([N], [NULL] is [0]);
    - the heap is a finite map from addresses to typed blocks, one
      constructor per C struct that the file allocates;
    - every C function is a computation in a state-and-failure monad: it
      threads the heap, the allocator and the log of external calls, and it
      faults ([None]) where the C code would dereference a pointer that does
      not point to a live block of the expected struct or trip a [DmfAssert];
    - the intrusive [LIST_ENTRY] lists are kept as the sequence of the
      addresses of their entries, head first: [InitializeListHead] is the
      empty sequence, [InsertTailList] appends, [RemoveEntryList] removes
      the entry from the sequence it is linked in, and a walk along [Flink]
      visits the sequence in order;
    - calls that leave the file (user callbacks, critical sections, the
      platform back end [*_Win32]) are recorded as events in a trace. *)

From stdpp Require Import gmap list.

Local Open Scope Z_scope.

(** ** Machine integers *)

Abbreviation addr := N (only parsing).
Definition NULL : addr := 0%N.

(** [LONG]: 32-bit two's complement. *)
Definition wrap_LONG (z : Z) : Z := (z + 2 ^ 31) `mod` 2 ^ 32 - 2 ^ 31.
(** [ULONG]: 32-bit unsigned. *)
Definition wrap_ULONG (z : Z) : Z := z `mod` 2 ^ 32.

Definition InterlockedDecrement (v : Z) : Z := wrap_LONG (v - 1).

(** [NTSTATUS] is a [LONG]; the values are those of ntstatus.h. *)
Definition NTSTATUS := Z.
Definition STATUS_SUCCESS : NTSTATUS := 0.
Definition STATUS_TIMEOUT : NTSTATUS := 258.
Definition STATUS_UNSUCCESSFUL : NTSTATUS := wrap_LONG 3221225473.
Definition STATUS_INSUFFICIENT_RESOURCES : NTSTATUS := wrap_LONG 3221225626.
Definition NT_SUCCESS (st : NTSTATUS) : bool := bool_decide (0 <= st).

(** ** The structs *)

Inductive DmfPlatformObjectType :=
| DmfPlatformObjectTypeUndefined
| DmfPlatformObjectTypeMemory
| DmfPlatformObjectTypeWaitLock
| DmfPlatformObjectTypeSpinLock
| DmfPlatformObjectTypeTimer
| DmfPlatformObjectTypeWorkItem
| DmfPlatformObjectTypeCollection.

Global Instance DmfPlatformObjectType_eq_dec : EqDecision DmfPlatformObjectType.
Proof. solve_decision. Defined.

(** [WDF_OBJECT_CONTEXT_TYPE_INFO]: the fields the file reads. *)
Record WDF_OBJECT_CONTEXT_TYPE_INFO := {
  ContextName : addr;
  ContextSize : N
}.

(** [WDF_OBJECT_ATTRIBUTES]: the fields the file reads.  Callbacks are
    function pointers; [ContextTypeInfo] points to a descriptor. *)
Record WDF_OBJECT_ATTRIBUTES := {
  EvtCleanupCallback : addr;
  EvtDestroyCallback : addr;
  ParentObject : addr;
  ContextTypeInfo : addr
}.

(** The functions stored in [DMF_PLATFORM_OBJECT.ObjectDelete]. *)
Inductive DMF_Platform_ObjectDelete :=
| DmfPlatformWdfMemoryDelete_fn
| DmfPlatformWdfWaitLockDelete_fn
| DmfPlatformWdfSpinLockDelete_fn
| DmfPlatformWdfTimerDelete_fn
| DmfPlatformWdfWorkItemDelete_fn.

Global Instance DMF_Platform_ObjectDelete_eq_dec :
  EqDecision DMF_Platform_ObjectDelete.
Proof. solve_decision. Defined.

(** [DMF_PLATFORM_OBJECT].  [ContextList] and [ChildList] hold the addresses
    of the linked [DMF_PLATFORM_CONTEXT] blocks and child objects.
    [ChildListEntry] is the object's own link: the address of the object whose
    [ChildList] it is linked into, [NULL] while it is linked to itself (or
    still zero). *)
Record DMF_PLATFORM_OBJECT := {
  PlatformObjectType : DmfPlatformObjectType;
  Data : addr;
  ObjectAttributes : WDF_OBJECT_ATTRIBUTES;
  ReferenceCount : Z;
  ObjectDelete : option DMF_Platform_ObjectDelete;
  ContextList : list addr;
  ChildList : list addr;
  NumberOfChildren : Z;
  ChildListEntry : addr
}.

Record DMF_PLATFORM_CONTEXT := {
  ContextTypeInfoCopy : WDF_OBJECT_CONTEXT_TYPE_INFO;
  ContextData : addr
}.

Record DMF_PLATFORM_MEMORY := {
  DataMemory : addr;
  NeedToDeallocate : bool;
  Size : N
}.

Record DMF_PLATFORM_COLLECTION := {
  ListLock : addr;
  List : list addr;
  ItemCount : Z
}.

Record COLLECTION_ENTRY := {
  Object : addr
}.

(** A heap block.  [BPrimitive] is the payload of a wait lock, spin lock,
    timer or work item: its content belongs to the platform back end. *)
Inductive block :=
| BObject (o : DMF_PLATFORM_OBJECT)
| BContext (c : DMF_PLATFORM_CONTEXT)
| BMemory (m : DMF_PLATFORM_MEMORY)
| BCollection (c : DMF_PLATFORM_COLLECTION)
| BEntry (e : COLLECTION_ENTRY)
| BPrimitive (t : DmfPlatformObjectType)
| BBytes (n : N)
| BTypeInfo (ti : WDF_OBJECT_CONTEXT_TYPE_INFO).

Global Instance WDF_OBJECT_CONTEXT_TYPE_INFO_eq_dec :
  EqDecision WDF_OBJECT_CONTEXT_TYPE_INFO.
Proof. solve_decision. Defined.
Global Instance WDF_OBJECT_ATTRIBUTES_eq_dec : EqDecision WDF_OBJECT_ATTRIBUTES.
Proof. solve_decision. Defined.
Global Instance DMF_PLATFORM_OBJECT_eq_dec : EqDecision DMF_PLATFORM_OBJECT.
Proof. solve_decision. Defined.
Global Instance DMF_PLATFORM_CONTEXT_eq_dec : EqDecision DMF_PLATFORM_CONTEXT.
Proof. solve_decision. Defined.
Global Instance DMF_PLATFORM_MEMORY_eq_dec : EqDecision DMF_PLATFORM_MEMORY.
Proof. solve_decision. Defined.
Global Instance DMF_PLATFORM_COLLECTION_eq_dec :
  EqDecision DMF_PLATFORM_COLLECTION.
Proof. solve_decision. Defined.
Global Instance COLLECTION_ENTRY_eq_dec : EqDecision COLLECTION_ENTRY.
Proof. solve_decision. Defined.
Global Instance block_eq_dec : EqDecision block.
Proof. solve_decision. Defined.

(** Calls that leave the file. *)
Inductive event :=
| EvCleanup (fn obj : addr)
| EvDestroy (fn obj : addr)
| EvObjectDelete (fn : DMF_Platform_ObjectDelete) (obj : addr)
| EvAllocate (p : addr)
| EvPrimitiveCreate (created : bool)
| EvFree (p : addr)
| EvCriticalSectionCreate (obj : addr)
| EvCriticalSectionEnter (obj : addr)
| EvCriticalSectionLeave (obj : addr)
| EvCriticalSectionDelete (obj : addr)
| EvPrimitiveDelete (t : DmfPlatformObjectType) (payload : addr)
| EvSpinLockAcquire (payload : addr)
| EvSpinLockRelease (payload : addr).

Global Instance event_eq_dec : EqDecision event.
Proof. solve_decision. Defined.

(** ** Machine state

    [brk] is the next address the allocator hands out.  [alloc_script] and
    [prim_script] fix the outcome of the coming calls to
    [DMF_Platform_Allocate] and to the back end's creation functions
    ([true]: success); when a script is exhausted the call succeeds. *)
Record state := {
  heap : gmap N block;
  brk : N;
  alloc_script : list bool;
  prim_script : list bool;
  trace : list event
}.

Definition set_heap (f : gmap N block → gmap N block) (s : state) : state :=
  {| heap := f (heap s); brk := brk s; alloc_script := alloc_script s;
     prim_script := prim_script s; trace := trace s |}.

Definition add_trace (e : event) (s : state) : state :=
  {| heap := heap s; brk := brk s; alloc_script := alloc_script s;
     prim_script := prim_script s; trace := trace s ++ [e] |}.

(** ** The monad *)

Definition M (A : Type) : Type := state → option (A * state).

Definition ret {A} (a : A) : M A := λ s, Some (a, s).
Definition fault {A} : M A := λ _, None.
Definition bind {A B} (m : M A) (k : A → M B) : M B :=
  λ s, match m s with
       | Some (a, s') => k a s'
       | None => None
       end.

Declare Scope m_scope.
Delimit Scope m_scope with M.
Notation "x <~ m ;; k" := (bind m (λ x, k))
  (at level 100, m at next level, right associativity) : m_scope.
Notation "m ;;; k" := (bind m (λ _, k))
  (at level 100, right associativity) : m_scope.
Local Open Scope m_scope.

Definition emit (e : event) : M unit := λ s, Some (tt, add_trace e s).

Definition DmfAssert (b : bool) : M unit := if b then ret tt else fault.

Definition when (b : bool) (m : M unit) : M unit := if b then m else ret tt.

Definition is_null (p : addr) : bool := bool_decide (p = NULL).

(** ** Memory *)

Definition load (p : addr) : M block :=
  λ s, match heap s !! p with
       | Some b => Some (b, s)
       | None => None
       end.

Definition store (p : addr) (b : block) : M unit :=
  λ s, match heap s !! p with
       | Some _ => Some (tt, set_heap (insert p b) s)
       | None => None
       end.

(** [DMF_Platform_Allocate]: defined by the platform back end.  It returns
    [NULL] or a fresh zero-filled block ([DmfPlatformObjectCreate] asserts
    that the fields of a new object are zero); [zero] is the zero value of
    the struct being allocated.  The returned pointer is logged. *)
Definition alloc_fails (s : state) : bool :=
  match alloc_script s with
  | false :: _ => true
  | _ => false
  end.

Definition alloc_failed (s : state) : state :=
  {| heap := heap s; brk := brk s; alloc_script := tail (alloc_script s);
     prim_script := prim_script s; trace := trace s ++ [EvAllocate NULL] |}.

Definition allocated (zero : block) (s : state) : state :=
  {| heap := <[brk s := zero]> (heap s); brk := N.succ (brk s);
     alloc_script := tail (alloc_script s); prim_script := prim_script s;
     trace := trace s ++ [EvAllocate (brk s)] |}.

Definition DMF_Platform_Allocate (zero : block) : M addr :=
  λ s, if alloc_fails s then Some (NULL, alloc_failed s)
       else Some (brk s, allocated zero s).

(** [DMF_Platform_Free]: defined by the platform back end.  It releases the
    block; freeing [NULL] does nothing, freeing any other address that is
    not a live block is a fault. *)
Definition DMF_Platform_Free (p : addr) : M unit :=
  λ s, if is_null p then Some (tt, add_trace (EvFree p) s)
       else match heap s !! p with
            | Some _ => Some (tt, add_trace (EvFree p) (set_heap (delete p) s))
            | None => None
            end.

(** A creation function of the back end ([WdfSpinLockCreate_Win32] and the
    like): its result is taken from [prim_script] and logged. *)
Definition prim_fails (s : state) : bool :=
  match prim_script s with
  | false :: _ => true
  | _ => false
  end.

Definition prim_called (s : state) : state :=
  {| heap := heap s; brk := brk s; alloc_script := alloc_script s;
     prim_script := tail (prim_script s);
     trace := trace s ++ [EvPrimitiveCreate (negb (prim_fails s))] |}.

Definition Platform_PrimitiveCreate : M bool :=
  λ s, Some (negb (prim_fails s), prim_called s).

(** ** Typed access to blocks *)

Definition load_object (p : addr) : M DMF_PLATFORM_OBJECT :=
  b <~ load p ;; match b with BObject o => ret o | _ => fault end.

Definition load_context (p : addr) : M DMF_PLATFORM_CONTEXT :=
  b <~ load p ;; match b with BContext c => ret c | _ => fault end.

Definition load_memory (p : addr) : M DMF_PLATFORM_MEMORY :=
  b <~ load p ;; match b with BMemory m => ret m | _ => fault end.

Definition load_collection (p : addr) : M DMF_PLATFORM_COLLECTION :=
  b <~ load p ;; match b with BCollection c => ret c | _ => fault end.

Definition load_entry (p : addr) : M COLLECTION_ENTRY :=
  b <~ load p ;; match b with BEntry e => ret e | _ => fault end.

Definition load_typeinfo (p : addr) : M WDF_OBJECT_CONTEXT_TYPE_INFO :=
  b <~ load p ;; match b with BTypeInfo ti => ret ti | _ => fault end.

(** [p->field = v] on an object: read the struct, write it back changed. *)
Definition update_object (p : addr)
    (f : DMF_PLATFORM_OBJECT → DMF_PLATFORM_OBJECT) : M unit :=
  o <~ load_object p ;; store p (BObject (f o)).

Definition update_memory (p : addr)
    (f : DMF_PLATFORM_MEMORY → DMF_PLATFORM_MEMORY) : M unit :=
  m <~ load_memory p ;; store p (BMemory (f m)).

Definition update_collection (p : addr)
    (f : DMF_PLATFORM_COLLECTION → DMF_PLATFORM_COLLECTION) : M unit :=
  c <~ load_collection p ;; store p (BCollection (f c)).

Definition update_context (p : addr)
    (f : DMF_PLATFORM_CONTEXT → DMF_PLATFORM_CONTEXT) : M unit :=
  c <~ load_context p ;; store p (BContext (f c)).

Definition set_PlatformObjectType v (o : DMF_PLATFORM_OBJECT) :=
  {| PlatformObjectType := v; Data := Data o;
     ObjectAttributes := ObjectAttributes o;
     ReferenceCount := ReferenceCount o; ObjectDelete := ObjectDelete o;
     ContextList := ContextList o; ChildList := ChildList o;
     NumberOfChildren := NumberOfChildren o;
     ChildListEntry := ChildListEntry o |}.

Definition set_Data v (o : DMF_PLATFORM_OBJECT) :=
  {| PlatformObjectType := PlatformObjectType o; Data := v;
     ObjectAttributes := ObjectAttributes o;
     ReferenceCount := ReferenceCount o; ObjectDelete := ObjectDelete o;
     ContextList := ContextList o; ChildList := ChildList o;
     NumberOfChildren := NumberOfChildren o;
     ChildListEntry := ChildListEntry o |}.

Definition set_ObjectAttributes v (o : DMF_PLATFORM_OBJECT) :=
  {| PlatformObjectType := PlatformObjectType o; Data := Data o;
     ObjectAttributes := v;
     ReferenceCount := ReferenceCount o; ObjectDelete := ObjectDelete o;
     ContextList := ContextList o; ChildList := ChildList o;
     NumberOfChildren := NumberOfChildren o;
     ChildListEntry := ChildListEntry o |}.

Definition set_ReferenceCount v (o : DMF_PLATFORM_OBJECT) :=
  {| PlatformObjectType := PlatformObjectType o; Data := Data o;
     ObjectAttributes := ObjectAttributes o;
     ReferenceCount := v; ObjectDelete := ObjectDelete o;
     ContextList := ContextList o; ChildList := ChildList o;
     NumberOfChildren := NumberOfChildren o;
     ChildListEntry := ChildListEntry o |}.

Definition set_ObjectDelete v (o : DMF_PLATFORM_OBJECT) :=
  {| PlatformObjectType := PlatformObjectType o; Data := Data o;
     ObjectAttributes := ObjectAttributes o;
     ReferenceCount := ReferenceCount o; ObjectDelete := v;
     ContextList := ContextList o; ChildList := ChildList o;
     NumberOfChildren := NumberOfChildren o;
     ChildListEntry := ChildListEntry o |}.

Definition set_ContextList v (o : DMF_PLATFORM_OBJECT) :=
  {| PlatformObjectType := PlatformObjectType o; Data := Data o;
     ObjectAttributes := ObjectAttributes o;
     ReferenceCount := ReferenceCount o; ObjectDelete := ObjectDelete o;
     ContextList := v; ChildList := ChildList o;
     NumberOfChildren := NumberOfChildren o;
     ChildListEntry := ChildListEntry o |}.

Definition set_ChildList v (o : DMF_PLATFORM_OBJECT) :=
  {| PlatformObjectType := PlatformObjectType o; Data := Data o;
     ObjectAttributes := ObjectAttributes o;
     ReferenceCount := ReferenceCount o; ObjectDelete := ObjectDelete o;
     ContextList := ContextList o; ChildList := v;
     NumberOfChildren := NumberOfChildren o;
     ChildListEntry := ChildListEntry o |}.

Definition set_NumberOfChildren v (o : DMF_PLATFORM_OBJECT) :=
  {| PlatformObjectType := PlatformObjectType o; Data := Data o;
     ObjectAttributes := ObjectAttributes o;
     ReferenceCount := ReferenceCount o; ObjectDelete := ObjectDelete o;
     ContextList := ContextList o; ChildList := ChildList o;
     NumberOfChildren := v;
     ChildListEntry := ChildListEntry o |}.

Definition set_ChildListEntry v (o : DMF_PLATFORM_OBJECT) :=
  {| PlatformObjectType := PlatformObjectType o; Data := Data o;
     ObjectAttributes := ObjectAttributes o;
     ReferenceCount := ReferenceCount o; ObjectDelete := ObjectDelete o;
     ContextList := ContextList o; ChildList := ChildList o;
     NumberOfChildren := NumberOfChildren o;
     ChildListEntry := v |}.

(** The zero-filled structs. *)
Definition zero_typeinfo : WDF_OBJECT_CONTEXT_TYPE_INFO :=
  {| ContextName := NULL; ContextSize := 0%N |}.

Definition zero_attributes : WDF_OBJECT_ATTRIBUTES :=
  {| EvtCleanupCallback := NULL; EvtDestroyCallback := NULL;
     ParentObject := NULL; ContextTypeInfo := NULL |}.

Definition zero_object : DMF_PLATFORM_OBJECT :=
  {| PlatformObjectType := DmfPlatformObjectTypeUndefined; Data := NULL;
     ObjectAttributes := zero_attributes; ReferenceCount := 0;
     ObjectDelete := None; ContextList := []; ChildList := [];
     NumberOfChildren := 0; ChildListEntry := NULL |}.

Definition zero_context : DMF_PLATFORM_CONTEXT :=
  {| ContextTypeInfoCopy := zero_typeinfo; ContextData := NULL |}.

Definition zero_memory : DMF_PLATFORM_MEMORY :=
  {| DataMemory := NULL; NeedToDeallocate := false; Size := 0%N |}.

Definition zero_collection : DMF_PLATFORM_COLLECTION :=
  {| ListLock := NULL; List := []; ItemCount := 0 |}.

Definition zero_entry : COLLECTION_ENTRY := {| Object := NULL |}.

(** [WDF_OBJECT_ATTRIBUTES_INIT] (wdfobject.h) zeroes the structure and sets
    its size, execution level and synchronization scope; the fields kept
    here are all zero after it. *)
Definition WDF_OBJECT_ATTRIBUTES_INIT : WDF_OBJECT_ATTRIBUTES := zero_attributes.

(** [RemoveEntryList] on the sequence the entry is linked in. *)
Definition unlink (x : addr) (l : list addr) : list addr :=
  filter (λ y, y ≠ x) l.

(** ** WDFOBJECT *)

(** [WdfObjectAllocateContext].  [ContextAttributes] is the structure the
    caller's pointer points to; [Context] tells whether the optional out
    pointer is given.  The result is the status and the value written
    through [Context], if any. *)
Definition WdfObjectAllocateContext (Handle : addr)
    (ContextAttributes : WDF_OBJECT_ATTRIBUTES) (Context : bool)
    : M (NTSTATUS * option addr) :=
  let platformObject := Handle in
  platformContext <~ DMF_Platform_Allocate (BContext zero_context) ;;
  if is_null platformContext then ret (STATUS_INSUFFICIENT_RESOURCES, None)
  else
    typeInfo <~ load_typeinfo (ContextTypeInfo ContextAttributes) ;;
    data <~ DMF_Platform_Allocate (BBytes (ContextSize typeInfo)) ;;
    update_context platformContext
      (λ c, {| ContextTypeInfoCopy := ContextTypeInfoCopy c;
               ContextData := data |}) ;;;
    if is_null data then
      DMF_Platform_Free platformContext ;;;
      ret (STATUS_INSUFFICIENT_RESOURCES, None)
    else
      typeInfo <~ load_typeinfo (ContextTypeInfo ContextAttributes) ;;
      update_context platformContext
        (λ c, {| ContextTypeInfoCopy := typeInfo;
                 ContextData := ContextData c |}) ;;;
      emit (EvCriticalSectionEnter platformObject) ;;;
      update_object platformObject
        (λ o, set_ContextList (ContextList o ++ [platformContext]) o) ;;;
      emit (EvCriticalSectionLeave platformObject) ;;;
      c <~ load_context platformContext ;;
      ret (STATUS_SUCCESS, if Context then Some (ContextData c) else None).

(** [CustomContextAllocate]: [Attributes] is [None] for
    [WDF_NO_OBJECT_ATTRIBUTES]. *)
Definition CustomContextAllocate (Object : addr)
    (Attributes : option WDF_OBJECT_ATTRIBUTES) : M NTSTATUS :=
  match Attributes with
  | None => ret STATUS_SUCCESS
  | Some attributes =>
      if is_null (ContextTypeInfo attributes) then ret STATUS_SUCCESS
      else
        typeInfo <~ load_typeinfo (ContextTypeInfo attributes) ;;
        if bool_decide (0 < ContextSize typeInfo)%N then
          r <~ WdfObjectAllocateContext Object attributes false ;;
          ret (fst r)
        else ret STATUS_SUCCESS
  end.

(** The loop of [WdfObjectGetTypedContextWorker] from [listEntry] on:
    [Some] is the value assigned before [break]. *)
Fixpoint context_walk (TypeInfo : addr) (entries : list addr)
    : M (option addr) :=
  match entries with
  | [] => ret None
  | listEntry :: rest =>
      platformContext <~ load_context listEntry ;;
      typeInfo <~ load_typeinfo TypeInfo ;;
      if bool_decide (ContextName typeInfo
                      = ContextName (ContextTypeInfoCopy platformContext))
      then ret (Some (ContextData platformContext))
      else context_walk TypeInfo rest
  end.

Definition WdfObjectGetTypedContextWorker (Handle TypeInfo : addr) : M addr :=
  let platformObject := Handle in
  emit (EvCriticalSectionEnter platformObject) ;;;
  o <~ load_object platformObject ;;
  found <~ context_walk TypeInfo (ContextList o) ;;
  emit (EvCriticalSectionLeave platformObject) ;;;
  ret (default NULL found).

(** ** WDFMEMORY: the payload destructor *)

Definition DmfPlatformWdfMemoryDelete (PlatformObject : addr) : M unit :=
  o <~ load_object PlatformObject ;;
  DmfAssert (bool_decide (PlatformObjectType o = DmfPlatformObjectTypeMemory)) ;;;
  platformMemory <~ load_memory (Data o) ;;
  when (NeedToDeallocate platformMemory)
       (DMF_Platform_Free (DataMemory platformMemory)).

(** [DmfPlatformWdfWaitLockDelete], [...SpinLockDelete], [...TimerDelete],
    [...WorkItemDelete]: assert the type and hand the payload pointer to the
    back end. *)
Definition DmfPlatformPrimitiveDelete (t : DmfPlatformObjectType)
    (PlatformObject : addr) : M unit :=
  o <~ load_object PlatformObject ;;
  DmfAssert (bool_decide (PlatformObjectType o = t)) ;;;
  emit (EvPrimitiveDelete t (Data o)).

(** [platformObject->ObjectDelete(platformObject)]. *)
Definition call_ObjectDelete (fn : DMF_Platform_ObjectDelete)
    (PlatformObject : addr) : M unit :=
  emit (EvObjectDelete fn PlatformObject) ;;;
  match fn with
  | DmfPlatformWdfMemoryDelete_fn => DmfPlatformWdfMemoryDelete PlatformObject
  | DmfPlatformWdfWaitLockDelete_fn =>
      DmfPlatformPrimitiveDelete DmfPlatformObjectTypeWaitLock PlatformObject
  | DmfPlatformWdfSpinLockDelete_fn =>
      DmfPlatformPrimitiveDelete DmfPlatformObjectTypeSpinLock PlatformObject
  | DmfPlatformWdfTimerDelete_fn =>
      DmfPlatformPrimitiveDelete DmfPlatformObjectTypeTimer PlatformObject
  | DmfPlatformWdfWorkItemDelete_fn =>
      DmfPlatformPrimitiveDelete DmfPlatformObjectTypeWorkItem PlatformObject
  end.

(** ** WdfObjectDelete *)

(** The walk over [ChildList].  The C loop reads [listEntry->Flink] before it
    deletes the child, so it visits the entries as they were linked when the
    walk began; [del] is the recursive call. *)
Fixpoint delete_children (del : addr → M unit) (platformObject : addr)
    (entries : list addr) : M unit :=
  match entries with
  | [] => ret tt
  | childObject :: rest =>
      update_object platformObject
        (λ o, set_NumberOfChildren (wrap_LONG (NumberOfChildren o - 1)) o) ;;;
      o <~ load_object platformObject ;;
      DmfAssert (bool_decide (0 <= NumberOfChildren o)) ;;;
      del childObject ;;;
      delete_children del platformObject rest
  end.

(** [RemoveEntryList(&platformObject->ChildListEntry)]. *)
Definition RemoveEntryList_ChildListEntry (platformObject : addr) : M unit :=
  o <~ load_object platformObject ;;
  if is_null (ChildListEntry o) then ret tt
  else update_object (ChildListEntry o)
         (λ p, set_ChildList (unlink platformObject (ChildList p)) p).

(** [WdfObjectDelete].  The recursion of the C function is bounded by
    [fuel]; running out of fuel is reported like a fault. *)
Fixpoint WdfObjectDelete (fuel : nat) (Object : addr) : M unit :=
  match fuel with
  | O => fault
  | S fuel =>
      let platformObject := Object in
      o <~ load_object platformObject ;;
      let newReferenceCount := InterlockedDecrement (ReferenceCount o) in
      store platformObject (BObject (set_ReferenceCount newReferenceCount o)) ;;;
      when (negb (is_null (EvtCleanupCallback (ObjectAttributes o))))
           (emit (EvCleanup (EvtCleanupCallback (ObjectAttributes o))
                            platformObject)) ;;;
      if bool_decide (newReferenceCount = 0) then
        emit (EvCriticalSectionEnter platformObject) ;;;
        o <~ load_object platformObject ;;
        delete_children (WdfObjectDelete fuel) platformObject (ChildList o) ;;;
        emit (EvCriticalSectionLeave platformObject) ;;;
        o <~ load_object platformObject ;;
        when (negb (is_null (EvtDestroyCallback (ObjectAttributes o))))
             (emit (EvDestroy (EvtDestroyCallback (ObjectAttributes o))
                              platformObject)) ;;;
        when (negb (is_null (ParentObject (ObjectAttributes o))))
             (RemoveEntryList_ChildListEntry platformObject) ;;;
        match ObjectDelete o with
        | Some fn => call_ObjectDelete fn platformObject
        | None => ret tt
        end ;;;
        o <~ load_object platformObject ;;
        DMF_Platform_Free (Data o) ;;;
        emit (EvCriticalSectionDelete platformObject) ;;;
        DMF_Platform_Free platformObject
      else ret tt
  end.

(** ** DmfPlatformObjectCreate *)

Definition DmfPlatformObjectCreate (Parent : addr)
    (ObjectDeleteCallback : option DMF_Platform_ObjectDelete) : M addr :=
  platformObject <~ DMF_Platform_Allocate (BObject zero_object) ;;
  if is_null platformObject then ret platformObject
  else
    update_object platformObject (set_ReferenceCount 1) ;;;
    update_object platformObject (set_ObjectDelete ObjectDeleteCallback) ;;;
    update_object platformObject (set_ContextList []) ;;;
    update_object platformObject (set_ChildList []) ;;;
    emit (EvCriticalSectionCreate platformObject) ;;;
    o <~ load_object platformObject ;;
    DmfAssert (is_null (ChildListEntry o)) ;;;
    update_object platformObject (set_ChildListEntry NULL) ;;;
    when (negb (is_null Parent))
         (emit (EvCriticalSectionEnter Parent) ;;;
          update_object Parent
            (λ p, set_ChildList (ChildList p ++ [platformObject]) p) ;;;
          update_object platformObject (set_ChildListEntry Parent) ;;;
          update_object Parent
            (λ p, set_NumberOfChildren (wrap_LONG (NumberOfChildren p + 1)) p) ;;;
          emit (EvCriticalSectionLeave Parent)) ;;;
    ret platformObject.

(** ** WDFMEMORY *)

Definition parent_of (Attributes : option WDF_OBJECT_ATTRIBUTES) : addr :=
  match Attributes with
  | Some attributes => ParentObject attributes
  | None => NULL
  end.

(** [memcpy(&platformObject->ObjectAttributes, Attributes, ...)] under
    [if (Attributes != NULL)]. *)
Definition copy_attributes (platformObject : addr)
    (Attributes : option WDF_OBJECT_ATTRIBUTES) : M unit :=
  match Attributes with
  | Some attributes =>
      update_object platformObject (set_ObjectAttributes attributes)
  | None => ret tt
  end.

(** The object after [copy_attributes]. *)
Definition with_attributes (Attributes : option WDF_OBJECT_ATTRIBUTES)
    (o : DMF_PLATFORM_OBJECT) : DMF_PLATFORM_OBJECT :=
  match Attributes with
  | Some attributes => set_ObjectAttributes attributes o
  | None => o
  end.

(** [DMF_Platform_Free(platformObject->Data)]. *)
Definition free_Data (platformObject : addr) : M unit :=
  o <~ load_object platformObject ;; DMF_Platform_Free (Data o).

(** [WdfMemoryCreate].  The result is the status, the value written to
    [*Memory] and the value written to [*Buffer] ([None]: not written);
    [Buffer] tells whether the optional out pointer is given. *)
Definition WdfMemoryCreate (Attributes : option WDF_OBJECT_ATTRIBUTES)
    (BufferSize : N) (Buffer : bool)
    : M (NTSTATUS * option addr * option addr) :=
  let ntStatus := STATUS_UNSUCCESSFUL in
  let parentObject := parent_of Attributes in
  platformObject <~ DmfPlatformObjectCreate parentObject
                      (Some DmfPlatformWdfMemoryDelete_fn) ;;
  if is_null platformObject then ret (ntStatus, None, None)
  else
    data <~ DMF_Platform_Allocate (BMemory zero_memory) ;;
    update_object platformObject (set_Data data) ;;;
    if is_null data then
      DMF_Platform_Free platformObject ;;;
      ret (ntStatus, None, None)
    else
      let platformMemory := data in
      update_object platformObject
        (set_PlatformObjectType DmfPlatformObjectTypeMemory) ;;;
      copy_attributes platformObject Attributes ;;;
      dataMemory <~ DMF_Platform_Allocate (BBytes BufferSize) ;;
      update_memory platformMemory
        (λ m, {| DataMemory := dataMemory;
                 NeedToDeallocate := NeedToDeallocate m; Size := Size m |}) ;;;
      if is_null dataMemory then
        free_Data platformObject ;;;
        DMF_Platform_Free platformObject ;;;
        ret (ntStatus, None, None)
      else
        update_memory platformMemory
          (λ m, {| DataMemory := DataMemory m;
                   NeedToDeallocate := true; Size := Size m |}) ;;;
        update_memory platformMemory
          (λ m, {| DataMemory := DataMemory m;
                   NeedToDeallocate := NeedToDeallocate m;
                   Size := BufferSize |}) ;;;
        m <~ load_memory platformMemory ;;
        ntStatus <~ CustomContextAllocate platformObject Attributes ;;
        ret (ntStatus, Some platformObject,
             if Buffer then Some (DataMemory m) else None).

Section Preallocated.

(** [WdfMemoryCreatePreallocated] writes the three fields of a
    [DMF_PLATFORM_MEMORY] through [(DMF_PLATFORM_MEMORY* )platformObject],
    that is over the first bytes of the [DMF_PLATFORM_OBJECT] itself.
    Which object fields these bytes belong to is fixed by the struct
    declarations (DmfPlatform.h), so the effect of the three writes on
    the object is a parameter. *)
Variable write_memory_over_object :
  addr → bool → N → DMF_PLATFORM_OBJECT → DMF_PLATFORM_OBJECT.

(** [WdfMemoryCreatePreallocated]: the result is the status and the value
    written to [*Memory].  [Attributes] is copied without a test, a fault
    when it is [NULL]. *)
Definition WdfMemoryCreatePreallocated
    (Attributes : option WDF_OBJECT_ATTRIBUTES) (Buffer : addr)
    (BufferSize : N) : M (NTSTATUS * option addr) :=
  let ntStatus := STATUS_UNSUCCESSFUL in
  let parentObject := parent_of Attributes in
  platformObject <~ DmfPlatformObjectCreate parentObject
                      (Some DmfPlatformWdfMemoryDelete_fn) ;;
  if is_null platformObject then ret (ntStatus, None)
  else
    data <~ DMF_Platform_Allocate (BMemory zero_memory) ;;
    update_object platformObject (set_Data data) ;;;
    if is_null data then
      DMF_Platform_Free platformObject ;;;
      ret (ntStatus, None)
    else
      update_object platformObject
        (set_PlatformObjectType DmfPlatformObjectTypeMemory) ;;;
      update_object platformObject
        (write_memory_over_object Buffer false BufferSize) ;;;
      match Attributes with
      | None => fault
      | Some attributes =>
          update_object platformObject (set_ObjectAttributes attributes)
      end ;;;
      ntStatus <~ CustomContextAllocate platformObject Attributes ;;
      ret (ntStatus, Some platformObject).

End Preallocated.

(** [WdfMemoryGetBuffer]: the returned pointer and the value written to
    [*BufferSize], if the out pointer is given. *)
Definition WdfMemoryGetBuffer (Memory : addr) (BufferSize : bool)
    : M (addr * option N) :=
  let platformObject := Memory in
  o <~ load_object platformObject ;;
  DmfAssert (bool_decide (PlatformObjectType o = DmfPlatformObjectTypeMemory)) ;;;
  platformMemory <~ load_memory (Data o) ;;
  ret (DataMemory platformMemory,
       if BufferSize then Some (Size platformMemory) else None).

(** ** WDFSYNC, WDFTIMER, WDFWORKITEM: creation *)

(** [WdfWaitLockCreate]: status and value written to [*Lock]. *)
Definition WdfWaitLockCreate (LockAttributes : option WDF_OBJECT_ATTRIBUTES)
    : M (NTSTATUS * option addr) :=
  let ntStatus := STATUS_UNSUCCESSFUL in
  let parentObject := parent_of LockAttributes in
  platformObject <~ DmfPlatformObjectCreate parentObject
                      (Some DmfPlatformWdfWaitLockDelete_fn) ;;
  if is_null platformObject then ret (ntStatus, None)
  else
    data <~ DMF_Platform_Allocate (BPrimitive DmfPlatformObjectTypeWaitLock) ;;
    update_object platformObject (set_Data data) ;;;
    if is_null data then
      DMF_Platform_Free platformObject ;;;
      ret (ntStatus, None)
    else
      update_object platformObject
        (set_PlatformObjectType DmfPlatformObjectTypeWaitLock) ;;;
      waitEventCreated <~ Platform_PrimitiveCreate ;;
      if negb waitEventCreated then
        free_Data platformObject ;;;
        DMF_Platform_Free platformObject ;;;
        ret (ntStatus, None)
      else
        copy_attributes platformObject LockAttributes ;;;
        ntStatus <~ CustomContextAllocate platformObject LockAttributes ;;
        ret (ntStatus, Some platformObject).

(** [WdfSpinLockCreate]: status and value written to [*SpinLock].  When the
    back end fails the function leaves without freeing anything. *)
Definition WdfSpinLockCreate (SpinLockAttributes : option WDF_OBJECT_ATTRIBUTES)
    : M (NTSTATUS * option addr) :=
  let ntStatus := STATUS_UNSUCCESSFUL in
  let parentObject := parent_of SpinLockAttributes in
  platformObject <~ DmfPlatformObjectCreate parentObject
                      (Some DmfPlatformWdfSpinLockDelete_fn) ;;
  if is_null platformObject then ret (ntStatus, None)
  else
    data <~ DMF_Platform_Allocate (BPrimitive DmfPlatformObjectTypeSpinLock) ;;
    update_object platformObject (set_Data data) ;;;
    if is_null data then
      DMF_Platform_Free platformObject ;;;
      ret (ntStatus, None)
    else
      update_object platformObject
        (set_PlatformObjectType DmfPlatformObjectTypeSpinLock) ;;;
      spinLockCreated <~ Platform_PrimitiveCreate ;;
      if negb spinLockCreated then ret (ntStatus, None)
      else
        copy_attributes platformObject SpinLockAttributes ;;;
        ntStatus <~ CustomContextAllocate platformObject SpinLockAttributes ;;
        ret (ntStatus, Some platformObject).

(** [WdfTimerCreate] and [WdfWorkItemCreate] have the same body up to the
    type tag, the payload destructor and the back-end call; [Config] is
    copied into the payload, whose content is not modelled. *)
Definition create_deferred (t : DmfPlatformObjectType)
    (fn : DMF_Platform_ObjectDelete)
    (Attributes : option WDF_OBJECT_ATTRIBUTES) : M (NTSTATUS * option addr) :=
  let ntStatus := STATUS_UNSUCCESSFUL in
  let parentObject := parent_of Attributes in
  platformObject <~ DmfPlatformObjectCreate parentObject (Some fn) ;;
  if is_null platformObject then ret (ntStatus, None)
  else
    data <~ DMF_Platform_Allocate (BPrimitive t) ;;
    update_object platformObject (set_Data data) ;;;
    if is_null data then
      DMF_Platform_Free platformObject ;;;
      ret (ntStatus, None)
    else
      update_object platformObject (set_PlatformObjectType t) ;;;
      copy_attributes platformObject Attributes ;;;
      created <~ Platform_PrimitiveCreate ;;
      if negb created then
        free_Data platformObject ;;;
        DMF_Platform_Free platformObject ;;;
        ret (ntStatus, None)
      else
        ntStatus <~ CustomContextAllocate platformObject Attributes ;;
        ret (ntStatus, Some platformObject).

Definition WdfTimerCreate := create_deferred DmfPlatformObjectTypeTimer
                               DmfPlatformWdfTimerDelete_fn.

Definition WdfWorkItemCreate := create_deferred DmfPlatformObjectTypeWorkItem
                                  DmfPlatformWdfWorkItemDelete_fn.

Definition WdfSpinLockAcquire (SpinLock : addr) : M unit :=
  o <~ load_object SpinLock ;;
  DmfAssert (bool_decide (PlatformObjectType o = DmfPlatformObjectTypeSpinLock)) ;;;
  emit (EvSpinLockAcquire (Data o)).

Definition WdfSpinLockRelease (SpinLock : addr) : M unit :=
  o <~ load_object SpinLock ;;
  DmfAssert (bool_decide (PlatformObjectType o = DmfPlatformObjectTypeSpinLock)) ;;;
  emit (EvSpinLockRelease (Data o)).

(** ** WDFCOLLECTION

    [ItemCount] is kept as a [ULONG], the type [WdfCollectionGetCount]
    returns it at. *)

Definition set_ListLock v (c : DMF_PLATFORM_COLLECTION) :=
  {| ListLock := v; List := List c; ItemCount := ItemCount c |}.
Definition set_List v (c : DMF_PLATFORM_COLLECTION) :=
  {| ListLock := ListLock c; List := v; ItemCount := ItemCount c |}.
Definition set_ItemCount v (c : DMF_PLATFORM_COLLECTION) :=
  {| ListLock := ListLock c; List := List c; ItemCount := v |}.

(** [WdfCollectionCreate]: status and value written to [*Collection].
    [WdfSpinLockCreate] writes its handle straight into
    [platformCollection->ListLock]. *)
Definition WdfCollectionCreate
    (CollectionAttributes : option WDF_OBJECT_ATTRIBUTES)
    : M (NTSTATUS * option addr) :=
  let ntStatus := STATUS_UNSUCCESSFUL in
  let parentObject := parent_of CollectionAttributes in
  platformObject <~ DmfPlatformObjectCreate parentObject None ;;
  if is_null platformObject then ret (ntStatus, None)
  else
    data <~ DMF_Platform_Allocate (BCollection zero_collection) ;;
    update_object platformObject (set_Data data) ;;;
    if is_null data then
      DMF_Platform_Free platformObject ;;;
      ret (ntStatus, None)
    else
      let platformCollection := data in
      update_object platformObject
        (set_PlatformObjectType DmfPlatformObjectTypeCollection) ;;;
      let spinlockAttributes := WDF_OBJECT_ATTRIBUTES_INIT in
      r <~ WdfSpinLockCreate (Some spinlockAttributes) ;;
      match snd r with
      | Some lock => update_collection platformCollection (set_ListLock lock)
      | None => ret tt
      end ;;;
      let ntStatus := fst r in
      if negb (NT_SUCCESS ntStatus) then
        free_Data platformObject ;;;
        DMF_Platform_Free platformObject ;;;
        ret (ntStatus, None)
      else
        update_collection platformCollection (set_List []) ;;;
        update_collection platformCollection (set_ItemCount 0) ;;;
        copy_attributes platformObject CollectionAttributes ;;;
        ntStatus <~ CustomContextAllocate platformObject CollectionAttributes ;;
        ret (ntStatus, Some platformObject).

(** The prologue of every collection function: check the tag and take
    [platformObject->Data]. *)
Definition collection_of (Collection : addr) : M addr :=
  o <~ load_object Collection ;;
  DmfAssert (bool_decide
               (PlatformObjectType o = DmfPlatformObjectTypeCollection)) ;;;
  ret (Data o).

Definition WdfCollectionGetCount (Collection : addr) : M Z :=
  platformCollection <~ collection_of Collection ;;
  c <~ load_collection platformCollection ;;
  ret (wrap_ULONG (ItemCount c)).

Definition WdfCollectionAdd (Collection Object : addr) : M NTSTATUS :=
  platformCollection <~ collection_of Collection ;;
  collectionEntry <~ DMF_Platform_Allocate (BEntry zero_entry) ;;
  if is_null collectionEntry then ret STATUS_INSUFFICIENT_RESOURCES
  else
    store collectionEntry (BEntry {| Object := Object |}) ;;;
    c <~ load_collection platformCollection ;;
    WdfSpinLockAcquire (ListLock c) ;;;
    update_collection platformCollection
      (λ c, set_List (List c ++ [collectionEntry]) c) ;;;
    update_collection platformCollection
      (λ c, set_ItemCount (wrap_ULONG (ItemCount c + 1)) c) ;;;
    c <~ load_collection platformCollection ;;
    WdfSpinLockRelease (ListLock c) ;;;
    ret STATUS_SUCCESS.

(** [DmfAssert(platformCollection->ItemCount > 0)] at the top of a loop
    body. *)
Definition assert_nonempty (platformCollection : addr) : M unit :=
  c <~ load_collection platformCollection ;;
  DmfAssert (bool_decide (0 < ItemCount c)).

(** [RemoveEntryList(listEntry); platformCollection->ItemCount--]. *)
Definition remove_entry (platformCollection listEntry : addr) : M unit :=
  update_collection platformCollection
    (λ c, set_List (unlink listEntry (List c)) c) ;;;
  update_collection platformCollection
    (λ c, set_ItemCount (wrap_ULONG (ItemCount c - 1)) c).

(** The loop of [WdfCollectionRemove]. *)
Fixpoint remove_walk (platformCollection Item : addr) (entries : list addr)
    : M unit :=
  match entries with
  | [] => ret tt
  | listEntry :: rest =>
      assert_nonempty platformCollection ;;;
      collectionEntry <~ load_entry listEntry ;;
      if bool_decide (Object collectionEntry = Item)
      then remove_entry platformCollection listEntry
      else remove_walk platformCollection Item rest
  end.

Definition WdfCollectionRemove (Collection Item : addr) : M unit :=
  platformCollection <~ collection_of Collection ;;
  c <~ load_collection platformCollection ;;
  WdfSpinLockAcquire (ListLock c) ;;;
  remove_walk platformCollection Item (List c) ;;;
  c <~ load_collection platformCollection ;;
  WdfSpinLockRelease (ListLock c).

(** The loop of [WdfCollectionRemoveItem]; [currentItemIndex] is a [ULONG]. *)
Fixpoint remove_item_walk (platformCollection : addr) (Index : Z)
    (currentItemIndex : Z) (entries : list addr) : M unit :=
  match entries with
  | [] => ret tt
  | listEntry :: rest =>
      assert_nonempty platformCollection ;;;
      if bool_decide (currentItemIndex = Index)
      then remove_entry platformCollection listEntry
      else remove_item_walk platformCollection Index
             (wrap_ULONG (currentItemIndex + 1)) rest
  end.

Definition WdfCollectionRemoveItem (Collection : addr) (Index : Z) : M unit :=
  platformCollection <~ collection_of Collection ;;
  c <~ load_collection platformCollection ;;
  WdfSpinLockAcquire (ListLock c) ;;;
  remove_item_walk platformCollection Index 0 (List c) ;;;
  c <~ load_collection platformCollection ;;
  WdfSpinLockRelease (ListLock c).

(** The loop of [WdfCollectionGetItem]: [Some] is the value assigned before
    [break]. *)
Fixpoint get_item_walk (platformCollection : addr) (Index : Z)
    (currentItemIndex : Z) (entries : list addr) : M (option addr) :=
  match entries with
  | [] => ret None
  | listEntry :: rest =>
      assert_nonempty platformCollection ;;;
      if bool_decide (currentItemIndex = Index)
      then collectionEntry <~ load_entry listEntry ;;
           ret (Some (Object collectionEntry))
      else get_item_walk platformCollection Index
             (wrap_ULONG (currentItemIndex + 1)) rest
  end.

Definition WdfCollectionGetItem (Collection : addr) (Index : Z) : M addr :=
  platformCollection <~ collection_of Collection ;;
  c <~ load_collection platformCollection ;;
  WdfSpinLockAcquire (ListLock c) ;;;
  found <~ get_item_walk platformCollection Index 0 (List c) ;;
  c <~ load_collection platformCollection ;;
  WdfSpinLockRelease (ListLock c) ;;;
  ret (default NULL found).

(** [WdfCollectionGetFirstItem] reads [List.Flink], [WdfCollectionGetLastItem]
    reads [List.Blink]; both compare it with the list head. *)
Definition get_end_item (pick : list addr → option addr) (Collection : addr)
    : M addr :=
  platformCollection <~ collection_of Collection ;;
  c <~ load_collection platformCollection ;;
  WdfSpinLockAcquire (ListLock c) ;;;
  c <~ load_collection platformCollection ;;
  returnValue <~ match pick (List c) with
                 | Some listEntry =>
                     assert_nonempty platformCollection ;;;
                     collectionEntry <~ load_entry listEntry ;;
                     ret (Object collectionEntry)
                 | None => ret NULL
                 end ;;
  WdfSpinLockRelease (ListLock c) ;;;
  ret returnValue.

Definition WdfCollectionGetFirstItem := get_end_item head.
Definition WdfCollectionGetLastItem := get_end_item last.


(** ** States and attributes used in the examples *)

(** Nothing allocated yet. *)
Definition boot : state :=
  {| heap := ∅; brk := 1%N; alloc_script := []; prim_script := [];
     trace := [] |}.

(** Two context type descriptors in static storage, at addresses 1 and 2,
    that share their [ContextName] string (at 100), and a third one with a
    name of its own. *)
Definition descriptors : gmap N block :=
  {[ 1%N := BTypeInfo {| ContextName := 100%N; ContextSize := 8%N |};
     2%N := BTypeInfo {| ContextName := 100%N; ContextSize := 8%N |};
     3%N := BTypeInfo {| ContextName := 200%N; ContextSize := 4%N |} ]}.

Definition boot_with (script : list bool) : state :=
  {| heap := descriptors; brk := 16%N; alloc_script := script;
     prim_script := []; trace := [] |}.

(** The back end cannot create the next primitive. *)
Definition boot_backend_fails : state :=
  {| heap := ∅; brk := 1%N; alloc_script := []; prim_script := [false];
     trace := [] |}.

Definition attributes (parent typeInfo : addr) : WDF_OBJECT_ATTRIBUTES :=
  {| EvtCleanupCallback := NULL; EvtDestroyCallback := NULL;
     ParentObject := parent; ContextTypeInfo := typeInfo |}.

(** The handle a creation function wrote, [NULL] if it wrote none. *)
Definition handle_of {A} (r : A * option addr) : addr := default NULL (snd r).

Definition memory_handle (r : NTSTATUS * option addr * option addr) : addr :=
  default NULL (snd (fst r)).

(** A memory object and a second one created with the first as parent. *)
Definition create_parent_and_child : M (addr * addr) :=
  r <~ WdfMemoryCreate None 8%N false ;;
  let parent := memory_handle r in
  r <~ WdfMemoryCreate (Some (attributes parent NULL)) 8%N false ;;
  ret (parent, memory_handle r).

(** A wait lock created with the context type at address 3. *)
Definition create_lock_with_context : M addr :=
  r <~ WdfWaitLockCreate (Some (attributes NULL 3%N)) ;;
  ret (handle_of r).

(** The caller owns a buffer of 64 bytes at address 4096. *)
Definition boot_with_buffer : state :=
  {| heap := {[ 4096%N := BBytes 64 ]}; brk := 1%N; alloc_script := [];
     prim_script := []; trace := [] |}.

(** [WdfMemoryCreatePreallocated] over the caller's buffer, then
    [WdfMemoryGetBuffer] on the new handle. *)
Definition create_preallocated_and_get
    (write_memory_over_object :
       addr → bool → N → DMF_PLATFORM_OBJECT → DMF_PLATFORM_OBJECT)
    : M (addr * option N) :=
  r <~ WdfMemoryCreatePreallocated write_memory_over_object
         (Some (attributes NULL NULL)) 4096%N 64%N ;;
  WdfMemoryGetBuffer (handle_of r) true.

(** ** Conditions on states *)

(** The allocator's next address is not [NULL] and lies above every live
    block. *)
Definition allocator_ok (s : state) : Prop :=
  (0 < brk s)%N ∧ map_Forall (λ p _, (p < brk s)%N) (heap s).

Global Instance allocator_ok_dec s : Decision (allocator_ok s).
Proof. unfold allocator_ok. apply _. Defined.

(** The [DMF_PLATFORM_CONTEXT] structs at the addresses [l], if all of them
    are live. *)
Fixpoint contexts_at (h : gmap N block) (l : list addr)
    : option (list DMF_PLATFORM_CONTEXT) :=
  match l with
  | [] => Some []
  | p :: l' =>
      match h !! p, contexts_at h l' with
      | Some (BContext c), Some cs => Some (c :: cs)
      | _, _ => None
      end
  end.

(** Lookup as the specification words it, with the name pointer in the
    place of the descriptor: the data of the first attached context whose
    stored [ContextName] is the queried one, [NULL] if there is none. *)
Definition first_match (name : addr) (cs : list DMF_PLATFORM_CONTEXT) : addr :=
  default NULL
    (ContextData <$>
       find (λ c, bool_decide (name = ContextName (ContextTypeInfoCopy c))) cs).

(** An object is created with the descriptor at address 1, then looked up
    with the descriptor at address 2. *)
Definition attach_one_lookup_other : M (addr * addr) :=
  r <~ WdfWaitLockCreate (Some (attributes NULL 1%N)) ;;
  found <~ WdfObjectGetTypedContextWorker (handle_of r) 2%N ;;
  ret (handle_of r, found).

(** The state and the value a computation ends with. *)
Definition state_after {A} (m : M A) (s : state) : state :=
  match m s with
  | Some (_, s') => s'
  | None => s
  end.

Definition value_after {A} (m : M A) (s : state) : option A :=
  fst <$> m s.

(** ** Collections: representation and specification *)

(** The handles stored in the [COLLECTION_ENTRY] blocks at the addresses
    [l], if all of them are live. *)
Fixpoint entries_at (h : gmap N block) (l : list addr) : option (list addr) :=
  match l with
  | [] => Some []
  | p :: l' =>
      match h !! p, entries_at h l' with
      | Some (BEntry e), Some xs => Some (Object e :: xs)
      | _, _ => None
      end
  end.

(** The items of the collection behind the handle [Collection], head first,
    when the handle is a well-formed collection: it has the collection tag,
    its payload is a [DMF_PLATFORM_COLLECTION] whose lock is a spin lock
    object, no entry is linked twice and [ItemCount] is the number of linked
    entries. *)
Definition collection_items (h : gmap N block) (Collection : addr)
    : option (list addr) :=
  match h !! Collection with
  | Some (BObject o) =>
      match h !! Data o with
      | Some (BCollection c) =>
          match h !! ListLock c with
          | Some (BObject lock) =>
              if bool_decide
                   (PlatformObjectType o = DmfPlatformObjectTypeCollection
                    ∧ PlatformObjectType lock = DmfPlatformObjectTypeSpinLock
                    ∧ NoDup (List c)
                    ∧ ItemCount c = Z.of_nat (length (List c)))
              then entries_at h (List c)
              else None
          | _ => None
          end
      | _ => None
      end
  | _ => None
  end.

Inductive collection_op :=
| OpAdd (Object : addr)
| OpRemoveAt (Index : Z).

(** [Index] is a [ULONG]. *)
Definition op_in_range (op : collection_op) : Prop :=
  match op with
  | OpAdd _ => True
  | OpRemoveAt Index => 0 <= Index < 2 ^ 32
  end.

Global Instance op_in_range_dec op : Decision (op_in_range op).
Proof. destruct op; apply _. Defined.

Definition run_op (Collection : addr) (op : collection_op) : M unit :=
  match op with
  | OpAdd Object => WdfCollectionAdd Collection Object ;;; ret tt
  | OpRemoveAt Index => WdfCollectionRemoveItem Collection Index
  end.

Fixpoint run_ops (Collection : addr) (ops : list collection_op) : M unit :=
  match ops with
  | [] => ret tt
  | op :: rest => run_op Collection op ;;; run_ops Collection rest
  end.

(** The collection as the specification words it: [Add] appends,
    [RemoveAt] removes the element at the index and does nothing when the
    index is out of range. *)
Definition spec_op (items : list addr) (op : collection_op) : list addr :=
  match op with
  | OpAdd Object => items ++ [Object]
  | OpRemoveAt Index => delete (Z.to_nat Index) items
  end.

Definition spec_ops (items : list addr) (ops : list collection_op)
    : list addr :=
  foldl spec_op items ops.

(** The allocator fails no request. *)
Definition never_fails (s : state) : Prop :=
  Forall (λ b, b = true) (alloc_script s).

Global Instance never_fails_dec s : Decision (never_fails s).
Proof. unfold never_fails. apply _. Defined.

(** A collection created in the very first state. *)
Definition new_collection : state :=
  state_after (WdfCollectionCreate None) boot.

(** ** Creation: preconditions and outcomes *)

(** The pointers in the caller's attributes are [NULL] or point to a live
    object (the parent) and to a descriptor (the context type). *)
Definition attributes_ok (h : gmap N block)
    (Attributes : option WDF_OBJECT_ATTRIBUTES) : bool :=
  match Attributes with
  | None => true
  | Some attributes =>
      (is_null (ParentObject attributes)
       || match h !! ParentObject attributes with
          | Some (BObject _) => true
          | _ => false
          end)
      && (is_null (ContextTypeInfo attributes)
          || match h !! ContextTypeInfo attributes with
             | Some (BTypeInfo _) => true
             | _ => false
             end)
  end.

(** Some allocation or some creation by the back end failed among the
    logged calls. *)
Definition failed (new : list event) : Prop :=
  EvAllocate NULL ∈ new ∨ EvPrimitiveCreate false ∈ new.

(** The status and the handle of [WdfMemoryCreate], without the buffer
    pointer. *)
Definition WdfMemoryCreate_result (Attributes : option WDF_OBJECT_ATTRIBUTES)
    (BufferSize : N) (Buffer : bool) : M (NTSTATUS * option addr) :=
  r <~ WdfMemoryCreate Attributes BufferSize Buffer ;;
  ret (fst (fst r), snd (fst r)).

(** ** The ownership tree

    The objects reachable from an object through [ChildList], as a tree:
    each node carries the address of the object, the object as it is in the
    heap, and the block its [Data] points to. *)
Local Unset Elimination Schemes.
Inductive tree :=
| Node (a : addr) (o : DMF_PLATFORM_OBJECT) (payload : block)
       (kids : list tree).
Local Set Elimination Schemes.

Definition root (t : tree) : addr := match t with Node a _ _ _ => a end.
Definition obj (t : tree) : DMF_PLATFORM_OBJECT :=
  match t with Node _ o _ _ => o end.
Definition payload (t : tree) : block :=
  match t with Node _ _ payload _ => payload end.
Definition kids (t : tree) : list tree :=
  match t with Node _ _ _ ks => ks end.

Fixpoint height (t : tree) : nat :=
  match t with
  | Node _ _ _ ks => S (foldr (λ k n, max (height k) n) 0%nat ks)
  end.

(** The nodes below [t]. *)
Fixpoint descendants (t : tree) : list tree :=
  match t with
  | Node _ _ _ ks => flat_map (λ k, k :: descendants k) ks
  end.

(** The buffer that [DmfPlatformWdfMemoryDelete] frees. *)
Definition owned_buffer (o : DMF_PLATFORM_OBJECT) (payload : block)
    : list addr :=
  match ObjectDelete o, payload with
  | Some DmfPlatformWdfMemoryDelete_fn, BMemory m =>
      if NeedToDeallocate m then [DataMemory m] else []
  | _, _ => []
  end.

(** The addresses that the destruction of a node, and of a tree, reads and
    frees. *)
Definition own_footprint (a : addr) (o : DMF_PLATFORM_OBJECT)
    (payload : block) : list addr :=
  a :: Data o :: owned_buffer o payload.

Fixpoint footprint (t : tree) : list addr :=
  match t with
  | Node a o payload ks => own_footprint a o payload ++ flat_map footprint ks
  end.

(** The tag each payload destructor asserts. *)
Definition destructor_type (fn : DMF_Platform_ObjectDelete)
    : DmfPlatformObjectType :=
  match fn with
  | DmfPlatformWdfMemoryDelete_fn => DmfPlatformObjectTypeMemory
  | DmfPlatformWdfWaitLockDelete_fn => DmfPlatformObjectTypeWaitLock
  | DmfPlatformWdfSpinLockDelete_fn => DmfPlatformObjectTypeSpinLock
  | DmfPlatformWdfTimerDelete_fn => DmfPlatformObjectTypeTimer
  | DmfPlatformWdfWorkItemDelete_fn => DmfPlatformObjectTypeWorkItem
  end.

(** The payload is what the payload destructor of the object expects. *)
Definition payload_ok (h : gmap N block) (o : DMF_PLATFORM_OBJECT)
    (payload : block) : bool :=
  match ObjectDelete o with
  | None => true
  | Some fn =>
      bool_decide (PlatformObjectType o = destructor_type fn)
      && match fn, payload with
         | DmfPlatformWdfMemoryDelete_fn, BMemory m =>
             negb (NeedToDeallocate m)
             || bool_decide (is_Some (h !! DataMemory m))
         | DmfPlatformWdfMemoryDelete_fn, _ => false
         | _, _ => true
         end
  end.

(** The tree is in the heap: every node is a live object with reference
    count 1 whose [ChildList] links its children in order and whose
    [NumberOfChildren] is at least their number; its payload is live; every
    child is linked into the list of its parent. *)
Fixpoint tree_in (h : gmap N block) (t : tree) : bool :=
  match t with
  | Node a o payload ks =>
      bool_decide (h !! a = Some (BObject o))
      && bool_decide (ReferenceCount o = 1)
      && bool_decide (ChildList o = map root ks)
      && bool_decide (Z.of_nat (length ks) <= NumberOfChildren o < 2 ^ 31)
      && bool_decide (h !! Data o = Some payload)
      && payload_ok h o payload
      && forallb (λ k, bool_decide (ChildListEntry (obj k) = a)
                       && tree_in h k) ks
  end.

(** The list that [RemoveEntryList] edits when the object is destroyed:
    [NULL] when there is none. *)
Definition owner_of (o : DMF_PLATFORM_OBJECT) : addr :=
  if is_null (ParentObject (ObjectAttributes o)) then NULL
  else ChildListEntry o.

(** A well-formed tree: it is in the heap, no address belongs to two nodes
    and none is [NULL], and the list its root is linked in, if any, belongs
    to a live object outside the tree. *)
Definition wf_tree (h : gmap N block) (t : tree) : bool :=
  tree_in h t
  && bool_decide (NoDup (footprint t))
  && bool_decide (NULL ∉ footprint t)
  && (is_null (owner_of (obj t))
      || (bool_decide (owner_of (obj t) ∉ footprint t)
          && match h !! owner_of (obj t) with
             | Some (BObject _) => true
             | _ => false
             end)).

(** ** The events of a destruction *)

Definition cleanup_trace (a : addr) (o : DMF_PLATFORM_OBJECT) : list event :=
  if is_null (EvtCleanupCallback (ObjectAttributes o)) then []
  else [EvCleanup (EvtCleanupCallback (ObjectAttributes o)) a].

Definition destroy_trace (a : addr) (o : DMF_PLATFORM_OBJECT) : list event :=
  if is_null (EvtDestroyCallback (ObjectAttributes o)) then []
  else [EvDestroy (EvtDestroyCallback (ObjectAttributes o)) a].

Definition destructor_trace (a : addr) (o : DMF_PLATFORM_OBJECT)
    (payload : block) : list event :=
  match ObjectDelete o with
  | None => []
  | Some fn =>
      EvObjectDelete fn a
      :: match fn with
         | DmfPlatformWdfMemoryDelete_fn => EvFree <$> owned_buffer o payload
         | _ => [EvPrimitiveDelete (destructor_type fn) (Data o)]
         end
  end.

(** What [WdfObjectDelete] does to the object itself once its children are
    gone. *)
Definition teardown_trace (a : addr) (o : DMF_PLATFORM_OBJECT)
    (payload : block) : list event :=
  destroy_trace a o ++ destructor_trace a o payload
  ++ [EvFree (Data o); EvCriticalSectionDelete a; EvFree a].

(** The children, one after the other, between taking and leaving the
    lock. *)
Fixpoint delete_trace (t : tree) : list event :=
  match t with
  | Node a o payload ks =>
      cleanup_trace a o ++ [EvCriticalSectionEnter a]
      ++ flat_map delete_trace ks
      ++ [EvCriticalSectionLeave a] ++ teardown_trace a o payload
  end.

Definition children_trace (t : tree) : list event :=
  cleanup_trace (root t) (obj t) ++ [EvCriticalSectionEnter (root t)]
  ++ flat_map delete_trace (kids t) ++ [EvCriticalSectionLeave (root t)].

(** The tree below the object at [a], read from the heap down to depth
    [fuel]. *)
Fixpoint tree_of (fuel : nat) (h : gmap N block) (a : addr) : option tree :=
  match fuel with
  | O => None
  | S fuel =>
      match h !! a with
      | Some (BObject o) =>
          match h !! Data o, mapM (tree_of fuel h) (ChildList o) with
          | Some payload, Some ks => Some (Node a o payload ks)
          | _, _ => None
          end
      | _ => None
      end
  end.

(** A family: a wait lock (at 16) that owns a memory object (at 18) and a
    timer (at 25); the memory object owns a collection (at 21).  All have a
    cleanup and a destroy callback. *)
Definition callbacks (parent : addr) : WDF_OBJECT_ATTRIBUTES :=
  {| EvtCleanupCallback := 500%N; EvtDestroyCallback := 600%N;
     ParentObject := parent; ContextTypeInfo := NULL |}.

Definition create_family : M addr :=
  r <~ WdfWaitLockCreate (Some (callbacks NULL)) ;;
  let lock := handle_of r in
  r <~ WdfMemoryCreate (Some (callbacks lock)) 8%N false ;;
  let memory := memory_handle r in
  r <~ WdfCollectionCreate (Some (callbacks memory)) ;;
  r <~ WdfTimerCreate (Some (callbacks lock)) ;;
  ret lock.

Definition family : state := state_after create_family (boot_with []).

Definition family_tree : tree :=
  default (Node NULL zero_object (BBytes 0) [])
          (tree_of 3 (heap family) 16%N).

(** ** The steps of a destruction, as state transformers *)

Definition add_events (l : list event) (s : state) : state :=
  {| heap := heap s; brk := brk s; alloc_script := alloc_script s;
     prim_script := prim_script s; trace := trace s ++ l |}.

(** Two versions of an object that differ in the reference count and in the
    bookkeeping of the children only. *)
Definition same_static (o o' : DMF_PLATFORM_OBJECT) : Prop :=
  PlatformObjectType o' = PlatformObjectType o
  ∧ Data o' = Data o
  ∧ ObjectAttributes o' = ObjectAttributes o
  ∧ ObjectDelete o' = ObjectDelete o
  ∧ ChildListEntry o' = ChildListEntry o.

(** The heap after the object at [a] has been unlinked from the list of its
    owner. *)
Definition unlinked (a : addr) (o : DMF_PLATFORM_OBJECT) (h : gmap N block)
    : gmap N block :=
  match h !! owner_of o with
  | Some (BObject P) =>
      if is_null (owner_of o) then h
      else <[owner_of o := BObject (set_ChildList (unlink a (ChildList P)) P)]> h
  | _ => h
  end.

(** The state after the part of [WdfObjectDelete] that follows the walk over
    the children, for the object [o] at [a] with payload [payload]. *)
Definition torn_down (a : addr) (o : DMF_PLATFORM_OBJECT) (payload : block)
    (s : state) : state :=
  add_events ([EvCriticalSectionLeave a] ++ teardown_trace a o payload)
    (set_heap
       (λ h, delete a
               (delete (Data o)
                  (foldr delete (unlinked a o h) (owned_buffer o payload))))
       s).

(** The part of [WdfObjectDelete] that follows the walk over the children. *)
Definition destroy_object (platformObject : addr) : M unit :=
  emit (EvCriticalSectionLeave platformObject) ;;;
  o <~ load_object platformObject ;;
  when (negb (is_null (EvtDestroyCallback (ObjectAttributes o))))
       (emit (EvDestroy (EvtDestroyCallback (ObjectAttributes o))
                        platformObject)) ;;;
  when (negb (is_null (ParentObject (ObjectAttributes o))))
       (RemoveEntryList_ChildListEntry platformObject) ;;;
  match ObjectDelete o with
  | Some fn => call_ObjectDelete fn platformObject
  | None => ret tt
  end ;;;
  o <~ load_object platformObject ;;
  DMF_Platform_Free (Data o) ;;;
  emit (EvCriticalSectionDelete platformObject) ;;;
  DMF_Platform_Free platformObject.

(** ** Destruction of a tree: precondition and effect *)

(** [wf_tree] as a proposition. *)
Definition deletable (h : gmap N block) (t : tree) : Prop :=
  tree_in h t = true
  ∧ NoDup (footprint t)
  ∧ (NULL ∉ footprint t)
  ∧ (is_null (owner_of (obj t)) = true
     ∨ ((owner_of (obj t) ∉ footprint t)
        ∧ (∃ P, h !! owner_of (obj t) = Some (BObject P)))).

(** The effect of destroying the tree [t] between the states [s] and [s']:
    the events of the destruction are appended to the trace, every block of
    the tree is gone, the root is unlinked from the list of its owner and no
    other block has changed. *)
Definition deleted (t : tree) (s s' : state) : Prop :=
  trace s' = trace s ++ delete_trace t
  ∧ brk s' = brk s
  ∧ alloc_script s' = alloc_script s
  ∧ prim_script s' = prim_script s
  ∧ (∀ x, x ∈ footprint t → heap s' !! x = None)
  ∧ (∀ x, x ∉ footprint t →
       (x ≠ owner_of (obj t)) ∨ is_null (owner_of (obj t)) = true →
       heap s' !! x = heap s !! x)
  ∧ (∀ P, is_null (owner_of (obj t)) = false →
       heap s !! owner_of (obj t) = Some (BObject P) →
       heap s' !! owner_of (obj t)
       = Some (BObject (set_ChildList (unlink (root t) (ChildList P)) P))).

(** ** Observations on a call of [WdfObjectDelete] *)

(** The number of calls of a cleanup callback on the object at [a] among
    the events [l]. *)
Definition is_cleanup_of (a : addr) (e : event) : bool :=
  match e with
  | EvCleanup _ obj => bool_decide (obj = a)
  | _ => false
  end.

Definition cleanup_calls (a : addr) (l : list event) : nat :=
  length (List.filter (is_cleanup_of a) l).

(** Between [s] and [s'] the object [o] at [a] has been freed: its control
    block and its payload are gone from the heap, both were released and
    its lock was deleted. *)
Definition freed (a : addr) (o : DMF_PLATFORM_OBJECT) (s s' : state) : Prop :=
  heap s' !! a = None
  ∧ heap s' !! Data o = None
  ∧ ∃ new, trace s' = trace s ++ new
           ∧ EvFree (Data o) ∈ new
           ∧ EvCriticalSectionDelete a ∈ new
           ∧ EvFree a ∈ new.

(** * Further properties: definitions *)

(** ** Collections *)

(** [Remove] as a list operation: the first element equal to [x] is taken
    out, a list without [x] is left as it is. *)
Fixpoint remove_first (x : addr) (l : list addr) : list addr :=
  match l with
  | [] => []
  | y :: l' => if decide (y = x) then l' else y :: remove_first x l'
  end.

(** A collection holding the handles 101, 102 and 101 again, in this
    order. *)
Definition three_items : state :=
  state_after (run_ops 1%N [OpAdd 101%N; OpAdd 102%N; OpAdd 101%N])
    new_collection.

(** The state after a removal from a collection: only the
    [DMF_PLATFORM_COLLECTION] block at [d] has changed, its list is now [l],
    and the spin lock was taken and released. *)
Definition removal_state (s s' : state) (d : addr)
    (c : DMF_PLATFORM_COLLECTION) (lock : DMF_PLATFORM_OBJECT)
    (l : list addr) : Prop :=
  heap s' = <[d := BCollection
                     (set_ItemCount (Z.of_nat (length l)) (set_List l c))]>
              (heap s)
  ∧ trace s' = trace s ++ [EvSpinLockAcquire (Data lock);
                           EvSpinLockRelease (Data lock)]
  ∧ brk s' = brk s ∧ alloc_script s' = alloc_script s
  ∧ prim_script s' = prim_script s.

(** No block is released among the events [new]. *)
Definition frees_nothing (new : list event) : Prop :=
  ∀ p, EvFree p ∉ new.

(** The blocks of [s] other than [DMF_PLATFORM_COLLECTION] payloads are
    still allocated and unchanged in [s'], and no address is live in [s']
    that was not live in [s]. *)
Definition keeps_blocks (s s' : state) : Prop :=
  (∀ p b, heap s !! p = Some b → (∀ c, b ≠ BCollection c) →
          heap s' !! p = Some b)
  ∧ (∀ p, is_Some (heap s' !! p) ↔ is_Some (heap s !! p)).

(** The collection of [three_items] when the allocator has no memory
    left. *)
Definition three_items_exhausted : state :=
  {| heap := heap three_items; brk := brk three_items;
     alloc_script := [false]; prim_script := prim_script three_items;
     trace := trace three_items |}.

(** ** Contexts *)

(** The object at [p], for use in examples. *)
Definition object_at (h : gmap N block) (p : addr) : DMF_PLATFORM_OBJECT :=
  match h !! p with
  | Some (BObject o) => o
  | _ => zero_object
  end.

(** A wait lock at address 16, created without attributes, in a state whose
    allocator will serve one more request and refuse the one after. *)
Definition lock_before_exhaustion : state :=
  state_after (WdfWaitLockCreate None) (boot_with [true; true; true; false]).

(** ** Creation *)

(** The object [DmfPlatformObjectCreate] leaves in the block it allocated:
    reference count 1, the payload destructor, empty lists, and the link to
    the parent. *)
Definition new_object (ObjectDeleteCallback : option DMF_Platform_ObjectDelete)
    (Parent : addr) : DMF_PLATFORM_OBJECT :=
  {| PlatformObjectType := DmfPlatformObjectTypeUndefined; Data := NULL;
     ObjectAttributes := zero_attributes; ReferenceCount := 1;
     ObjectDelete := ObjectDeleteCallback; ContextList := []; ChildList := [];
     NumberOfChildren := 0; ChildListEntry := Parent |}.

(** The parent after it has been given the child [child]: the child is
    linked at the tail of [ChildList] and [NumberOfChildren], a [LONG], is
    incremented. *)
Definition adopt (child : addr) (P : DMF_PLATFORM_OBJECT)
    : DMF_PLATFORM_OBJECT :=
  set_NumberOfChildren (wrap_LONG (NumberOfChildren P + 1))
    (set_ChildList (ChildList P ++ [child]) P).

(** The back end creates every primitive it is asked for. *)
Definition prims_ok (s : state) : Prop :=
  Forall (λ b, b = true) (prim_script s).

Global Instance prims_ok_dec s : Decision (prims_ok s).
Proof. unfold prims_ok. apply _. Defined.

(** The attributes ask for no context: there are none, or they name no
    descriptor, or the descriptor has size zero. *)
Definition no_context (h : gmap N block)
    (Attributes : option WDF_OBJECT_ATTRIBUTES) : Prop :=
  match Attributes with
  | None => True
  | Some attributes =>
      ContextTypeInfo attributes = NULL
      ∨ ∃ ti, h !! ContextTypeInfo attributes = Some (BTypeInfo ti)
              ∧ ContextSize ti = 0%N
  end.

(** A memory object at 16 in a state whose allocator will serve one more
    request and refuse the one after. *)
Definition parent_then_exhausted : state :=
  state_after (WdfMemoryCreate None 8%N false)
    (boot_with [true; true; true; true; false]).

(** What a successful creation leaves, between the states [s] and [s']: the
    handle [p] is the address the allocator handed out first; the object
    there has the tag [t], the payload destructor [fn], its payload in the
    next block, a copy of the caller's attributes (zero when there are
    none), reference count 1 and no children, and it is linked to the parent
    named in the attributes; the parent has the new child at the tail of its
    list; no other block that was live in [s] has changed. *)
Definition created (t : DmfPlatformObjectType)
    (fn : option DMF_Platform_ObjectDelete)
    (Attributes : option WDF_OBJECT_ATTRIBUTES) (s s' : state) (p : addr)
    : Prop :=
  p = brk s
  ∧ (∃ o, heap s' !! p = Some (BObject o)
          ∧ PlatformObjectType o = t
          ∧ Data o = N.succ p
          ∧ ObjectAttributes o = default zero_attributes Attributes
          ∧ ReferenceCount o = 1
          ∧ ObjectDelete o = fn
          ∧ ChildList o = []
          ∧ NumberOfChildren o = 0
          ∧ ChildListEntry o = parent_of Attributes)
  ∧ (∀ q, (q < brk s)%N → parent_of Attributes = NULL ∨ q ≠ parent_of Attributes →
          heap s' !! q = heap s !! q)
  ∧ (∀ P, parent_of Attributes ≠ NULL →
          heap s !! parent_of Attributes = Some (BObject P) →
          heap s' !! parent_of Attributes = Some (BObject (adopt p P)))
  ∧ allocator_ok s' ∧ never_fails s' ∧ (prims_ok s → prims_ok s').

(** ** Creation followed by other calls *)

(** The kinds of object whose payload destructor is registered at
    creation, with the size of the buffer for a memory object. *)
Inductive object_kind :=
| KMemory (BufferSize : N)
| KWaitLock
| KSpinLock
| KTimer
| KWorkItem.

(** The creation function of each kind: status and handle. *)
Definition create_kind (k : object_kind)
    (Attributes : option WDF_OBJECT_ATTRIBUTES) : M (NTSTATUS * option addr) :=
  match k with
  | KMemory BufferSize => WdfMemoryCreate_result Attributes BufferSize false
  | KWaitLock => WdfWaitLockCreate Attributes
  | KSpinLock => WdfSpinLockCreate Attributes
  | KTimer => WdfTimerCreate Attributes
  | KWorkItem => WdfWorkItemCreate Attributes
  end.

(** [WdfTimerGetParentObject] and [WdfWorkItemGetParentObject]: both read
    [ObjectAttributes.ParentObject] without looking at the tag. *)
Definition WdfTimerGetParentObject (Timer : addr) : M addr :=
  let platformObject := Timer in
  o <~ load_object platformObject ;;
  ret (ParentObject (ObjectAttributes o)).

Definition WdfWorkItemGetParentObject (WorkItem : addr) : M addr :=
  let platformObject := WorkItem in
  o <~ load_object platformObject ;;
  ret (ParentObject (ObjectAttributes o)).

(** The tag, the payload destructor and the payload of a new object of each
    kind; [p] is the address of the object. *)
Definition kind_type (k : object_kind) : DmfPlatformObjectType :=
  match k with
  | KMemory _ => DmfPlatformObjectTypeMemory
  | KWaitLock => DmfPlatformObjectTypeWaitLock
  | KSpinLock => DmfPlatformObjectTypeSpinLock
  | KTimer => DmfPlatformObjectTypeTimer
  | KWorkItem => DmfPlatformObjectTypeWorkItem
  end.

Definition kind_fn (k : object_kind) : DMF_Platform_ObjectDelete :=
  match k with
  | KMemory _ => DmfPlatformWdfMemoryDelete_fn
  | KWaitLock => DmfPlatformWdfWaitLockDelete_fn
  | KSpinLock => DmfPlatformWdfSpinLockDelete_fn
  | KTimer => DmfPlatformWdfTimerDelete_fn
  | KWorkItem => DmfPlatformWdfWorkItemDelete_fn
  end.

Definition kind_payload (k : object_kind) (p : addr) : block :=
  match k with
  | KMemory BufferSize =>
      BMemory {| DataMemory := N.succ (N.succ p); NeedToDeallocate := true;
                 Size := BufferSize |}
  | _ => BPrimitive (kind_type k)
  end.

(** The number of blocks the creation of an object of each kind allocates
    when no context is asked for. *)
Definition kind_blocks (k : object_kind) : N :=
  match k with
  | KMemory _ => 3%N
  | _ => 2%N
  end.

(** The blocks of a new object of each kind: the object, its payload and,
    for a memory object, the buffer. *)
Definition kind_footprint (k : object_kind) (p : addr) : list addr :=
  match k with
  | KMemory _ => [p; N.succ p; N.succ (N.succ p)]
  | _ => [p; N.succ p]
  end.

(** ** Calls that only release *)

(** Between [s] and [s'] no block has been allocated: an address that was
    free is still free, the allocator and the back end have not been asked
    for anything, and the trace has only grown. *)
Definition shrinks (s s' : state) : Prop :=
  (∀ q, heap s !! q = None → heap s' !! q = None)
  ∧ brk s' = brk s
  ∧ alloc_script s' = alloc_script s
  ∧ prim_script s' = prim_script s
  ∧ ∃ new, trace s' = trace s ++ new.

(** A computation that, when it returns, has allocated nothing. *)
Definition shrinking {A} (m : M A) : Prop :=
  ∀ s a s', m s = Some (a, s') → shrinks s s'.

(** The first child of the root of [family_tree], the memory object with
    its collection, and the children after it. *)
Definition family_child : tree :=
  default family_tree (head (kids family_tree)).

Definition family_siblings : list tree := tail (kids family_tree).

(** ** Collections and the lifetime of their items *)

(** The blocks a collection is made of: collection objects and spin lock
    objects, collection payloads and entries. *)
Definition collection_block (b : block) : Prop :=
  match b with
  | BObject o =>
      PlatformObjectType o = DmfPlatformObjectTypeCollection
      ∨ PlatformObjectType o = DmfPlatformObjectTypeSpinLock
  | BCollection _ | BEntry _ => True
  | _ => False
  end.

(** ** The steps of a creation that can fail *)

(** The creation functions.  [MemoryCreatePreallocated] carries the effect
    of its three writes over the object, see [WdfMemoryCreatePreallocated]. *)
Inductive creation_function :=
| MemoryCreate (BufferSize : N) (Buffer : bool)
| MemoryCreatePreallocated
    (write_memory_over_object :
       addr → bool → N → DMF_PLATFORM_OBJECT → DMF_PLATFORM_OBJECT)
    (Buffer : addr) (BufferSize : N)
| WaitLockCreate
| SpinLockCreate
| TimerCreate
| WorkItemCreate
| CollectionCreate.

(** The call of a creation function: the status and the handle. *)
Definition run_creation (f : creation_function)
    (Attributes : option WDF_OBJECT_ATTRIBUTES) : M (NTSTATUS * option addr) :=
  match f with
  | MemoryCreate BufferSize Buffer =>
      WdfMemoryCreate_result Attributes BufferSize Buffer
  | MemoryCreatePreallocated write Buffer BufferSize =>
      WdfMemoryCreatePreallocated write Attributes Buffer BufferSize
  | WaitLockCreate => WdfWaitLockCreate Attributes
  | SpinLockCreate => WdfSpinLockCreate Attributes
  | TimerCreate => WdfTimerCreate Attributes
  | WorkItemCreate => WdfWorkItemCreate Attributes
  | CollectionCreate => WdfCollectionCreate Attributes
  end.

(** [WdfMemoryCreatePreallocated] copies the attributes without testing the
    pointer; the other functions accept [WDF_NO_OBJECT_ATTRIBUTES]. *)
Definition accepts (f : creation_function)
    (Attributes : option WDF_OBJECT_ATTRIBUTES) : Prop :=
  match f with
  | MemoryCreatePreallocated _ _ _ => Attributes ≠ None
  | _ => True
  end.

(** The calls inside a creation function that can fail: the allocation of
    the control block ([DmfPlatformObjectCreate]), of the payload and of the
    buffer of a memory object, the creation of the primitive by the back
    end, the same three for the spin lock that [WdfCollectionCreate] creates
    for the collection, and the two allocations of
    [WdfObjectAllocateContext]. *)
Inductive creation_step :=
| StepControlBlock
| StepPayload
| StepBuffer
| StepPrimitive
| StepLockControlBlock
| StepLockPayload
| StepLockPrimitive
| StepContext
| StepContextData.

(** A step is a call of the allocator, or else of the back end. *)
Definition is_allocation (c : creation_step) : bool :=
  match c with
  | StepPrimitive | StepLockPrimitive => false
  | _ => true
  end.

(** The steps of each function before it allocates the context, in the
    order of the source. *)
Definition own_steps (f : creation_function) : list creation_step :=
  match f with
  | MemoryCreate _ _ => [StepControlBlock; StepPayload; StepBuffer]
  | MemoryCreatePreallocated _ _ _ => [StepControlBlock; StepPayload]
  | WaitLockCreate | SpinLockCreate | TimerCreate | WorkItemCreate =>
      [StepControlBlock; StepPayload; StepPrimitive]
  | CollectionCreate =>
      [StepControlBlock; StepPayload;
       StepLockControlBlock; StepLockPayload; StepLockPrimitive]
  end.

(** The steps of [CustomContextAllocate]: none unless the attributes name a
    descriptor of positive size. *)
Definition context_steps (h : gmap N block)
    (Attributes : option WDF_OBJECT_ATTRIBUTES) : list creation_step :=
  match Attributes with
  | None => []
  | Some attributes =>
      if is_null (ContextTypeInfo attributes) then []
      else match h !! ContextTypeInfo attributes with
           | Some (BTypeInfo typeInfo) =>
               if bool_decide (0 < ContextSize typeInfo)%N
               then [StepContext; StepContextData] else []
           | _ => []
           end
  end.

(** The next call served from [script] fails. *)
Definition refused (script : list bool) : bool :=
  match script with
  | false :: _ => true
  | _ => false
  end.

(** The first of [steps] that fails when the calls of the allocator are
    served from [allocs] and those of the back end from [prims], each call
    taking the next entry of its script. *)
Fixpoint first_failure (steps : list creation_step) (allocs prims : list bool)
    : option creation_step :=
  match steps with
  | [] => None
  | c :: rest =>
      if is_allocation c then
        if refused allocs then Some c
        else first_failure rest (tail allocs) prims
      else
        if refused prims then Some c
        else first_failure rest allocs (tail prims)
  end.

(** The status that goes with the step that failed. *)
Definition status_of (failure : option creation_step) : NTSTATUS :=
  match failure with
  | None => STATUS_SUCCESS
  | Some StepContext | Some StepContextData => STATUS_INSUFFICIENT_RESOURCES
  | Some _ => STATUS_UNSUCCESSFUL
  end.

(** ** A child whose creation fails below a live parent *)

(** The family of [create_family], built in a state whose allocator serves
    the eleven requests of the four creations and one more, and refuses the
    one after. *)
Definition family_then_exhausted : state :=
  state_after create_family (boot_with (replicate 12 true ++ [false])).

(** * Running the code *)

(** ** Steps of the monad *)

Lemma bind_run {A B} (m : M A) (k : A → M B) s a s' :
  m s = Some (a, s') → bind m k s = k a s'.
Proof. intros H. unfold bind. by rewrite H. Qed.

Lemma bind_inv {A B} (m : M A) (k : A → M B) s r :
  bind m k s = Some r → ∃ a s', m s = Some (a, s') ∧ k a s' = Some r.
Proof.
  unfold bind. destruct (m s) as [[a s']|] eqn:E; [|done].
  intros H. by exists a, s'.
Qed.

Lemma bind_assoc {A B C} (m : M A) (k1 : A → M B) (k2 : B → M C) s :
  bind (bind m k1) k2 s = bind m (λ x, bind (k1 x) k2) s.
Proof. unfold bind. by destruct (m s) as [[a s']|]. Qed.

Lemma load_run s p b : heap s !! p = Some b → load p s = Some (b, s).
Proof. intros H. unfold load. by rewrite H. Qed.

Lemma load_object_run s p o :
  heap s !! p = Some (BObject o) → load_object p s = Some (o, s).
Proof. intros H. unfold load_object. by rewrite (bind_run _ _ _ _ _ (load_run _ _ _ H)). Qed.

Lemma load_context_run s p c :
  heap s !! p = Some (BContext c) → load_context p s = Some (c, s).
Proof. intros H. unfold load_context. by rewrite (bind_run _ _ _ _ _ (load_run _ _ _ H)). Qed.

Lemma load_memory_run s p m :
  heap s !! p = Some (BMemory m) → load_memory p s = Some (m, s).
Proof. intros H. unfold load_memory. by rewrite (bind_run _ _ _ _ _ (load_run _ _ _ H)). Qed.

Lemma load_collection_run s p c :
  heap s !! p = Some (BCollection c) → load_collection p s = Some (c, s).
Proof. intros H. unfold load_collection. by rewrite (bind_run _ _ _ _ _ (load_run _ _ _ H)). Qed.

Lemma load_entry_run s p e :
  heap s !! p = Some (BEntry e) → load_entry p s = Some (e, s).
Proof. intros H. unfold load_entry. by rewrite (bind_run _ _ _ _ _ (load_run _ _ _ H)). Qed.

Lemma load_typeinfo_run s p ti :
  heap s !! p = Some (BTypeInfo ti) → load_typeinfo p s = Some (ti, s).
Proof. intros H. unfold load_typeinfo. by rewrite (bind_run _ _ _ _ _ (load_run _ _ _ H)). Qed.

Lemma store_run s p b b' :
  heap s !! p = Some b → store p b' s = Some (tt, set_heap (insert p b') s).
Proof. intros H. unfold store. by rewrite H. Qed.

Lemma update_object_run s p o f :
  heap s !! p = Some (BObject o) →
  update_object p f s = Some (tt, set_heap (insert p (BObject (f o))) s).
Proof.
  intros H. unfold update_object.
  rewrite (bind_run _ _ _ _ _ (load_object_run _ _ _ H)).
  by apply store_run with (b := BObject o).
Qed.

Lemma update_memory_run s p m f :
  heap s !! p = Some (BMemory m) →
  update_memory p f s = Some (tt, set_heap (insert p (BMemory (f m))) s).
Proof.
  intros H. unfold update_memory.
  rewrite (bind_run _ _ _ _ _ (load_memory_run _ _ _ H)).
  by apply store_run with (b := BMemory m).
Qed.

Lemma update_collection_run s p c f :
  heap s !! p = Some (BCollection c) →
  update_collection p f s
  = Some (tt, set_heap (insert p (BCollection (f c))) s).
Proof.
  intros H. unfold update_collection.
  rewrite (bind_run _ _ _ _ _ (load_collection_run _ _ _ H)).
  by apply store_run with (b := BCollection c).
Qed.

Lemma update_context_run s p c f :
  heap s !! p = Some (BContext c) →
  update_context p f s = Some (tt, set_heap (insert p (BContext (f c))) s).
Proof.
  intros H. unfold update_context.
  rewrite (bind_run _ _ _ _ _ (load_context_run _ _ _ H)).
  by apply store_run with (b := BContext c).
Qed.

Lemma free_run s p b :
  p ≠ NULL → heap s !! p = Some b →
  DMF_Platform_Free p s
  = Some (tt, add_trace (EvFree p) (set_heap (delete p) s)).
Proof.
  intros Hp H. unfold DMF_Platform_Free, is_null.
  rewrite bool_decide_eq_false_2 by done. by rewrite H.
Qed.

Lemma is_null_false p : p ≠ NULL → is_null p = false.
Proof. intros. unfold is_null. by apply bool_decide_eq_false_2. Qed.

Lemma is_null_NULL : is_null NULL = true.
Proof. done. Qed.

Lemma is_null_true p : is_null p = true → p = NULL.
Proof. unfold is_null. by intros ?%bool_decide_eq_true_1. Qed.

Lemma InterlockedDecrement_zero v :
  - 2 ^ 31 <= v < 2 ^ 31 → InterlockedDecrement v = 0 ↔ v = 1.
Proof.
  intros Hv. unfold InterlockedDecrement, wrap_LONG. split; [|by intros ->].
  intros H.
  destruct (decide (v = - 2 ^ 31)) as [->|Hne]; [done|].
  rewrite Z.mod_small in H by lia. lia.
Qed.

Lemma wrap_LONG_small z : - 2 ^ 31 <= z < 2 ^ 31 → wrap_LONG z = z.
Proof. intros H. unfold wrap_LONG. rewrite Z.mod_small by lia. lia. Qed.

Lemma wrap_ULONG_small z : 0 <= z < 2 ^ 32 → wrap_ULONG z = z.
Proof. intros H. unfold wrap_ULONG. by rewrite Z.mod_small. Qed.

Lemma DMF_Platform_Allocate_ok zero s :
  alloc_fails s = false →
  DMF_Platform_Allocate zero s = Some (brk s, allocated zero s).
Proof. intros H. unfold DMF_Platform_Allocate. by rewrite H. Qed.

Lemma DMF_Platform_Allocate_fail zero s :
  alloc_fails s = true →
  DMF_Platform_Allocate zero s = Some (NULL, alloc_failed s).
Proof. intros H. unfold DMF_Platform_Allocate. by rewrite H. Qed.

Lemma allocator_ok_lookup s p b :
  allocator_ok s → heap s !! p = Some b → (0 < brk s)%N ∧ (p < brk s)%N.
Proof. intros [H0 H] Hp. split; [done|]. by apply (H p b). Qed.

Lemma allocator_ok_fresh s p :
  allocator_ok s → (brk s <= p)%N → heap s !! p = None.
Proof.
  intros [_ H] Hp. destruct (heap s !! p) as [b|] eqn:E; [|done].
  apply H in E. lia.
Qed.

Lemma Data_with_attributes Attributes o :
  Data (with_attributes Attributes o) = Data o.
Proof. by destruct Attributes. Qed.

Lemma PlatformObjectType_with_attributes Attributes o :
  PlatformObjectType (with_attributes Attributes o) = PlatformObjectType o.
Proof. by destruct Attributes. Qed.

(** ** Symbolic execution *)

Ltac heap_simpl :=
  cbn [heap brk alloc_script prim_script trace set_heap add_trace add_events
       allocated alloc_failed prim_called alloc_fails prim_fails] in *.

(** Fields of updated structs. *)
Ltac field_simpl :=
  cbn [PlatformObjectType Data ObjectAttributes ReferenceCount ObjectDelete
       ContextList ChildList NumberOfChildren ChildListEntry
       set_PlatformObjectType set_Data set_ObjectAttributes
       set_ReferenceCount set_ObjectDelete set_ContextList set_ChildList
       set_NumberOfChildren set_ChildListEntry
       ListLock List ItemCount set_ListLock set_List set_ItemCount
       DataMemory NeedToDeallocate Size ContextTypeInfoCopy ContextData
       Object].

Ltac solve_neq :=
  first [done | congruence | lia | (unfold NULL in *; lia)].

Ltac solve_lookup :=
  heap_simpl; field_simpl;
  repeat first
    [ rewrite lookup_insert_eq
    | rewrite lookup_insert_ne by solve_neq
    | rewrite lookup_delete_ne by solve_neq ];
  first [eassumption | reflexivity].

Ltac run_prim :=
  lazymatch goal with
  | |- load_object _ _ = _ => apply load_object_run; solve_lookup
  | |- load_context _ _ = _ => apply load_context_run; solve_lookup
  | |- load_typeinfo _ _ = _ => apply load_typeinfo_run; solve_lookup
  | |- load_memory _ _ = _ => apply load_memory_run; solve_lookup
  | |- load_collection _ _ = _ => apply load_collection_run; solve_lookup
  | |- load_entry _ _ = _ => apply load_entry_run; solve_lookup
  | |- update_object _ _ _ = _ => eapply update_object_run; solve_lookup
  | |- update_context _ _ _ = _ => eapply update_context_run; solve_lookup
  | |- update_memory _ _ _ = _ => eapply update_memory_run; solve_lookup
  | |- update_collection _ _ _ = _ =>
      eapply update_collection_run; solve_lookup
  | |- store _ _ _ = _ => eapply store_run; solve_lookup
  | |- DMF_Platform_Free _ _ = _ =>
      eapply free_run; [heap_simpl; solve_neq|solve_lookup]
  | |- DMF_Platform_Allocate _ _ = _ =>
      first [ apply DMF_Platform_Allocate_ok; heap_simpl; eassumption
            | apply DMF_Platform_Allocate_fail; heap_simpl; eassumption ]
  | |- emit _ _ = _ => reflexivity
  | |- ret _ _ = _ => reflexivity
  | |- Platform_PrimitiveCreate _ = _ => reflexivity
  end.

(** Bring the first action of the computation in the goal to the front. *)
Ltac assoc :=
  cbv zeta;
  repeat lazymatch goal with
         | |- context [bind (bind ?m ?k1) ?k2 ?s] =>
             rewrite (bind_assoc m k1 k2 s)
         end.

(** Run the first action of the computation in the goal. *)
Ltac step :=
  assoc;
  lazymatch goal with
  | |- context [bind ?m ?k ?s] =>
      erewrite (bind_run m k s); [|run_prim]; cbv beta zeta; field_simpl;
      rewrite ?Data_with_attributes, ?PlatformObjectType_with_attributes;
      field_simpl
  end.

(** * Creation when the extension cannot be allocated *)

(** C4.  [WdfMemoryCreate] with a context type of 8 bytes, where the
    allocations of the object, of its payload and of its buffer succeed and
    the allocation of the context fails: the function returns
    [STATUS_INSUFFICIENT_RESOURCES], but it has already written the handle to
    [*Memory], and the object is still allocated (nothing was freed). *)
Lemma WdfMemoryCreate_context_failure_leaves_object :
  ∃ s' Memory Buffer o,
    WdfMemoryCreate (Some (attributes NULL 1%N)) 32%N true
      (boot_with [true; true; true; false])
    = Some ((STATUS_INSUFFICIENT_RESOURCES, Some Memory, Buffer), s')
    ∧ Memory ≠ NULL
    ∧ heap s' !! Memory = Some (BObject o)
    ∧ ContextList o = []
    ∧ (∀ p, EvFree p ∉ trace s').
Proof.
  eexists _, _, _, _. split; [vm_compute; reflexivity|].
  split; [done|]. split; [vm_compute; reflexivity|]. split; [done|].
  intros p Hp. vm_compute in Hp.
  repeat (apply elem_of_cons in Hp as [Hp|Hp]; [discriminate|]).
  by apply elem_of_nil in Hp.
Qed.

(** * The child count of a parent *)

(** C6.  A parent and one child are created: the parent's
    [NumberOfChildren] is 1 and its [ChildList] holds the child.  The child
    is then deleted directly and is destroyed; it unlinks itself from the
    parent's [ChildList], but the parent's [NumberOfChildren] is still 1:
    only the walk in the parent's own [WdfObjectDelete] decrements it. *)
Lemma direct_delete_keeps_NumberOfChildren :
  ∃ parent child s1 s2 p1 p2,
    create_parent_and_child boot = Some ((parent, child), s1)
    ∧ heap s1 !! parent = Some (BObject p1)
    ∧ ChildList p1 = [child] ∧ NumberOfChildren p1 = 1
    ∧ WdfObjectDelete 1 child s1 = Some (tt, s2)
    ∧ heap s2 !! child = None
    ∧ heap s2 !! parent = Some (BObject p2)
    ∧ ChildList p2 = [] ∧ NumberOfChildren p2 = 1.
Proof.
  eexists _, _, _, _, _, _.
  split; [vm_compute; reflexivity|].
  split; [vm_compute; reflexivity|].
  split; [done|]. split; [done|].
  split; [vm_compute; reflexivity|].
  split; [vm_compute; reflexivity|].
  split; [vm_compute; reflexivity|].
  done.
Qed.

(** * What destruction frees *)

(** C7.  A wait lock is created with a context type of 4 bytes, which
    attaches one [DMF_PLATFORM_CONTEXT] (at 18) with its data (at 19).
    Deleting the lock calls the payload destructor, frees the payload (17),
    deletes the critical section and frees the object (16), in this order;
    the context and its data are not freed and stay allocated. *)
Lemma WdfObjectDelete_leaves_contexts :
  ∃ lock s1 s2 c,
    create_lock_with_context (boot_with []) = Some (lock, s1)
    ∧ WdfObjectDelete 1 lock s1 = Some (tt, s2)
    ∧ trace s2 = trace s1 ++
        [EvCriticalSectionEnter lock; EvCriticalSectionLeave lock;
         EvObjectDelete DmfPlatformWdfWaitLockDelete_fn lock;
         EvPrimitiveDelete DmfPlatformObjectTypeWaitLock 17%N;
         EvFree 17%N; EvCriticalSectionDelete lock; EvFree lock]
    ∧ heap s2 !! lock = None
    ∧ heap s2 !! 18%N = Some (BContext c)
    ∧ ContextData c = 19%N
    ∧ heap s2 !! 19%N = Some (BBytes 4).
Proof.
  eexists _, _, _, _.
  split; [vm_compute; reflexivity|].
  split; [vm_compute; reflexivity|].
  split; [vm_compute; reflexivity|].
  split; [vm_compute; reflexivity|].
  split; [vm_compute; reflexivity|].
  done.
Qed.

(** * A memory object over a caller's buffer *)

(** C10.  [WdfMemoryCreatePreallocated] is given the buffer at 4096 of 64
    bytes, then [WdfMemoryGetBuffer] is called on the handle.  The creation
    stores the buffer pointer and the size through the object pointer, not
    through [platformObject->Data], so the payload block that
    [WdfMemoryGetBuffer] reads is still zero: whatever the struct layout
    makes of the misdirected writes, the call cannot return the buffer at
    4096 and the size 64; if it returns, it returns [NULL] and 0. *)
Lemma WdfMemoryCreatePreallocated_loses_buffer write_memory_over_object r s' :
  create_preallocated_and_get write_memory_over_object boot_with_buffer
  = Some (r, s') →
  r = (NULL, Some 0%N).
Proof.
  intros H. unfold create_preallocated_and_get in H.
  apply bind_inv in H as (r1 & s1 & H1 & H2).
  vm_compute in H1. injection H1 as <- <-.
  unfold WdfMemoryGetBuffer in H2.
  apply bind_inv in H2 as (o & s2 & Ho & H2).
  vm_compute in Ho. injection Ho as <- <-.
  apply bind_inv in H2 as ([] & s3 & Ha & H2).
  unfold DmfAssert in Ha.
  destruct (bool_decide _) in Ha; [|done]. injection Ha as <-.
  apply bind_inv in H2 as (m & s4 & Hm & H2).
  injection H2 as <- <-.
  unfold load_memory in Hm.
  apply bind_inv in Hm as (b & s5 & Hb & Hm).
  unfold load in Hb.
  match type of Hb with
  | match ?h !! ?p with _ => _ end = _ => destruct (h !! p) as [b'|] eqn:E
  end; [|done].
  injection Hb as -> <-.
  destruct b; try done. injection Hm as -> _.
  apply elem_of_map_to_list in E. vm_compute in E.
  repeat (apply elem_of_cons in E as [E|E];
          [try discriminate E; by injection E as _ ->|]).
  by apply elem_of_nil in E.
Qed.

Lemma WdfMemoryCreatePreallocated_loses_buffer_witness :
  ∃ r s', create_preallocated_and_get (λ _ _ _ o, o) boot_with_buffer
          = Some (r, s')
          ∧ r = (NULL, Some 0%N).
Proof.
  eexists _, _. split; [vm_compute; reflexivity|].
  eapply (WdfMemoryCreatePreallocated_loses_buffer (λ _ _ _ o, o)).
  vm_compute; reflexivity.
Defined.

(** * Context lookup *)

Lemma contexts_at_lookup h l cs p :
  contexts_at h l = Some cs → p ∈ l → ∃ c, h !! p = Some (BContext c).
Proof.
  revert cs. induction l as [|q l IH]; intros cs H Hp; [by apply elem_of_nil in Hp|].
  simpl in H.
  destruct (h !! q) as [[]|] eqn:Hq; try done.
  destruct (contexts_at h l) as [cs'|] eqn:Hl; [|done].
  apply elem_of_cons in Hp as [->|Hp]; [by eexists|]. by eapply IH.
Qed.

Lemma contexts_at_insert h l a b :
  a ∉ l → contexts_at (<[a:=b]> h) l = contexts_at h l.
Proof.
  induction l as [|q l IH]; intros Ha; [done|].
  apply not_elem_of_cons in Ha as [Hq Ha]. simpl.
  rewrite lookup_insert_ne by done. by rewrite IH.
Qed.

Lemma contexts_at_app h l1 l2 cs1 cs2 :
  contexts_at h l1 = Some cs1 → contexts_at h l2 = Some cs2 →
  contexts_at h (l1 ++ l2) = Some (cs1 ++ cs2).
Proof.
  revert cs1. induction l1 as [|q l1 IH]; intros cs1 H1 H2; simpl in *.
  - by injection H1 as <-.
  - destruct (h !! q) as [[]|]; try done.
    destruct (contexts_at h l1) as [cs'|]; [|done].
    injection H1 as <-. by rewrite (IH _ eq_refl H2).
Qed.

Lemma context_walk_run s TypeInfo ti l cs :
  heap s !! TypeInfo = Some (BTypeInfo ti) →
  contexts_at (heap s) l = Some cs →
  context_walk TypeInfo l s
  = Some (ContextData <$>
            find (λ c, bool_decide
                         (ContextName ti = ContextName (ContextTypeInfoCopy c)))
                 cs, s).
Proof.
  intros Hti. revert cs. induction l as [|p l IH]; intros cs Hcs; simpl in Hcs.
  - by injection Hcs as <-.
  - destruct (heap s !! p) as [[]|] eqn:Hp; try done.
    destruct (contexts_at (heap s) l) as [cs'|] eqn:Hl; [|done].
    injection Hcs as <-. cbn [context_walk]. step. step. cbn [find].
    destruct (bool_decide _) eqn:E; [done|]. by rewrite (IH _ eq_refl).
Qed.

(** Lookup returns the data of the first context with the queried name. *)
Lemma WdfObjectGetTypedContextWorker_run s Handle TypeInfo o ti cs :
  heap s !! Handle = Some (BObject o) →
  heap s !! TypeInfo = Some (BTypeInfo ti) →
  contexts_at (heap s) (ContextList o) = Some cs →
  WdfObjectGetTypedContextWorker Handle TypeInfo s
  = Some (first_match (ContextName ti) cs,
          add_trace (EvCriticalSectionLeave Handle)
            (add_trace (EvCriticalSectionEnter Handle) s)).
Proof.
  intros Ho Hti Hcs. unfold WdfObjectGetTypedContextWorker.
  step. step.
  erewrite bind_run; [|by eapply context_walk_run].
  by step.
Qed.

Lemma first_match_None name cs :
  Forall (λ c, ContextName (ContextTypeInfoCopy c) ≠ name) cs →
  first_match name cs = NULL.
Proof.
  unfold first_match. induction 1 as [|c cs Hc _ IH]; [done|].
  cbn [find]. by rewrite bool_decide_eq_false_2.
Qed.

Lemma first_match_app_nonnull name cs c :
  Forall (λ c, ContextData c ≠ NULL) cs →
  ContextData c ≠ NULL → ContextName (ContextTypeInfoCopy c) = name →
  first_match name (cs ++ [c]) ≠ NULL.
Proof.
  unfold first_match. intros Hcs Hc Hn.
  induction Hcs as [|c' cs Hc' _ IH]; cbn [app find].
  - by rewrite bool_decide_eq_true_2.
  - by destruct (bool_decide _).
Qed.

(** A successful [WdfObjectAllocateContext] appends one context, with a
    copy of the descriptor and data that is not [NULL], and changes no other
    block. *)
Lemma WdfObjectAllocateContext_success s Handle attrs Context o ti r s' :
  allocator_ok s →
  heap s !! Handle = Some (BObject o) →
  heap s !! ContextTypeInfo attrs = Some (BTypeInfo ti) →
  WdfObjectAllocateContext Handle attrs Context s = Some (r, s') →
  fst r = STATUS_SUCCESS →
  ∃ c, heap s' !! Handle
       = Some (BObject (set_ContextList (ContextList o ++ [brk s]) o))
       ∧ heap s' !! brk s = Some (BContext c)
       ∧ ContextTypeInfoCopy c = ti
       ∧ ContextData c ≠ NULL
       ∧ snd r = (if Context then Some (ContextData c) else None)
       ∧ (∀ p, (p < brk s)%N → p ≠ Handle → heap s' !! p = heap s !! p).
Proof.
  intros Hok Ho Hti Hrun Hst.
  destruct (allocator_ok_lookup _ _ _ Hok Ho) as [Hbrk HH].
  destruct (allocator_ok_lookup _ _ _ Hok Hti) as [_ HT].
  unfold WdfObjectAllocateContext in Hrun. revert Hrun.
  destruct (alloc_fails s) eqn:E1.
  { step. cbn. intros [= <- _]. done. }
  step. rewrite is_null_false by (unfold NULL; lia).
  step.
  destruct (alloc_fails (allocated (BContext zero_context) s)) eqn:E2.
  { step. step. rewrite is_null_NULL. step. cbn. intros [= <- _]. done. }
  step. step. rewrite is_null_false by (heap_simpl; unfold NULL; lia).
  step. step. step. step. step. step.
  cbn [ret]. intros [= <- <-].
  eexists. split; [solve_lookup|]. split; [solve_lookup|].
  split; [done|]. split; [cbn; unfold NULL; lia|]. split; [done|].
  intros p Hp HpH. heap_simpl.
  by rewrite !lookup_insert_ne by lia.
Qed.

(** The descriptor at address 2 is attached to no object; the lock was
    created with the descriptor at address 1, which has the same
    [ContextName].  Looking the lock up with the descriptor at 2 finds the
    context of the descriptor at 1. *)
Lemma lookup_finds_other_descriptor :
  ∃ lock found s',
    attach_one_lookup_other (boot_with []) = Some ((lock, found), s')
    ∧ found ≠ NULL
    ∧ heap s' !! 1%N ≠ None ∧ heap s' !! 2%N ≠ None ∧ 1%N ≠ 2%N.
Proof.
  eexists _, _, _. split; [vm_compute; reflexivity|].
  repeat split; done.
Qed.

(** C8, amended: contexts are found by the [ContextName] pointer of the
    descriptor, not by the address of the descriptor.  For an object whose
    contexts are live, lookup returns the data of the first-attached context
    whose stored [ContextName] equals the [ContextName] of the queried
    descriptor; it returns [NULL] when no attached context has that name;
    and after a successful [WdfObjectAllocateContext] with a descriptor,
    lookup with that descriptor returns a pointer that is not [NULL]. *)
Theorem context_lookup_by_name s Handle TypeInfo o ti cs :
  allocator_ok s →
  heap s !! Handle = Some (BObject o) →
  heap s !! TypeInfo = Some (BTypeInfo ti) →
  contexts_at (heap s) (ContextList o) = Some cs →
  Forall (λ c, ContextData c ≠ NULL) cs →
  (∃ s', WdfObjectGetTypedContextWorker Handle TypeInfo s
         = Some (first_match (ContextName ti) cs, s'))
  ∧ (Forall (λ c, ContextName (ContextTypeInfoCopy c) ≠ ContextName ti) cs →
     ∃ s', WdfObjectGetTypedContextWorker Handle TypeInfo s = Some (NULL, s'))
  ∧ (∀ attrs Context r s1,
       ContextTypeInfo attrs = TypeInfo →
       WdfObjectAllocateContext Handle attrs Context s = Some (r, s1) →
       fst r = STATUS_SUCCESS →
       ∃ found s2,
         WdfObjectGetTypedContextWorker Handle TypeInfo s1 = Some (found, s2)
         ∧ found ≠ NULL).
Proof.
  intros Hok Ho Hti Hcs Hnn.
  pose proof (WdfObjectGetTypedContextWorker_run _ _ _ _ _ _ Ho Hti Hcs) as Hrun.
  split; [by eexists|]. split.
  { intros Hno. rewrite (first_match_None _ _ Hno) in Hrun. by eexists. }
  intros attrs Context r s1 <- Hattach Hst.
  destruct (WdfObjectAllocateContext_success _ _ _ _ _ _ _ _ Hok Ho Hti Hattach Hst)
    as (c & Ho1 & Hc & Hcti & Hcd & _ & Hframe).
  destruct (allocator_ok_lookup _ _ _ Hok Ho) as [_ HH].
  destruct (allocator_ok_lookup _ _ _ Hok Hti) as [_ HT].
  assert (Hti1 : heap s1 !! ContextTypeInfo attrs = Some (BTypeInfo ti)).
  { rewrite Hframe; [done|done|congruence]. }
  assert (Hcs1 : contexts_at (heap s1) (ContextList o ++ [brk s])
                 = Some (cs ++ [c])).
  { apply contexts_at_app; [|by cbn [contexts_at]; rewrite Hc].
    rewrite <- Hcs. clear Hnn Hrun.
    assert (Hin : ∀ p, p ∈ ContextList o → ∃ c, heap s !! p = Some (BContext c))
      by (intros p Hp; by eapply contexts_at_lookup).
    revert Hin. generalize (ContextList o) as l. clear Hcs.
    induction l as [|p l IH]; intros Hin; [done|]. cbn [contexts_at].
    destruct (Hin p) as [c' Hp]; [by left|].
    destruct (allocator_ok_lookup _ _ _ Hok Hp) as [_ Hlt].
    rewrite Hframe; [|done|congruence].
    rewrite IH; [done|]. intros q Hq. apply Hin. by right. }
  eexists _, _. split.
  - by eapply (WdfObjectGetTypedContextWorker_run s1 Handle _ _ ti (cs ++ [c])).
  - by apply first_match_app_nonnull; [| |rewrite Hcti].
Qed.

Lemma context_lookup_by_name_witness :
  ∃ s', WdfObjectGetTypedContextWorker 16%N 3%N
          (state_after create_lock_with_context (boot_with []))
        = Some (19%N, s').
Proof.
  pose (ti := {| ContextName := 200%N; ContextSize := 4%N |}).
  refine (proj1 (context_lookup_by_name _ 16%N 3%N _ ti
                   [{| ContextTypeInfoCopy := ti; ContextData := 19%N |}]
                   _ _ _ _ _)).
  - refine (bool_decide_unpack _ _). vm_compute. exact I.
  - vm_compute; reflexivity.
  - vm_compute; reflexivity.
  - vm_compute; reflexivity.
  - repeat constructor; done.
Defined.

(** * Collections *)

Lemma collection_items_inv h Collection items :
  collection_items h Collection = Some items →
  ∃ o c lock,
    h !! Collection = Some (BObject o)
    ∧ PlatformObjectType o = DmfPlatformObjectTypeCollection
    ∧ h !! Data o = Some (BCollection c)
    ∧ h !! ListLock c = Some (BObject lock)
    ∧ PlatformObjectType lock = DmfPlatformObjectTypeSpinLock
    ∧ NoDup (List c)
    ∧ ItemCount c = Z.of_nat (length (List c))
    ∧ entries_at h (List c) = Some items.
Proof.
  unfold collection_items. intros H.
  destruct (h !! Collection) as [[o| | | | | | |]|] eqn:Ho; try done.
  destruct (h !! Data o) as [[|?|?|c| | | |]|] eqn:Hc; try done.
  destruct (h !! ListLock c) as [[lock| | | | | | |]|] eqn:Hl; try done.
  case_bool_decide as Hd; [|done]. destruct Hd as (?&?&?&?).
  by exists o, c, lock.
Qed.

Lemma collection_items_intro h Collection items o c lock :
  h !! Collection = Some (BObject o) →
  PlatformObjectType o = DmfPlatformObjectTypeCollection →
  h !! Data o = Some (BCollection c) →
  h !! ListLock c = Some (BObject lock) →
  PlatformObjectType lock = DmfPlatformObjectTypeSpinLock →
  NoDup (List c) →
  ItemCount c = Z.of_nat (length (List c)) →
  entries_at h (List c) = Some items →
  collection_items h Collection = Some items.
Proof.
  intros Ho Hto Hc Hl Htl Hnd Hn He. unfold collection_items.
  rewrite Ho, Hc, Hl. by rewrite bool_decide_eq_true_2.
Qed.

Lemma entries_at_length h l xs :
  entries_at h l = Some xs → length xs = length l.
Proof.
  revert xs. induction l as [|p l IH]; intros xs H; simpl in H.
  - by injection H as <-.
  - destruct (h !! p) as [[]|]; try done.
    destruct (entries_at h l) as [xs'|]; [|done].
    injection H as <-. simpl. by rewrite (IH _ eq_refl).
Qed.

Lemma entries_at_lookup h l xs i p :
  entries_at h l = Some xs → l !! i = Some p →
  ∃ e, h !! p = Some (BEntry e) ∧ xs !! i = Some (Object e).
Proof.
  revert xs i. induction l as [|q l IH]; intros xs i H Hi; [done|].
  simpl in H.
  destruct (h !! q) as [[| | | |e| | |]|] eqn:Hq; try done.
  destruct (entries_at h l) as [xs'|]; [|done].
  injection H as <-. destruct i as [|i]; simpl in Hi.
  - injection Hi as <-. by exists e.
  - by apply (IH _ i eq_refl).
Qed.

Lemma entries_at_insert h l a b :
  a ∉ l → entries_at (<[a:=b]> h) l = entries_at h l.
Proof.
  induction l as [|q l IH]; intros Ha; [done|].
  apply not_elem_of_cons in Ha as [Hq Ha]. cbn [entries_at].
  rewrite lookup_insert_ne by done. by rewrite IH.
Qed.

Lemma entries_at_app h l1 l2 xs1 xs2 :
  entries_at h l1 = Some xs1 → entries_at h l2 = Some xs2 →
  entries_at h (l1 ++ l2) = Some (xs1 ++ xs2).
Proof.
  revert xs1. induction l1 as [|q l1 IH]; intros xs1 H1 H2; simpl in *.
  - by injection H1 as <-.
  - destruct (h !! q) as [[]|]; try done.
    destruct (entries_at h l1) as [xs'|]; [|done].
    injection H1 as <-. by rewrite (IH _ eq_refl H2).
Qed.

Lemma entries_at_delete h l xs i :
  entries_at h l = Some xs →
  entries_at h (delete i l) = Some (delete i xs).
Proof.
  revert xs i. induction l as [|q l IH]; intros xs i H.
  - simpl in H. injection H as <-. by destruct i.
  - cbn [entries_at] in H.
    destruct (h !! q) as [[| | | |e| | |]|] eqn:Hq; try done.
    destruct (entries_at h l) as [xs'|] eqn:Hl; [|done].
    injection H as <-. destruct i as [|i]; [done|].
    change (delete (S i) (q :: l)) with (q :: delete i l).
    change (delete (S i) (Object e :: xs')) with (Object e :: delete i xs').
    cbn [entries_at]. rewrite Hq. by rewrite (IH _ i eq_refl).
Qed.

Lemma entries_at_elem h l xs p :
  entries_at h l = Some xs → p ∈ l → ∃ e, h !! p = Some (BEntry e).
Proof.
  intros H [i Hi]%list_elem_of_lookup.
  destruct (entries_at_lookup _ _ _ _ _ H Hi) as (e & He & _). by exists e.
Qed.

Lemma unlink_delete l i e :
  NoDup l → l !! i = Some e → unlink e l = delete i l.
Proof.
  unfold unlink. revert i. induction l as [|q l IH]; intros i Hnd Hi; [done|].
  apply NoDup_cons in Hnd as [Hq Hnd]. destruct i as [|i]; simpl in Hi.
  - injection Hi as ->. rewrite filter_cons_False by (intros H; by apply H).
    change (delete 0%nat (e :: l)) with l.
    clear IH Hnd. induction l as [|q l IH]; [done|].
    apply not_elem_of_cons in Hq as [Hne Hq].
    rewrite filter_cons_True by done. by rewrite IH.
  - rewrite filter_cons_True.
    + change (delete (S i) (q :: l)) with (q :: delete i l).
      by rewrite (IH i).
    + intros ->. apply Hq. by eapply list_elem_of_lookup_2.
Qed.

Lemma collection_of_run s Collection o :
  heap s !! Collection = Some (BObject o) →
  PlatformObjectType o = DmfPlatformObjectTypeCollection →
  collection_of Collection s = Some (Data o, s).
Proof.
  intros Ho Ht. unfold collection_of. step.
  rewrite Ht. by rewrite bool_decide_eq_true_2.
Qed.

Lemma WdfSpinLockAcquire_run s SpinLock lock :
  heap s !! SpinLock = Some (BObject lock) →
  PlatformObjectType lock = DmfPlatformObjectTypeSpinLock →
  WdfSpinLockAcquire SpinLock s
  = Some (tt, add_trace (EvSpinLockAcquire (Data lock)) s).
Proof.
  intros Ho Ht. unfold WdfSpinLockAcquire. step.
  rewrite Ht. by rewrite bool_decide_eq_true_2.
Qed.

Lemma WdfSpinLockRelease_run s SpinLock lock :
  heap s !! SpinLock = Some (BObject lock) →
  PlatformObjectType lock = DmfPlatformObjectTypeSpinLock →
  WdfSpinLockRelease SpinLock s
  = Some (tt, add_trace (EvSpinLockRelease (Data lock)) s).
Proof.
  intros Ho Ht. unfold WdfSpinLockRelease. step.
  rewrite Ht. by rewrite bool_decide_eq_true_2.
Qed.

Lemma never_fails_alloc s : never_fails s → alloc_fails s = false.
Proof.
  unfold never_fails, alloc_fails. intros H.
  destruct (alloc_script s) as [|[] ?]; try done.
  by apply Forall_cons in H as [? _].
Qed.

Lemma never_fails_tail s s' :
  never_fails s → alloc_script s' = tail (alloc_script s) → never_fails s'.
Proof.
  unfold never_fails. intros H ->. destruct (alloc_script s); [done|].
  by apply Forall_cons in H as [_ ?].
Qed.

Lemma allocator_ok_step s s' :
  allocator_ok s → (brk s <= brk s')%N →
  (∀ p, is_Some (heap s' !! p) → is_Some (heap s !! p) ∨ (p < brk s')%N) →
  allocator_ok s'.
Proof.
  intros [H0 H] Hb Hh. split; [lia|]. intros p b Hp.
  destruct (Hh p) as [[b' Hb']|?]; [by eexists| |done].
  apply H in Hb'. simpl in Hb'. lia.
Qed.

(** Close a goal [is_Some (h' !! p) → is_Some (h !! p) ∨ p < b] where [h']
    is [h] after inserts at addresses below [b] and deletes. *)
Ltac solve_below :=
  heap_simpl;
  repeat (rewrite lookup_insert_is_Some || rewrite lookup_delete_is_Some);
  intuition (subst; first [by left | right; lia | by auto]).

Lemma WdfCollectionAdd_run s Collection items Object :
  allocator_ok s → never_fails s →
  collection_items (heap s) Collection = Some items →
  Z.of_nat (length items) + 1 < 2 ^ 32 →
  ∃ s', WdfCollectionAdd Collection Object s = Some (STATUS_SUCCESS, s')
        ∧ allocator_ok s' ∧ never_fails s'
        ∧ collection_items (heap s') Collection = Some (items ++ [Object]).
Proof.
  intros Hok Hnf Hitems Hlen.
  destruct (collection_items_inv _ _ _ Hitems)
    as (o & c & lock & Ho & Hto & Hc & Hl & Htl & Hnd & Hn & He).
  pose proof (entries_at_length _ _ _ He) as Hlen'.
  destruct (allocator_ok_lookup _ _ _ Hok Ho) as [Hbrk HC].
  destruct (allocator_ok_lookup _ _ _ Hok Hc) as [_ HD].
  destruct (allocator_ok_lookup _ _ _ Hok Hl) as [_ HL].
  pose proof (never_fails_alloc _ Hnf) as Hfail.
  unfold WdfCollectionAdd.
  erewrite bind_run; [|by apply collection_of_run].
  step. rewrite is_null_false by solve_neq.
  step. step.
  erewrite bind_run; [|apply WdfSpinLockAcquire_run with (lock := lock); [solve_lookup|done]].
  step. step. step.
  erewrite bind_run; [|apply WdfSpinLockRelease_run with (lock := lock); [solve_lookup|done]].
  eexists. split; [reflexivity|]. heap_simpl.
  rewrite !insert_insert_eq. split; [|split].
  - eapply allocator_ok_step; [done|heap_simpl; lia|].
    intros p. solve_below.
  - eapply never_fails_tail; [done|done].
  - field_simpl.
    eapply collection_items_intro with (lock := lock); field_simpl.
    + solve_lookup.
    + done.
    + solve_lookup.
    + solve_lookup.
    + done.
    + apply NoDup_app. split; [done|]. split; [|apply NoDup_singleton].
      intros p Hp ->%list_elem_of_singleton.
      destruct (entries_at_elem _ _ _ _ He Hp) as [e Hpe].
      apply (allocator_ok_lookup _ _ _ Hok) in Hpe. lia.
    + field_simpl. rewrite length_app. cbn [length].
      rewrite wrap_ULONG_small; lia.
    + field_simpl. apply entries_at_app.
      * rewrite !entries_at_insert; [done| |].
        -- intros Hp. destruct (entries_at_elem _ _ _ _ He Hp) as [e Hpe].
           apply (allocator_ok_lookup _ _ _ Hok) in Hpe. lia.
        -- intros Hp. destruct (entries_at_elem _ _ _ _ He Hp) as [e Hpe].
           congruence.
      * cbn [entries_at]. by rewrite lookup_insert_ne, lookup_insert_eq by lia.
Qed.

Lemma assert_nonempty_run s d c :
  heap s !! d = Some (BCollection c) → 0 < ItemCount c →
  assert_nonempty d s = Some (tt, s).
Proof.
  intros Hd Hc. unfold assert_nonempty. step.
  by rewrite bool_decide_eq_true_2.
Qed.

Lemma remove_entry_run s d c e :
  heap s !! d = Some (BCollection c) →
  remove_entry d e s
  = Some (tt, set_heap
                (insert d (BCollection
                             (set_ItemCount (wrap_ULONG (ItemCount c - 1))
                                (set_List (unlink e (List c)) c)))) s).
Proof.
  intros Hd. unfold remove_entry. step.
  erewrite update_collection_run by solve_lookup.
  unfold set_heap. cbn [heap brk alloc_script prim_script trace].
  by rewrite insert_insert_eq.
Qed.

Lemma remove_item_walk_run s d c Index cur suffix :
  heap s !! d = Some (BCollection c) →
  0 < ItemCount c ∨ suffix = [] →
  0 <= cur <= Index → Index < 2 ^ 32 →
  remove_item_walk d Index cur suffix s
  = match suffix !! Z.to_nat (Index - cur) with
    | Some e => remove_entry d e s
    | None => Some (tt, s)
    end.
Proof.
  intros Hd Hc. revert cur.
  induction suffix as [|e rest IH]; intros cur Hcur Hidx; [done|].
  destruct Hc as [Hc|?]; [|done]. cbn [remove_item_walk].
  erewrite bind_run; [|by eapply assert_nonempty_run].
  case_bool_decide as Hi.
  - subst. by rewrite Z.sub_diag.
  - rewrite wrap_ULONG_small by lia.
    rewrite (IH (or_introl Hc)) by (auto; lia).
    replace (Z.to_nat (Index - cur)) with (S (Z.to_nat (Index - (cur + 1))))
      by lia.
    done.
Qed.

Lemma get_item_walk_run s d c Index cur suffix xs :
  heap s !! d = Some (BCollection c) →
  0 < ItemCount c ∨ suffix = [] →
  entries_at (heap s) suffix = Some xs →
  0 <= cur <= Index → Index < 2 ^ 32 →
  get_item_walk d Index cur suffix s
  = Some (xs !! Z.to_nat (Index - cur), s).
Proof.
  intros Hd Hc. revert cur xs.
  induction suffix as [|p rest IH]; intros cur xs Hxs Hcur Hidx.
  { cbn in Hxs. by injection Hxs as <-. }
  destruct Hc as [Hc|?]; [|done]. cbn [entries_at] in Hxs.
  destruct (heap s !! p) as [[| | | |e| | |]|] eqn:Hp; try done.
  destruct (entries_at (heap s) rest) as [xs'|] eqn:Hrest; [|done].
  injection Hxs as <-. cbn [get_item_walk].
  erewrite bind_run; [|by eapply assert_nonempty_run].
  case_bool_decide as Hi.
  - subst. rewrite Z.sub_diag. by step.
  - rewrite wrap_ULONG_small by lia.
    rewrite (IH (or_introl Hc) (cur + 1) xs') by (auto; lia).
    replace (Z.to_nat (Index - cur)) with (S (Z.to_nat (Index - (cur + 1))))
      by lia.
    done.
Qed.

Lemma delete_out_of_range {A} (l : list A) i :
  (length l ≤ i)%nat → delete i l = l.
Proof.
  revert i. induction l as [|x l IH]; intros i Hi; [by destruct i|].
  destruct i as [|i]; cbn [length] in Hi; [lia|].
  change (delete (S i) (x :: l)) with (x :: delete i l).
  rewrite IH; [done|lia].
Qed.

Lemma WdfCollectionRemoveItem_run s Collection items Index :
  allocator_ok s → never_fails s →
  collection_items (heap s) Collection = Some items →
  Z.of_nat (length items) < 2 ^ 32 →
  0 <= Index < 2 ^ 32 →
  ∃ s', WdfCollectionRemoveItem Collection Index s = Some (tt, s')
        ∧ allocator_ok s' ∧ never_fails s'
        ∧ collection_items (heap s') Collection
          = Some (delete (Z.to_nat Index) items).
Proof.
  intros Hok Hnf Hitems Hlen Hidx.
  destruct (collection_items_inv _ _ _ Hitems)
    as (o & c & lock & Ho & Hto & Hc & Hl & Htl & Hnd & Hn & He).
  pose proof (entries_at_length _ _ _ He) as Hlen'.
  destruct (allocator_ok_lookup _ _ _ Hok Hc) as [_ HD].
  unfold WdfCollectionRemoveItem.
  erewrite bind_run; [|by apply collection_of_run].
  step.
  erewrite bind_run; [|by eapply WdfSpinLockAcquire_run].
  assert (Hwalk : remove_item_walk (Data o) Index 0 (List c)
                    (add_trace (EvSpinLockAcquire (Data lock)) s)
                  = match List c !! Z.to_nat Index with
                    | Some e => remove_entry (Data o) e
                                  (add_trace (EvSpinLockAcquire (Data lock)) s)
                    | None => Some (tt, add_trace
                                          (EvSpinLockAcquire (Data lock)) s)
                    end).
  { erewrite remove_item_walk_run; [by rewrite Z.sub_0_r|solve_lookup| |lia|lia].
    destruct (List c); [by right|left]. rewrite Hn. cbn [length]. lia. }
  destruct (List c !! Z.to_nat Index) as [e|] eqn:Hi.
  - erewrite bind_run;
      [|rewrite Hwalk; by eapply remove_entry_run; solve_lookup].
    step.
    erewrite WdfSpinLockRelease_run; [|solve_lookup|done].
    eexists. split; [reflexivity|]. heap_simpl. split; [|split].
    + eapply allocator_ok_step; [done|heap_simpl; lia|].
      intros p. solve_below.
    + done.
    + pose proof (unlink_delete _ _ _ Hnd Hi) as Hun.
      eapply collection_items_intro with (lock := lock); field_simpl.
      * solve_lookup.
      * done.
      * solve_lookup.
      * solve_lookup.
      * done.
      * field_simpl. by apply NoDup_filter.
      * field_simpl. rewrite Hun.
        rewrite length_delete by (by eexists).
        apply lookup_lt_Some in Hi.
        rewrite wrap_ULONG_small; lia.
      * field_simpl. rewrite Hun.
        rewrite entries_at_insert; [by apply entries_at_delete|].
        intros [e' He']%list_elem_of_delete_inv%(entries_at_elem _ _ _ _ He).
        congruence.
  - erewrite bind_run; [|exact Hwalk]. step.
    erewrite WdfSpinLockRelease_run; [|solve_lookup|done].
    eexists. split; [reflexivity|]. heap_simpl. split; [|split]; [done|done|].
    rewrite Hitems. f_equal. symmetry. apply delete_out_of_range.
    apply lookup_ge_None in Hi. lia.
Qed.

Lemma value_after_run {A} (m : M A) s a s' :
  m s = Some (a, s') → value_after m s = Some a.
Proof. intros H. unfold value_after. by rewrite H. Qed.

Lemma WdfCollectionGetCount_run s Collection items :
  collection_items (heap s) Collection = Some items →
  Z.of_nat (length items) < 2 ^ 32 →
  value_after (WdfCollectionGetCount Collection) s
  = Some (Z.of_nat (length items)).
Proof.
  intros Hitems Hlen.
  destruct (collection_items_inv _ _ _ Hitems)
    as (o & c & lock & Ho & Hto & Hc & Hl & Htl & Hnd & Hn & He).
  pose proof (entries_at_length _ _ _ He) as Hlen'.
  eapply value_after_run. unfold WdfCollectionGetCount.
  erewrite bind_run; [|by apply collection_of_run].
  step. cbn [ret]. rewrite wrap_ULONG_small by lia.
  by rewrite Hn, Hlen'.
Qed.

Lemma WdfCollectionGetItem_run s Collection items Index :
  collection_items (heap s) Collection = Some items →
  Z.of_nat (length items) < 2 ^ 32 →
  0 <= Index < 2 ^ 32 →
  value_after (WdfCollectionGetItem Collection Index) s
  = Some (default NULL (items !! Z.to_nat Index)).
Proof.
  intros Hitems Hlen Hidx.
  destruct (collection_items_inv _ _ _ Hitems)
    as (o & c & lock & Ho & Hto & Hc & Hl & Htl & Hnd & Hn & He).
  pose proof (entries_at_length _ _ _ He) as Hlen'.
  eapply value_after_run. unfold WdfCollectionGetItem.
  erewrite bind_run; [|by apply collection_of_run].
  step.
  erewrite bind_run; [|by eapply WdfSpinLockAcquire_run].
  erewrite bind_run; cycle 1.
  { eapply get_item_walk_run with (xs := items);
      [solve_lookup| |done|lia|lia].
    destruct (List c); [by right|left]. rewrite Hn. cbn [length]. lia. }
  step.
  erewrite bind_run; [|eapply WdfSpinLockRelease_run; [solve_lookup|done]].
  by rewrite Z.sub_0_r.
Qed.

Lemma get_end_item_run pick s Collection items :
  (∀ (l : list N) p, pick l = Some p → ∃ i, l !! i = Some p
                     ∧ ∀ xs : list N, length xs = length l → pick xs = xs !! i) →
  (∀ xs : list N, pick xs = None → xs = []) →
  pick [] = None →
  collection_items (heap s) Collection = Some items →
  Z.of_nat (length items) < 2 ^ 32 →
  value_after (get_end_item pick Collection) s
  = Some (default NULL (pick items)).
Proof.
  intros Hpick Hnone Hnil Hitems Hlen.
  destruct (collection_items_inv _ _ _ Hitems)
    as (o & c & lock & Ho & Hto & Hc & Hl & Htl & Hnd & Hn & He).
  pose proof (entries_at_length _ _ _ He) as Hlen'.
  eapply value_after_run. unfold get_end_item.
  erewrite bind_run; [|by apply collection_of_run].
  step.
  erewrite bind_run; [|by eapply WdfSpinLockAcquire_run].
  step.
  destruct (pick (List c)) as [p|] eqn:Hp.
  - destruct (Hpick _ _ Hp) as (i & Hi & Hxs).
    destruct (entries_at_lookup _ _ _ _ _ He Hi) as (e & Hpe & Hie).
    erewrite bind_run; cycle 1.
    { erewrite bind_run; cycle 1.
      { eapply assert_nonempty_run; [solve_lookup|].
        apply lookup_lt_Some in Hi. lia. }
      step. reflexivity. }
    erewrite bind_run; [|eapply WdfSpinLockRelease_run; [solve_lookup|done]].
    cbn [ret]. by rewrite (Hxs items Hlen'), Hie.
  - step.
    erewrite bind_run; [|eapply WdfSpinLockRelease_run; [solve_lookup|done]].
    apply Hnone in Hp. destruct items; [|by rewrite Hp in Hlen'].
    by rewrite Hnil.
Qed.

Lemma WdfCollectionGetFirstItem_run s Collection items :
  collection_items (heap s) Collection = Some items →
  Z.of_nat (length items) < 2 ^ 32 →
  value_after (WdfCollectionGetFirstItem Collection) s
  = Some (default NULL (head items)).
Proof.
  apply get_end_item_run; [| |done].
  - intros l p Hp. exists 0%nat. split; [by destruct l|].
    intros xs _. by destruct xs.
  - intros xs Hxs. by destruct xs.
Qed.

Lemma WdfCollectionGetLastItem_run s Collection items :
  collection_items (heap s) Collection = Some items →
  Z.of_nat (length items) < 2 ^ 32 →
  value_after (WdfCollectionGetLastItem Collection) s
  = Some (default NULL (last items)).
Proof.
  apply get_end_item_run; [| |done].
  - intros l p Hp. exists (pred (length l)). rewrite <- last_lookup.
    split; [done|]. intros xs <-. apply last_lookup.
  - intros xs Hxs. by apply last_None.
Qed.

Lemma spec_op_length items op :
  (length (spec_op items op) ≤ length items + 1)%nat.
Proof.
  destruct op as [x|i]; cbn [spec_op].
  - rewrite length_app. cbn [length]. lia.
  - pose proof (sublist_length _ _ (sublist_delete items (Z.to_nat i))). lia.
Qed.

Lemma run_ops_run s Collection items ops :
  allocator_ok s → never_fails s →
  collection_items (heap s) Collection = Some items →
  Forall op_in_range ops →
  Z.of_nat (length items + length ops) < 2 ^ 32 →
  ∃ s', run_ops Collection ops s = Some (tt, s')
        ∧ collection_items (heap s') Collection = Some (spec_ops items ops).
Proof.
  intros Hok Hnf Hitems Hops. revert s items Hok Hnf Hitems.
  induction Hops as [|op ops Hop _ IH]; intros s items Hok Hnf Hitems Hlen.
  { by exists s. }
  cbn [length] in Hlen. cbn [run_ops spec_ops foldl].
  assert (∃ s1, run_op Collection op s = Some (tt, s1)
                ∧ allocator_ok s1 ∧ never_fails s1
                ∧ collection_items (heap s1) Collection
                  = Some (spec_op items op)) as (s1 & Hrun & Hok1 & Hnf1 & H1).
  { destruct op as [x|i]; cbn [run_op spec_op].
    - destruct (WdfCollectionAdd_run s Collection items x)
        as (s1 & Hrun & ?); [done|done|done|lia|].
      exists s1. by rewrite (bind_run _ _ _ _ _ Hrun).
    - apply WdfCollectionRemoveItem_run; [done|done|done|lia|done]. }
  rewrite (bind_run _ _ _ _ _ Hrun).
  apply IH; [done|done|done|].
  pose proof (spec_op_length items op). lia.
Qed.

Lemma spec_ops_length items ops :
  (length (spec_ops items ops) ≤ length items + length ops)%nat.
Proof.
  revert items. induction ops as [|op ops IH]; intros items.
  - cbn. lia.
  - cbn [spec_ops foldl length]. specialize (IH (spec_op items op)).
    unfold spec_ops in IH. pose proof (spec_op_length items op). lia.
Qed.

(** C9.  A well-formed collection holding [items] runs any sequence of
    [WdfCollectionAdd] and [WdfCollectionRemoveItem] calls (allocations
    succeed, the indices are [ULONG]s and the number of items stays below
    2^32, the range of [ItemCount]); afterwards the collection holds the
    sequence the specification describes, appended to at the end and with
    the indexed elements removed, and the count, the indexed, the first and
    the last accessor return its length, its element at the index, its first
    and its last element ([NULL] where there is none). *)
Theorem collection_keeps_insertion_order s Collection items ops :
  allocator_ok s → never_fails s →
  collection_items (heap s) Collection = Some items →
  Forall op_in_range ops →
  Z.of_nat (length items + length ops) < 2 ^ 32 →
  ∃ s', run_ops Collection ops s = Some (tt, s')
    ∧ collection_items (heap s') Collection = Some (spec_ops items ops)
    ∧ value_after (WdfCollectionGetCount Collection) s'
      = Some (Z.of_nat (length (spec_ops items ops)))
    ∧ (∀ Index, 0 <= Index < 2 ^ 32 →
         value_after (WdfCollectionGetItem Collection Index) s'
         = Some (default NULL (spec_ops items ops !! Z.to_nat Index)))
    ∧ value_after (WdfCollectionGetFirstItem Collection) s'
      = Some (default NULL (head (spec_ops items ops)))
    ∧ value_after (WdfCollectionGetLastItem Collection) s'
      = Some (default NULL (last (spec_ops items ops))).
Proof.
  intros Hok Hnf Hitems Hops Hlen.
  destruct (run_ops_run _ _ _ _ Hok Hnf Hitems Hops Hlen) as (s' & Hrun & H').
  pose proof (spec_ops_length items ops) as Hl.
  exists s'. split; [done|]. split; [done|].
  split; [apply WdfCollectionGetCount_run; [done|lia]|].
  split; [intros Index HI; apply WdfCollectionGetItem_run; [done|lia|done]|].
  split; [apply WdfCollectionGetFirstItem_run; [done|lia]|].
  apply WdfCollectionGetLastItem_run; [done|lia].
Qed.

(** The example of the specification: after Add(a), Add(b), Add(c) the
    count is 3 and GetAt(1) is b; after RemoveAt(0) the count is 2, the
    first item is b and the last is c. *)
Lemma collection_keeps_insertion_order_witness :
  (∃ s', run_ops 1%N [OpAdd 101%N; OpAdd 102%N; OpAdd 103%N] new_collection
         = Some (tt, s')
     ∧ value_after (WdfCollectionGetCount 1%N) s' = Some 3
     ∧ value_after (WdfCollectionGetItem 1%N 1) s' = Some 102%N)
  ∧ (∃ s', run_ops 1%N [OpAdd 101%N; OpAdd 102%N; OpAdd 103%N; OpRemoveAt 0]
             new_collection
           = Some (tt, s')
       ∧ value_after (WdfCollectionGetCount 1%N) s' = Some 2
       ∧ value_after (WdfCollectionGetFirstItem 1%N) s' = Some 102%N
       ∧ value_after (WdfCollectionGetLastItem 1%N) s' = Some 103%N).
Proof.
  assert (Hok : allocator_ok new_collection)
    by (refine (bool_decide_unpack _ _); vm_compute; exact I).
  assert (Hnf : never_fails new_collection)
    by (refine (bool_decide_unpack _ _); vm_compute; exact I).
  assert (Hitems : collection_items (heap new_collection) 1%N = Some [])
    by (vm_compute; reflexivity).
  split.
  - destruct (collection_keeps_insertion_order new_collection 1%N []
                [OpAdd 101%N; OpAdd 102%N; OpAdd 103%N] Hok Hnf Hitems)
      as (s' & Hrun & _ & Hcount & Hitem & _).
    + refine (bool_decide_unpack _ _); vm_compute; exact I.
    + vm_compute; reflexivity.
    + exists s'. split; [exact Hrun|]. split; [exact Hcount|].
      apply (Hitem 1). lia.
  - destruct (collection_keeps_insertion_order new_collection 1%N []
                [OpAdd 101%N; OpAdd 102%N; OpAdd 103%N; OpRemoveAt 0]
                Hok Hnf Hitems)
      as (s' & Hrun & _ & Hcount & _ & Hfirst & Hlast).
    + refine (bool_decide_unpack _ _); vm_compute; exact I.
    + vm_compute; reflexivity.
    + exists s'. split; [exact Hrun|]. split; [exact Hcount|].
      split; [exact Hfirst|exact Hlast].
Defined.

(** * Status of the creation functions *)

Lemma attributes_ok_inv h Attributes :
  attributes_ok h Attributes = true →
  (parent_of Attributes = NULL
   ∨ parent_of Attributes ≠ NULL
     ∧ ∃ P, h !! parent_of Attributes = Some (BObject P))
  ∧ match Attributes with
    | None => True
    | Some attributes =>
        ContextTypeInfo attributes = NULL
        ∨ ∃ ti, h !! ContextTypeInfo attributes = Some (BTypeInfo ti)
    end.
Proof.
  destruct Attributes as [a|]; cbn [attributes_ok parent_of]; [|by auto].
  intros [H1 H2]%andb_true_iff. split.
  - destruct (is_null (ParentObject a)) eqn:E; [left; by apply is_null_true|].
    right. split; [intros Hn; by rewrite Hn in E|]. cbn [orb] in H1.
    destruct (h !! ParentObject a) as [[]|]; try done. by eexists.
  - apply orb_true_iff in H2 as [H2|H2]; [left; by apply is_null_true|right].
    destruct (h !! ContextTypeInfo a) as [[]|]; try done. by eexists.
Qed.

Lemma failed_app a b : failed (a ++ b) ↔ failed a ∨ failed b.
Proof. unfold failed. rewrite !elem_of_app. tauto. Qed.

Lemma failed_nil : ¬ failed [].
Proof. unfold failed. rewrite !elem_of_nil. tauto. Qed.

Lemma failed_cons e l : failed (e :: l) ↔ failed [e] ∨ failed l.
Proof. apply (failed_app [e] l). Qed.

Lemma failed_alloc p : failed [EvAllocate p] ↔ p = NULL.
Proof.
  unfold failed. rewrite !list_elem_of_singleton. split.
  - by intros [[= ->]|[=]].
  - intros ->. by left.
Qed.

Lemma failed_prim b : failed [EvPrimitiveCreate b] ↔ b = false.
Proof.
  unfold failed. rewrite !list_elem_of_singleton. split.
  - by intros [[=]|[= ->]].
  - intros ->. by right.
Qed.

Lemma failed_other e :
  (∀ p, e ≠ EvAllocate p) → (∀ b, e ≠ EvPrimitiveCreate b) → ¬ failed [e].
Proof.
  unfold failed. rewrite !list_elem_of_singleton. intros H1 H2 [H|H].
  - by apply (H1 NULL). 
  - by apply (H2 false).
Qed.

(** Decide whether an explicit list of events holds a failure. *)
Lemma not_failed_cons e l : ¬ failed [e] → ¬ failed l → ¬ failed (e :: l).
Proof. rewrite (failed_cons e l). tauto. Qed.

Lemma not_failed_app a b : ¬ failed a → ¬ failed b → ¬ failed (a ++ b).
Proof. rewrite failed_app. tauto. Qed.

(** Find an event in an explicit list. *)
Ltac find_elem :=
  first [ apply list_elem_of_here
        | apply list_elem_of_further; find_elem
        | apply elem_of_app; right; find_elem
        | apply elem_of_app; left; find_elem ].

Ltac solve_failed := first [left; find_elem | right; find_elem].

Ltac solve_not_failed :=
  repeat first
    [ apply failed_nil
    | eassumption
    | apply not_failed_app
    | apply not_failed_cons;
      [first [ rewrite failed_alloc; solve_neq
             | rewrite failed_prim; done
             | apply failed_other; done ]|] ].

Lemma DmfPlatformObjectCreate_fail s Parent cb :
  alloc_fails s = true →
  DmfPlatformObjectCreate Parent cb s = Some (NULL, alloc_failed s).
Proof. intros H. unfold DmfPlatformObjectCreate. step. by rewrite is_null_NULL. Qed.

Lemma DmfPlatformObjectCreate_ok s Parent cb :
  (0 < brk s)%N → alloc_fails s = false →
  (Parent = NULL
   ∨ Parent ≠ NULL ∧ (Parent < brk s)%N
     ∧ ∃ P, heap s !! Parent = Some (BObject P)) →
  ∃ s1 o1 new1,
    DmfPlatformObjectCreate Parent cb s = Some (brk s, s1)
    ∧ brk s1 = N.succ (brk s)
    ∧ heap s1 !! brk s = Some (BObject o1)
    ∧ ReferenceCount o1 = 1
    ∧ trace s1 = trace s ++ new1 ∧ ¬ failed new1
    ∧ (∀ q, q ≠ brk s → Parent = NULL ∨ q ≠ Parent →
         heap s1 !! q = heap s !! q).
Proof.
  intros Hbrk Hfail HP. unfold DmfPlatformObjectCreate.
  step. rewrite is_null_false by solve_neq.
  do 6 step. change (is_null (ChildListEntry zero_object)) with true.
  cbn [DmfAssert]. step. step.
  destruct HP as [->|(HPnn & HPlt & P & HP)].
  - rewrite is_null_NULL. cbn [negb when]. step. cbn [ret].
    eexists _, _, _. split; [reflexivity|]. heap_simpl.
    split; [done|]. split; [solve_lookup|]. split; [done|].
    split; [by rewrite <- !app_assoc|]. split; [solve_not_failed|].
    intros q Hq _. by rewrite !lookup_insert_ne.
  - rewrite is_null_false by done. cbn [negb when].
    erewrite bind_run; cycle 1.
    { do 4 step. reflexivity. }
    cbn [ret].
    eexists _, _, _. split; [reflexivity|]. heap_simpl.
    split; [done|]. split; [solve_lookup|]. split; [done|].
    split; [by rewrite <- !app_assoc|]. split; [solve_not_failed|].
    intros q Hq [?|HqP]; [done|]. by rewrite !lookup_insert_ne.
Qed.

Lemma creation_ready s Attributes :
  allocator_ok s → attributes_ok (heap s) Attributes = true →
  (0 < brk s)%N
  ∧ (parent_of Attributes = NULL
     ∨ parent_of Attributes ≠ NULL ∧ (parent_of Attributes < brk s)%N
       ∧ ∃ P, heap s !! parent_of Attributes = Some (BObject P))
  ∧ match Attributes with
    | None => True
    | Some attributes =>
        ContextTypeInfo attributes = NULL
        ∨ (ContextTypeInfo attributes < brk s)%N
          ∧ ContextTypeInfo attributes ≠ parent_of Attributes
          ∧ ∃ ti, heap s !! ContextTypeInfo attributes = Some (BTypeInfo ti)
    end.
Proof.
  intros Hok Hattr. destruct (attributes_ok_inv _ _ Hattr) as [HP Hti].
  split; [apply Hok|]. split.
  - destruct HP as [?|(? & P & HP)]; [by left|right].
    split; [done|]. split; [|by eexists].
    by apply (allocator_ok_lookup _ _ _ Hok HP).
  - destruct Attributes as [a|]; [|done].
    destruct (is_null (ContextTypeInfo a)) eqn:E.
    { left. by apply is_null_true. }
    destruct Hti as [Hti|(ti & Hti)]; [by left|right].
    split; [by apply (allocator_ok_lookup _ _ _ Hok Hti)|].
    split; [|by eexists]. cbn [parent_of].
    destruct HP as [HP|(_ & P & HP)]; cbn [parent_of] in HP.
    + rewrite HP. intros Hn. by rewrite Hn in E.
    + congruence.
Qed.

Lemma copy_attributes_run s p o Attributes :
  heap s !! p = Some (BObject o) →
  copy_attributes p Attributes s
  = Some (tt, set_heap (insert p (BObject (with_attributes Attributes o))) s).
Proof.
  intros Ho. destruct Attributes as [a|]; cbn [copy_attributes with_attributes].
  - by apply update_object_run.
  - destruct s as [h b a p' t]. unfold ret, set_heap.
    cbn [heap brk alloc_script prim_script trace] in *.
    by rewrite insert_id.
Qed.

(** Case analysis on the next allocation or back-end creation. *)
Ltac next_alloc :=
  let E := fresh "E" in
  assoc;
  lazymatch goal with
  | |- context [bind (DMF_Platform_Allocate ?z) ?k ?s1] =>
      destruct (alloc_fails s1) eqn:E
  end.

Ltac next_prim :=
  let E := fresh "E" in
  assoc;
  lazymatch goal with
  | |- context [negb (negb (prim_fails ?s2))] =>
      destruct (prim_fails s2) eqn:E; cbn [negb]
  end.

Ltac run_copy_attributes :=
  assoc;
  lazymatch goal with
  | |- context [bind (copy_attributes ?p ?a) ?k ?s2] =>
      let Hc := fresh "Hc" in
      pose proof (copy_attributes_run s2 p _ a ltac:(solve_lookup)) as Hc;
      rewrite (bind_run _ _ _ _ _ Hc); clear Hc
  end.

(** Allocation failures that are not reported as
    [STATUS_INSUFFICIENT_RESOURCES]: [WdfMemoryCreate] whose first allocation
    fails, and [WdfCollectionCreate] when the back end cannot create the spin
    lock of the collection, both return [STATUS_UNSUCCESSFUL]. *)
Lemma allocation_failure_is_unsuccessful :
  (∃ s', WdfMemoryCreate None 8%N false (boot_with [false])
         = Some ((STATUS_UNSUCCESSFUL, None, None), s'))
  ∧ (∃ s', WdfCollectionCreate None boot_backend_fails
           = Some ((STATUS_UNSUCCESSFUL, None), s'))
  ∧ STATUS_UNSUCCESSFUL ≠ STATUS_INSUFFICIENT_RESOURCES.
Proof.
  split; [eexists; vm_compute; reflexivity|].
  split; [eexists; vm_compute; reflexivity|done].
Qed.

(** * Destruction of an ownership tree *)

Lemma elem_of_flat_map {A B} (f : A → list B) (l : list A) (x : B) :
  x ∈ flat_map f l ↔ ∃ y, y ∈ l ∧ x ∈ f y.
Proof.
  induction l as [|a l IH]; cbn [flat_map].
  - split; [by intros ?%elem_of_nil|]. by intros (y & ?%elem_of_nil & _).
  - rewrite elem_of_app, IH. split.
    + intros [Hx|(y & Hy & Hx)].
      * exists a. split; [by left|done].
      * exists y. split; [by right|done].
    + intros (y & [->|Hy]%elem_of_cons & Hx); [by left|].
      right. by exists y.
Qed.

Lemma tree_induction (P : tree → Prop) :
  (∀ a o payload ks, Forall P ks → P (Node a o payload ks)) → ∀ t, P t.
Proof.
  intros H. fix IH 1. intros [a o payload ks]. apply H.
  induction ks as [|k ks IHks]; constructor; [apply IH|apply IHks].
Qed.

Lemma same_static_refl o : same_static o o.
Proof. by repeat split. Qed.

Lemma same_static_trans o1 o2 o3 :
  same_static o1 o2 → same_static o2 o3 → same_static o1 o3.
Proof.
  intros (?&?&?&?&?) (?&?&?&?&?). repeat split; congruence.
Qed.

Lemma tree_in_inv h a o payload ks :
  tree_in h (Node a o payload ks) = true →
  h !! a = Some (BObject o)
  ∧ ReferenceCount o = 1
  ∧ ChildList o = map root ks
  ∧ Z.of_nat (length ks) <= NumberOfChildren o < 2 ^ 31
  ∧ h !! Data o = Some payload
  ∧ payload_ok h o payload = true
  ∧ Forall (λ k, ChildListEntry (obj k) = a ∧ tree_in h k = true) ks.
Proof.
  cbn [tree_in]. rewrite !andb_true_iff, !bool_decide_eq_true.
  intros [[[[[[? ?] ?] ?] ?] ?] Hks].
  do 6 (split; [done|]).
  apply Forall_forall. intros k Hk.
  rewrite forallb_forall in Hks.
  specialize (Hks k). rewrite andb_true_iff, bool_decide_eq_true in Hks.
  apply Hks. by apply list_elem_of_In.
Qed.

Lemma tree_in_intro h a o payload ks :
  h !! a = Some (BObject o) →
  ReferenceCount o = 1 →
  ChildList o = map root ks →
  Z.of_nat (length ks) <= NumberOfChildren o < 2 ^ 31 →
  h !! Data o = Some payload →
  payload_ok h o payload = true →
  Forall (λ k, ChildListEntry (obj k) = a ∧ tree_in h k = true) ks →
  tree_in h (Node a o payload ks) = true.
Proof.
  intros ?????? Hks. cbn [tree_in].
  rewrite !andb_true_iff, !bool_decide_eq_true.
  split; [split; [split; [split; [split; [split|]|]|]|]; done|].
  apply forallb_forall. intros k Hk%list_elem_of_In.
  rewrite Forall_forall in Hks. destruct (Hks k Hk) as [? ?].
  rewrite andb_true_iff, bool_decide_eq_true. done.
Qed.

Lemma payload_ok_frame h h' o payload :
  payload_ok h o payload = true →
  (∀ x, x ∈ owned_buffer o payload → h' !! x = h !! x) →
  payload_ok h' o payload = true.
Proof.
  unfold payload_ok, owned_buffer.
  destruct (ObjectDelete o) as [fn|]; [|done].
  intros [Ht Hp]%andb_true_iff Hfr. apply andb_true_iff. split; [done|].
  destruct fn; try done. destruct payload as [| |m| | | | |]; try done.
  destruct (NeedToDeallocate m); [|done]. cbn [negb orb] in *.
  rewrite Hfr; [done|]. by left.
Qed.

Lemma tree_in_frame h h' t :
  tree_in h t = true →
  (∀ x, x ∈ footprint t → h' !! x = h !! x) →
  tree_in h' t = true.
Proof.
  induction t as [a o payload ks IH] using tree_induction.
  intros Hin Hfr. cbn [footprint own_footprint] in Hfr.
  destruct (tree_in_inv _ _ _ _ _ Hin) as (Ha & Hrc & Hcl & Hn & Hd & Hp & Hks).
  apply tree_in_intro; try done.
  - rewrite Hfr; [done|]. by left.
  - rewrite Hfr; [done|]. right. by left.
  - eapply payload_ok_frame; [done|]. intros x Hx. apply Hfr.
    right. right. apply elem_of_app. by left.
  - rewrite Forall_forall in IH, Hks. apply Forall_forall. intros k Hk.
    destruct (Hks k Hk) as [? ?]. split; [done|].
    apply IH; [done|done|]. intros x Hx. apply Hfr.
    right. right. apply elem_of_app. right.
    apply elem_of_flat_map. by exists k.
Qed.

Lemma WdfObjectDelete_unfold fuel Object :
  WdfObjectDelete (S fuel) Object
  = (o <~ load_object Object ;;
     let newReferenceCount := InterlockedDecrement (ReferenceCount o) in
     store Object (BObject (set_ReferenceCount newReferenceCount o)) ;;;
     when (negb (is_null (EvtCleanupCallback (ObjectAttributes o))))
          (emit (EvCleanup (EvtCleanupCallback (ObjectAttributes o)) Object)) ;;;
     if bool_decide (newReferenceCount = 0) then
       emit (EvCriticalSectionEnter Object) ;;;
       o <~ load_object Object ;;
       delete_children (WdfObjectDelete fuel) Object (ChildList o) ;;;
       destroy_object Object
     else ret tt).
Proof. reflexivity. Qed.

Lemma add_events_nil s : add_events [] s = s.
Proof.
  destruct s as [h b al pr tr]. unfold add_events.
  cbn [heap brk alloc_script prim_script trace]. by rewrite app_nil_r.
Qed.

Lemma add_trace_events e s : add_trace e s = add_events [e] s.
Proof. done. Qed.

Lemma add_events_app l1 l2 s :
  add_events l2 (add_events l1 s) = add_events (l1 ++ l2) s.
Proof.
  unfold add_events. cbn [heap brk alloc_script prim_script trace].
  by rewrite app_assoc.
Qed.

Lemma set_heap_events f l s :
  set_heap f (add_events l s) = add_events l (set_heap f s).
Proof. done. Qed.

Lemma set_heap_set_heap f g s :
  set_heap f (set_heap g s) = set_heap (λ h, f (g h)) s.
Proof. done. Qed.

Lemma set_heap_same s : set_heap (λ h, h) s = s.
Proof. by destruct s. Qed.

Lemma when_emit_run c e s :
  when (negb (is_null c)) (emit e) s
  = Some (tt, add_events (if is_null c then [] else [e]) s).
Proof.
  destruct (is_null c); cbn [negb when]; [|done].
  by rewrite add_events_nil.
Qed.

Lemma owner_of_null o :
  is_null (owner_of o) = true →
  is_null (ParentObject (ObjectAttributes o)) = true
  ∨ is_null (ChildListEntry o) = true.
Proof.
  unfold owner_of.
  destruct (is_null (ParentObject (ObjectAttributes o))); [by left|by right].
Qed.

Lemma unlinked_null a o h : is_null (owner_of o) = true → unlinked a o h = h.
Proof.
  intros H. unfold unlinked. rewrite H.
  by destruct (h !! owner_of o) as [[]|].
Qed.

(** The unlink step of the destruction. *)
Lemma unlink_step_run s a o :
  heap s !! a = Some (BObject o) →
  (is_null (owner_of o) = true
   ∨ ∃ P, heap s !! owner_of o = Some (BObject P)) →
  when (negb (is_null (ParentObject (ObjectAttributes o))))
       (RemoveEntryList_ChildListEntry a) s
  = Some (tt, set_heap (unlinked a o) s).
Proof.
  intros Ha Hown.
  destruct (is_null (owner_of o)) eqn:Hnull.
  - assert (Hs : set_heap (unlinked a o) s = s).
    { destruct s as [h b al pr tr]. unfold set_heap.
      cbn [heap brk alloc_script prim_script trace].
      by rewrite unlinked_null. }
    rewrite Hs.
    destruct (owner_of_null _ Hnull) as [Hp|Hc].
    + by rewrite Hp.
    + destruct (is_null (ParentObject (ObjectAttributes o))); [done|].
      cbn [negb when]. unfold RemoveEntryList_ChildListEntry. step.
      by rewrite Hc.
  - destruct Hown as [?|[P HP]]; [done|].
    unfold unlinked. rewrite Hnull. unfold owner_of in *.
    destruct (is_null (ParentObject (ObjectAttributes o))) eqn:Ep; [done|].
    cbn [negb when]. unfold RemoveEntryList_ChildListEntry. step.
    rewrite Hnull. erewrite update_object_run by done.
    do 2 f_equal. destruct s as [h b al pr tr].
    unfold set_heap. cbn [heap] in *. by rewrite HP.
Qed.

(** The payload destructor step of the destruction. *)
Lemma destructor_step_run s a o payload :
  heap s !! a = Some (BObject o) →
  heap s !! Data o = Some payload →
  payload_ok (heap s) o payload = true →
  NULL ∉ owned_buffer o payload →
  match ObjectDelete o with
  | Some fn => call_ObjectDelete fn a
  | None => ret tt
  end s
  = Some (tt, add_events (destructor_trace a o payload)
                (set_heap (λ h, foldr delete h (owned_buffer o payload)) s)).
Proof.
  intros Ha Hd Hp Hnull.
  unfold payload_ok, destructor_trace, owned_buffer in *.
  destruct (ObjectDelete o) as [fn|] eqn:Hfn.
  2: { by rewrite add_events_nil, set_heap_same. }
  apply andb_true_iff in Hp as [Ht%bool_decide_eq_true Hp].
  unfold call_ObjectDelete. step.
  assert (Hprim : ∀ t, PlatformObjectType o = t →
            DmfPlatformPrimitiveDelete t a
              (add_trace (EvObjectDelete fn a) s)
            = Some (tt, add_events [EvObjectDelete fn a;
                                    EvPrimitiveDelete t (Data o)]
                          (set_heap (λ h, h) s))).
  { intros t Ht'. unfold DmfPlatformPrimitiveDelete. step.
    rewrite bool_decide_eq_true_2 by done. cbn [DmfAssert]. step.
    rewrite set_heap_same.
    unfold emit, add_trace, add_events.
    cbn [heap brk alloc_script prim_script trace].
    by rewrite <- app_assoc. }
  destruct fn; cbn [destructor_type] in *; try by apply Hprim.
  destruct payload as [| |m| | | | |]; try done.
  unfold DmfPlatformWdfMemoryDelete. step.
  rewrite bool_decide_eq_true_2 by done. cbn [DmfAssert]. step. step.
  destruct (NeedToDeallocate m) eqn:Hn; cbn [when negb orb fmap list_fmap foldr] in *.
  - apply bool_decide_eq_true in Hp as [b Hb].
    erewrite free_run; [|intros E; apply Hnull; rewrite E; by left|solve_lookup].
    unfold add_trace, add_events, set_heap.
    cbn [heap brk alloc_script prim_script trace].
    by rewrite <- app_assoc.
  - cbn [ret]. by rewrite set_heap_same.
Qed.

Lemma lookup_foldr_delete_notin (h : gmap N block) l x :
  x ∉ l → foldr delete h l !! x = h !! x.
Proof.
  induction l as [|y l IH]; [done|].
  intros [Hy Hl]%not_elem_of_cons. cbn [foldr].
  rewrite lookup_delete_ne by done. by apply IH.
Qed.

Lemma lookup_foldr_delete_in (h : gmap N block) l x :
  x ∈ l → foldr delete h l !! x = None.
Proof.
  induction l as [|y l IH]; [by intros ?%elem_of_nil|].
  cbn [foldr]. destruct (decide (y = x)) as [->|Hne].
  - intros _. apply lookup_delete_eq.
  - intros [->|Hx]%elem_of_cons; [done|].
    rewrite lookup_delete_ne by done. by apply IH.
Qed.

Lemma unlinked_lookup_ne a o h x :
  x ≠ owner_of o ∨ is_null (owner_of o) = true →
  unlinked a o h !! x = h !! x.
Proof.
  intros Hx. unfold unlinked.
  destruct (h !! owner_of o) as [[P| | | | | | |]|]; try done.
  destruct (is_null (owner_of o)) eqn:E; [done|].
  destruct Hx as [Hx|?]; [|done]. by rewrite lookup_insert_ne.
Qed.

Lemma unlinked_lookup_owner a o h P :
  is_null (owner_of o) = false →
  h !! owner_of o = Some (BObject P) →
  unlinked a o h !! owner_of o
  = Some (BObject (set_ChildList (unlink a (ChildList P)) P)).
Proof.
  intros E HP. unfold unlinked. rewrite HP, E. apply lookup_insert_eq.
Qed.

(** The destruction of the object itself, after its children. *)
Lemma destroy_object_run s a o payload :
  heap s !! a = Some (BObject o) →
  heap s !! Data o = Some payload →
  payload_ok (heap s) o payload = true →
  NoDup (own_footprint a o payload) →
  NULL ∉ own_footprint a o payload →
  (is_null (owner_of o) = true
   ∨ ((owner_of o ∉ own_footprint a o payload)
      ∧ (∃ P, heap s !! owner_of o = Some (BObject P)))) →
  destroy_object a s = Some (tt, torn_down a o payload s).
Proof.
  intros Ha Hd Hp Hnd Hnull Hown. unfold own_footprint in *.
  apply NoDup_cons in Hnd as [Ha1 Hnd]. apply NoDup_cons in Hnd as [Hd1 Hnd].
  apply not_elem_of_cons in Ha1 as [HaD Ha1].
  apply not_elem_of_cons in Hnull as [HaN Hnull].
  apply not_elem_of_cons in Hnull as [HdN Hnull].
  assert (Hfr : ∀ x, x ∈ a :: Data o :: owned_buffer o payload →
                unlinked a o (heap s) !! x = heap s !! x).
  { intros x Hx. apply unlinked_lookup_ne.
    destruct Hown as [?|[Ho _]]; [by right|left]. by intros ->. }
  unfold destroy_object. step. step.
  erewrite bind_run; [|apply when_emit_run].
  erewrite bind_run; cycle 1.
  { apply unlink_step_run; [solve_lookup|].
    destruct Hown as [?|[_ HP]]; [by left|by right]. }
  erewrite bind_run; cycle 1.
  { apply destructor_step_run with (payload := payload); heap_simpl.
    - rewrite Hfr; [done|by left].
    - rewrite Hfr; [done|right; by left].
    - eapply payload_ok_frame; [done|].
      intros x Hx. apply Hfr. by do 2 right.
    - done. }
  erewrite bind_run; cycle 1.
  { apply load_object_run. heap_simpl.
    rewrite lookup_foldr_delete_notin by done. rewrite Hfr; [done|by left]. }
  erewrite bind_run; cycle 1.
  { eapply free_run; [done|]. heap_simpl.
    rewrite lookup_foldr_delete_notin by done.
    rewrite Hfr; [done|right; by left]. }
  step.
  erewrite free_run; cycle 1.
  { done. }
  { heap_simpl. rewrite lookup_delete_ne by done.
    rewrite lookup_foldr_delete_notin by done. rewrite Hfr; [done|by left]. }
  do 2 f_equal. unfold torn_down, teardown_trace, destroy_trace.
  unfold add_trace, add_events, set_heap.
  cbn [heap brk alloc_script prim_script trace]. f_equal.
  rewrite <- !app_assoc. done.
Qed.

Lemma wf_tree_deletable h t : wf_tree h t = true → deletable h t.
Proof.
  unfold wf_tree, deletable. rewrite !andb_true_iff, !bool_decide_eq_true.
  intros [[[? ?] ?] Hown]. do 3 (split; [done|]).
  apply orb_true_iff in Hown as [?|Hown]; [by left|right].
  apply andb_true_iff in Hown as [?%bool_decide_eq_true Hown].
  split; [done|].
  destruct (h !! owner_of (obj t)) as [[]|]; try done. by eexists.
Qed.

Lemma footprint_kid k ks x :
  k ∈ ks → x ∈ footprint k → x ∈ flat_map footprint ks.
Proof. intros Hk Hx. apply elem_of_flat_map. by exists k. Qed.

Lemma delete_children_run (del : addr → M unit) a ks :
  (∀ k, k ∈ ks → ∀ s, deletable (heap s) k →
        ∃ s', del (root k) s = Some (tt, s') ∧ deleted k s s') →
  ∀ s oa,
    heap s !! a = Some (BObject oa) →
    Z.of_nat (length ks) <= NumberOfChildren oa < 2 ^ 31 →
    Forall (λ k, ChildListEntry (obj k) = a ∧ tree_in (heap s) k = true) ks →
    NoDup (flat_map footprint ks) →
    NULL ∉ flat_map footprint ks →
    a ∉ flat_map footprint ks →
    ∃ s' oa',
      delete_children del a (map root ks) s = Some (tt, s')
      ∧ trace s' = trace s ++ flat_map delete_trace ks
      ∧ brk s' = brk s
      ∧ alloc_script s' = alloc_script s
      ∧ prim_script s' = prim_script s
      ∧ heap s' !! a = Some (BObject oa')
      ∧ same_static oa oa'
      ∧ (∀ x, x ∈ flat_map footprint ks → heap s' !! x = None)
      ∧ (∀ x, x ∉ flat_map footprint ks → x ≠ a →
           heap s' !! x = heap s !! x).
Proof.
  induction ks as [|k ks IH]; intros Hdel s oa Ha Hn Hks Hnd Hnull Hnotin.
  { exists s, oa. cbn [map delete_children flat_map ret].
    rewrite app_nil_r. do 6 (split; [done|]). split; [apply same_static_refl|].
    split; [by intros x ?%elem_of_nil|done]. }
  cbn [map delete_children flat_map length] in *.
  apply Forall_cons in Hks as [[Hlink Hin] Hks].
  apply NoDup_app in Hnd as (Hndk & Hdisj & Hndks).
  apply not_elem_of_app in Hnull as [Hnullk Hnullks].
  apply not_elem_of_app in Hnotin as [Hak Haks].
  step. step.
  rewrite bool_decide_eq_true_2 by (rewrite wrap_LONG_small; lia).
  cbn [DmfAssert]. step.
  set (oa1 := set_NumberOfChildren (wrap_LONG (NumberOfChildren oa - 1)) oa).
  set (s1 := set_heap (insert a (BObject oa1)) s).
  assert (Ha1 : heap s1 !! a = Some (BObject oa1))
    by (subst s1; solve_lookup).
  assert (Hk1 : deletable (heap s1) k).
  { split; [|split; [done|split; [done|]]].
    - eapply tree_in_frame; [exact Hin|]. intros x Hx. subst s1. heap_simpl.
      apply lookup_insert_ne. by intros ->.
    - unfold owner_of. rewrite Hlink.
      destruct (is_null (ParentObject (ObjectAttributes (obj k))));
        [by left|right]. split; [done|by eexists]. }
  destruct (Hdel k ltac:(by left) s1 Hk1)
    as (s2 & Hrun & Htr & Hb & Has & Hps & Hgone & Hsame & Hown).
  rewrite (bind_run _ _ _ _ _ Hrun).
  assert (∃ oa2, heap s2 !! a = Some (BObject oa2)
                 ∧ same_static oa oa2
                 ∧ NumberOfChildren oa2 = NumberOfChildren oa - 1)
    as (oa2 & Ha2 & Hst2 & Hn2).
  { destruct (is_null (owner_of (obj k))) eqn:Enull.
    - exists oa1. split; [|split].
      + rewrite Hsame; [done|done|by right].
      + by repeat split.
      + subst oa1. cbn [NumberOfChildren set_NumberOfChildren].
        rewrite wrap_LONG_small; lia.
    - assert (Heq : owner_of (obj k) = a).
      { unfold owner_of in *. rewrite Hlink in *.
        by destruct (is_null (ParentObject (ObjectAttributes (obj k)))). }
      specialize (Hown oa1 eq_refl). rewrite Heq in Hown.
      eexists. split; [by apply Hown|]. split; [by repeat split|].
      subst oa1. cbn [NumberOfChildren set_NumberOfChildren set_ChildList].
      rewrite wrap_LONG_small; lia. }
  assert (Hfr2 : ∀ x, x ∉ footprint k → x ≠ a → heap s2 !! x = heap s !! x).
  { intros x Hx Hxa. rewrite Hsame; [|done|].
    - subst s1. heap_simpl. by rewrite lookup_insert_ne.
    - destruct (is_null (owner_of (obj k))) eqn:Enull; [by right|left].
      unfold owner_of in *. rewrite Hlink in *.
      by destruct (is_null (ParentObject (ObjectAttributes (obj k)))). }
  destruct (IH ltac:(intros k' Hk'; apply Hdel; by right) s2 oa2 Ha2)
    as (s' & oa' & Hrun' & Htr' & Hb' & Has' & Hps' & Ha' & Hst' & Hgone'
        & Hsame'); try done.
  { lia. }
  { apply Forall_forall. intros k' Hk'. rewrite Forall_forall in Hks.
    destruct (Hks k' Hk') as [? Hin']. split; [done|].
    eapply tree_in_frame; [exact Hin'|]. intros x Hx. apply Hfr2.
    - intros Hxk. by apply (Hdisj x Hxk), (footprint_kid k' ks).
    - intros ->. by apply Haks, (footprint_kid k' ks). }
  exists s', oa'. split; [done|].
  split; [by rewrite Htr', Htr, app_assoc|].
  split; [by rewrite Hb', Hb|]. split; [by rewrite Has', Has|].
  split; [by rewrite Hps', Hps|]. split; [done|].
  split; [by eapply same_static_trans|]. split.
  - intros x [Hx|Hx]%elem_of_app; [|by apply Hgone'].
    rewrite Hsame'; [by apply Hgone| |by intros ->]. by apply Hdisj.
  - intros x [Hxk Hxks]%not_elem_of_app Hxa.
    rewrite Hsame' by done. by apply Hfr2.
Qed.

Lemma height_kid k ks a o payload :
  k ∈ ks → (height k < height (Node a o payload ks))%nat.
Proof.
  cbn [height]. induction ks as [|k' ks IH]; [by intros ?%elem_of_nil|].
  cbn [foldr]. intros [->|Hk]%elem_of_cons; [lia|].
  specialize (IH Hk). lia.
Qed.

Lemma same_static_teardown a o o' payload :
  same_static o o' →
  teardown_trace a o' payload = teardown_trace a o payload
  ∧ own_footprint a o' payload = own_footprint a o payload
  ∧ owner_of o' = owner_of o.
Proof.
  intros (Ht & Hd & Hat & Hfn & Hl).
  unfold teardown_trace, destroy_trace, destructor_trace, own_footprint,
    owned_buffer, owner_of.
  by rewrite Hd, Hat, Hfn, Hl.
Qed.

Lemma same_static_payload_ok h o o' payload :
  same_static o o' → payload_ok h o payload = payload_ok h o' payload.
Proof.
  intros (Ht & Hd & Hat & Hfn & Hl). unfold payload_ok. by rewrite Hfn, Ht.
Qed.

Lemma unlinked_static a o o' h :
  owner_of o' = owner_of o → unlinked a o' h = unlinked a o h.
Proof. intros E. unfold unlinked. by rewrite E. Qed.

(** Deleting the root of a well-formed tree, with fuel for its height,
    destroys the whole tree. *)
Lemma WdfObjectDelete_tree fuel :
  ∀ t s, (height t <= fuel)%nat → deletable (heap s) t →
         ∃ s', WdfObjectDelete fuel (root t) s = Some (tt, s')
               ∧ deleted t s s'.
Proof.
  induction fuel as [|fuel IH]; intros [a o payload ks] s Hh Hdel.
  { cbn [height] in Hh. lia. }
  destruct Hdel as (Hin & Hnd & Hnull & Hown).
  destruct (tree_in_inv _ _ _ _ _ Hin) as (Ha & Hrc & Hcl & Hn & Hd & Hp & Hks).
  cbn [root obj footprint] in *.
  apply NoDup_app in Hnd as (Hndo & Hdisj & Hndk).
  apply not_elem_of_app in Hnull as [Hnullo Hnullk].
  assert (Hak : a ∉ flat_map footprint ks).
  { apply Hdisj. by left. }
  rewrite WdfObjectDelete_unfold. cbv zeta. step. step.
  erewrite bind_run; [|apply when_emit_run].
  rewrite Hrc. change (InterlockedDecrement 1) with 0.
  rewrite bool_decide_eq_true_2 by done. step. step.
  match goal with
  | |- context [bind (delete_children _ _ _) _ ?s1] =>
      destruct (delete_children_run (WdfObjectDelete fuel) a ks
                  ltac:(intros k Hk s' Hs'; apply IH; [|done];
                        pose proof (height_kid k ks a o payload Hk); lia)
                  s1 (set_ReferenceCount 0 o))
        as (s2 & o2 & Hrun & Htr & Hb & Has & Hps & Ha2 & Hst & Hgone & Hsame)
  end.
  { solve_lookup. }
  { done. }
  { apply Forall_forall. intros k Hk. rewrite Forall_forall in Hks.
    destruct (Hks k Hk) as [? Hink]. split; [done|].
    eapply tree_in_frame; [exact Hink|]. intros x Hx. heap_simpl.
    apply lookup_insert_ne. intros ->. by apply Hak, (footprint_kid k ks). }
  { done. }
  { done. }
  { done. }
  rewrite Hcl, (bind_run _ _ _ _ _ Hrun).
  assert (Hst0 : same_static o o2).
  { eapply same_static_trans; [|exact Hst]. by repeat split. }
  destruct (same_static_teardown a o o2 payload Hst0) as (Htd & Hfp & Howner).
  heap_simpl.
  assert (Hold : ∀ x, x ∉ flat_map footprint ks → x ≠ a →
                 heap s2 !! x = heap s !! x).
  { intros x Hx Hxa. rewrite Hsame by done. by rewrite lookup_insert_ne. }
  assert (HDa : Data o ≠ a).
  { intros E. apply NoDup_cons in Hndo as [Hndo _]. apply Hndo.
    rewrite E. by left. }
  assert (HDk : Data o ∉ flat_map footprint ks).
  { apply Hdisj. right. by left. }
  erewrite destroy_object_run with (o := o2) (payload := payload); cycle 1.
  { done. }
  { destruct Hst0 as (_ & -> & _). by rewrite Hold. }
  { rewrite <- (same_static_payload_ok _ o o2) by done.
    eapply payload_ok_frame; [done|]. intros x Hx. apply Hold.
    - apply Hdisj. by do 2 right.
    - intros ->. apply NoDup_cons in Hndo as [Hndo _]. apply Hndo. by right. }
  { by rewrite Hfp. }
  { by rewrite Hfp. }
  { rewrite Howner, Hfp. destruct Hown as [?|[Hout [P HP]]]; [by left|right].
    apply not_elem_of_app in Hout as [Hout Houtk]. split; [done|].
    exists P. rewrite Hold; [done|done|]. intros E. apply Hout. rewrite E. by left. }
  eexists. split; [reflexivity|].
  unfold deleted, torn_down. cbn [root obj footprint delete_trace]. heap_simpl.
  rewrite Htd.
  destruct Hst0 as (_ & HD2 & _).
  rewrite HD2, (unlinked_static a o o2) by done.
  assert (Hbuf : owned_buffer o2 payload = owned_buffer o payload).
  { by injection Hfp. }
  rewrite Hbuf.
  split.
  { rewrite Htr. unfold cleanup_trace. rewrite <- !app_assoc. done. }
  split; [done|]. split; [done|]. split; [done|].
  split; [|split].
  - intros x [Hx|Hx]%elem_of_app.
    + unfold own_footprint in Hx.
      destruct (decide (x = a)) as [->|Hxa]; [apply lookup_delete_eq|].
      rewrite lookup_delete_ne by done.
      destruct (decide (x = Data o)) as [->|HxD]; [apply lookup_delete_eq|].
      rewrite lookup_delete_ne by done.
      apply lookup_foldr_delete_in.
      apply elem_of_cons in Hx as [?|Hx]; [done|].
      by apply elem_of_cons in Hx as [?|Hx].
    + assert (x ≠ a) by (by intros ->).
      assert (x ≠ Data o) by (by intros ->).
      rewrite !lookup_delete_ne by done.
      assert (Hxb : x ∉ owned_buffer o payload).
      { intros Hxb. apply (Hdisj x); [by do 2 right|done]. }
      rewrite lookup_foldr_delete_notin by done.
      rewrite unlinked_lookup_ne.
      * by apply Hgone.
      * destruct Hown as [?|[Hout _]]; [by right|left].
        intros ->. apply Hout. apply elem_of_app. by right.
  - intros x [Hxo Hxk]%not_elem_of_app Hxown. unfold own_footprint in Hxo.
    apply not_elem_of_cons in Hxo as [Hxa Hxo].
    apply not_elem_of_cons in Hxo as [HxD Hxo].
    rewrite !lookup_delete_ne by done.
    rewrite lookup_foldr_delete_notin by done.
    rewrite unlinked_lookup_ne by done. by apply Hold.
  - intros P Hnn HP.
    destruct Hown as [Hown|[Hout _]]; [by rewrite Hown in Hnn|].
    apply not_elem_of_app in Hout as [Hout Houtk]. unfold own_footprint in Hout.
    apply not_elem_of_cons in Hout as [Hxa Hout].
    apply not_elem_of_cons in Hout as [HxD Hout].
    rewrite !lookup_delete_ne by done.
    rewrite lookup_foldr_delete_notin by done.
    apply unlinked_lookup_owner; [done|]. by rewrite Hold.
Qed.

(** ** The order of the events *)

Lemma delete_trace_children t :
  delete_trace t
  = children_trace t ++ teardown_trace (root t) (obj t) (payload t).
Proof.
  destruct t as [a o p ks]. unfold children_trace.
  cbn [delete_trace root obj payload kids]. by rewrite <- !app_assoc.
Qed.

Lemma teardown_trace_free a o p : EvFree a ∈ teardown_trace a o p.
Proof.
  unfold teardown_trace. rewrite !elem_of_app. do 2 right.
  do 2 apply list_elem_of_further. apply list_elem_of_here.
Qed.

Lemma teardown_trace_destroy a o p :
  EvtDestroyCallback (ObjectAttributes o) ≠ NULL →
  EvDestroy (EvtDestroyCallback (ObjectAttributes o)) a
  ∈ teardown_trace a o p.
Proof.
  intros H. unfold teardown_trace, destroy_trace.
  rewrite is_null_false by done. apply elem_of_app. left.
  apply list_elem_of_here.
Qed.

(** The events of the destruction of a descendant form one block of the
    events that precede the teardown of the root. *)
Lemma descendant_trace t d :
  d ∈ descendants t →
  ∃ pre post, children_trace t = pre ++ delete_trace d ++ post.
Proof.
  revert d. induction t as [a o p ks IH] using tree_induction.
  intros d Hd. cbn [descendants] in Hd.
  apply elem_of_flat_map in Hd as (k & Hk & Hd).
  unfold children_trace. cbn [root obj kids].
  assert (∃ pre post, delete_trace k = pre ++ delete_trace d ++ post)
    as (pre & post & Hkd).
  { apply elem_of_cons in Hd as [->|Hd].
    - exists [], []. by rewrite app_nil_r.
    - rewrite Forall_forall in IH. destruct (IH k Hk d Hd) as (pre & post & E).
      rewrite delete_trace_children, E.
      exists pre, (post ++ teardown_trace (root k) (obj k) (payload k)).
      by rewrite <- !app_assoc. }
  apply list_elem_of_split in Hk as (ks1 & ks2 & ->).
  rewrite flat_map_app. cbn [flat_map]. rewrite Hkd.
  exists (cleanup_trace a o ++ [EvCriticalSectionEnter a]
          ++ flat_map delete_trace ks1 ++ pre),
    (post ++ flat_map delete_trace ks2 ++ [EvCriticalSectionLeave a]).
  rewrite <- !app_assoc. reflexivity.
Qed.

Lemma descendant_footprint t d x :
  d ∈ descendants t → x ∈ footprint d → x ∈ flat_map footprint (kids t).
Proof.
  revert d. induction t as [a o p ks IH] using tree_induction.
  intros d Hd Hx. cbn [descendants kids] in *.
  apply elem_of_flat_map in Hd as (k & Hk & Hd).
  apply elem_of_flat_map. exists k. split; [done|].
  apply elem_of_cons in Hd as [->|Hd]; [done|].
  rewrite Forall_forall in IH. specialize (IH k Hk d Hd Hx).
  destruct k as [a' o' p' ks']. cbn [footprint kids] in *.
  apply elem_of_app. by right.
Qed.

Lemma root_in_footprint t : root t ∈ footprint t.
Proof. destruct t. cbn [root footprint own_footprint]. by left. Qed.

(** ** A call that does not reach zero *)

Lemma WdfObjectDelete_nonzero fuel a o s :
  heap s !! a = Some (BObject o) →
  InterlockedDecrement (ReferenceCount o) ≠ 0 →
  WdfObjectDelete (S fuel) a s
  = Some (tt,
          add_events (cleanup_trace a o)
            (set_heap
               (insert a (BObject (set_ReferenceCount
                                     (InterlockedDecrement (ReferenceCount o))
                                     o)))
               s)).
Proof.
  intros Ha Hnz. rewrite WdfObjectDelete_unfold. cbv zeta. step. step.
  erewrite bind_run; [|apply when_emit_run].
  by rewrite bool_decide_eq_false_2 by done.
Qed.

(** ** Counting the cleanup callbacks *)

Lemma cleanup_calls_app a l1 l2 :
  cleanup_calls a (l1 ++ l2) = (cleanup_calls a l1 + cleanup_calls a l2)%nat.
Proof. unfold cleanup_calls. by rewrite List.filter_app, length_app. Qed.

Lemma cleanup_calls_own a o :
  cleanup_calls a (cleanup_trace a o)
  = if is_null (EvtCleanupCallback (ObjectAttributes o)) then 0%nat else 1%nat.
Proof.
  unfold cleanup_trace, cleanup_calls.
  destruct (is_null _); [done|].
  cbn [List.filter is_cleanup_of]. by rewrite bool_decide_eq_true_2.
Qed.

Lemma cleanup_calls_other x a o :
  x ≠ a → cleanup_calls x (cleanup_trace a o) = 0%nat.
Proof.
  intros Hx. unfold cleanup_trace, cleanup_calls.
  destruct (is_null _); [done|].
  cbn [List.filter is_cleanup_of]. by rewrite bool_decide_eq_false_2.
Qed.

Lemma cleanup_calls_fmap_free x (l : list N) :
  cleanup_calls x (EvFree <$> l) = 0%nat.
Proof. induction l as [|y l IH]; [done|exact IH]. Qed.

Lemma cleanup_calls_teardown x a o p :
  cleanup_calls x (teardown_trace a o p) = 0%nat.
Proof.
  unfold teardown_trace, destroy_trace, destructor_trace.
  rewrite !cleanup_calls_app.
  assert (∀ e l, is_cleanup_of x e = false →
                 cleanup_calls x (e :: l) = cleanup_calls x l) as Hcons.
  { intros e l He. unfold cleanup_calls. cbn [List.filter]. by rewrite He. }
  destruct (is_null _); destruct (ObjectDelete o) as [[]|];
    rewrite ?Hcons, ?cleanup_calls_fmap_free by done; reflexivity.
Qed.

Lemma cleanup_calls_descendants x t :
  x ∉ footprint t → cleanup_calls x (delete_trace t) = 0%nat.
Proof.
  induction t as [a o p ks IH] using tree_induction. intros Hx.
  cbn [footprint own_footprint] in Hx. cbn [delete_trace].
  apply not_elem_of_app in Hx as [Hxo Hxk].
  rewrite !cleanup_calls_app, cleanup_calls_teardown.
  rewrite cleanup_calls_other
    by (intros ->; apply Hxo; by left).
  assert (cleanup_calls x (flat_map delete_trace ks) = 0%nat) as ->; [|done].
  induction ks as [|k ks IHks]; [done|].
  cbn [flat_map] in *. apply not_elem_of_app in Hxk as [Hk Hks].
  apply Forall_cons in IH as [IHk IH].
  by rewrite cleanup_calls_app, IHk, IHks.
Qed.

Lemma cleanup_calls_tree t :
  NoDup (footprint t) →
  cleanup_calls (root t) (delete_trace t)
  = if is_null (EvtCleanupCallback (ObjectAttributes (obj t)))
    then 0%nat else 1%nat.
Proof.
  destruct t as [a o p ks]. cbn [root obj footprint delete_trace].
  intros Hnd. apply NoDup_app in Hnd as (_ & Hdisj & _).
  assert (Hak : a ∉ flat_map footprint ks) by (apply Hdisj; by left).
  rewrite !cleanup_calls_app, cleanup_calls_teardown, cleanup_calls_own.
  assert (cleanup_calls a (flat_map delete_trace ks) = 0%nat) as ->.
  { induction ks as [|k ks IHks]; [done|].
    cbn [flat_map] in *. apply not_elem_of_app in Hak as [Hk Hks].
    rewrite cleanup_calls_app, cleanup_calls_descendants by done.
    apply IHks; [|done]. intros x Hx Hxk. apply (Hdisj x Hx).
    apply elem_of_app. by right. }
  change (cleanup_calls a [EvCriticalSectionEnter a]) with 0%nat.
  change (cleanup_calls a [EvCriticalSectionLeave a]) with 0%nat. lia.
Qed.

(** ** What a call of [WdfObjectDelete] does *)

Lemma kid_descendant t k : k ∈ kids t → k ∈ descendants t.
Proof.
  destruct t as [a o p ks]. cbn [kids descendants]. intros Hk.
  apply elem_of_flat_map. exists k. split; [done|]. by left.
Qed.

Lemma delete_trace_free t : EvFree (root t) ∈ delete_trace t.
Proof.
  rewrite delete_trace_children. apply elem_of_app. right.
  apply teardown_trace_free.
Qed.

Lemma delete_trace_destroy t :
  EvtDestroyCallback (ObjectAttributes (obj t)) ≠ NULL →
  EvDestroy (EvtDestroyCallback (ObjectAttributes (obj t))) (root t)
  ∈ delete_trace t.
Proof.
  intros H. rewrite delete_trace_children. apply elem_of_app. right.
  by apply teardown_trace_destroy.
Qed.

Lemma deleted_freed t s s' :
  deleted t s s' → freed (root t) (obj t) s s'.
Proof.
  intros (Htr & _ & _ & _ & Hgone & _).
  destruct t as [a o p ks]. cbn [root obj footprint own_footprint] in *.
  split; [apply Hgone; by left|].
  split; [apply Hgone; right; by left|].
  exists (delete_trace (Node a o p ks)). split; [done|].
  rewrite delete_trace_children. cbn [root obj payload].
  rewrite !elem_of_app. unfold teardown_trace. rewrite !elem_of_app.
  repeat split; do 3 right.
  - by left.
  - right. by left.
  - do 2 right. by left.
Qed.

(** Destruction in a well-formed ownership tree.  When [WdfObjectDelete] is
    called on the root of a well-formed ownership tree (every object of it
    has reference count 1, so the decrement gives zero), the call returns
    and the events it adds are those of [children_trace] followed by those
    of [teardown_trace], which starts with the destroy callback of the
    root.  Every entry of the child list of the root is a descendant, and
    for every descendant the events of its whole destruction form one block
    of [children_trace]: its destroy callback, if registered, and the
    release of its control block happen before the destroy callback of the
    root.  When the call returns no block of the tree is left in the heap,
    the root has been unlinked from the child list of its owner, if it has
    one, and no other block has changed. *)
Theorem WdfObjectDelete_destroys_children_first fuel t s :
  wf_tree (heap s) t = true →
  (height t <= fuel)%nat →
  ∃ s',
    WdfObjectDelete fuel (root t) s = Some (tt, s')
    ∧ InterlockedDecrement (ReferenceCount (obj t)) = 0
    ∧ trace s'
      = trace s ++ children_trace t
        ++ teardown_trace (root t) (obj t) (payload t)
    ∧ (∀ c, c ∈ ChildList (obj t) →
         ∃ d, d ∈ descendants t ∧ root d = c)
    ∧ (∀ d, d ∈ descendants t →
         (∃ pre post, children_trace t = pre ++ delete_trace d ++ post)
         ∧ EvFree (root d) ∈ children_trace t
         ∧ (EvtDestroyCallback (ObjectAttributes (obj d)) ≠ NULL →
            EvDestroy (EvtDestroyCallback (ObjectAttributes (obj d))) (root d)
            ∈ children_trace t)
         ∧ heap s' !! root d = None)
    ∧ (∀ x, x ∈ footprint t → heap s' !! x = None)
    ∧ (∀ P, is_null (owner_of (obj t)) = false →
         heap s !! owner_of (obj t) = Some (BObject P) →
         heap s' !! owner_of (obj t)
         = Some (BObject (set_ChildList (unlink (root t) (ChildList P)) P)))
    ∧ (∀ x, x ∉ footprint t →
         (x ≠ owner_of (obj t)) ∨ is_null (owner_of (obj t)) = true →
         heap s' !! x = heap s !! x).
Proof.
  intros Hwf Hfuel. pose proof (wf_tree_deletable _ _ Hwf) as Hdel.
  destruct (WdfObjectDelete_tree fuel t s Hfuel Hdel)
    as (s' & Hrun & Htr & _ & _ & _ & Hgone & Hsame & Hunlink).
  exists s'. split; [done|].
  destruct Hdel as (Hin & Hnd & _).
  destruct t as [a o p ks].
  destruct (tree_in_inv _ _ _ _ _ Hin) as (_ & Hrc & Hcl & _).
  cbn [root obj payload] in *.
  split; [by rewrite Hrc|].
  split; [by rewrite Htr, delete_trace_children|].
  split.
  { intros c Hc. rewrite Hcl in Hc.
    apply list_elem_of_fmap in Hc as (k & -> & Hk).
    exists k. split; [|done]. by apply kid_descendant. }
  split; [|split; [exact Hgone|split; [exact Hunlink|exact Hsame]]].
  intros d Hd. destruct (descendant_trace _ _ Hd) as (pre & post & E).
  split; [by exists pre, post|]. rewrite E.
  split; [|split].
  - rewrite !elem_of_app. right. left. apply delete_trace_free.
  - intros Hcb. rewrite !elem_of_app. right. left.
    by apply delete_trace_destroy.
  - apply Hgone. cbn [footprint]. apply elem_of_app. right.
    eapply (descendant_footprint (Node a o p ks)); [done|].
    apply root_in_footprint.
Qed.

Lemma WdfObjectDelete_destroys_children_first_witness :
  ∃ s',
    WdfObjectDelete 3 (root family_tree) family = Some (tt, s')
    ∧ trace s'
      = trace family ++ children_trace family_tree
        ++ teardown_trace (root family_tree) (obj family_tree)
             (payload family_tree)
    ∧ (∀ x, x ∈ footprint family_tree → heap s' !! x = None).
Proof.
  destruct (WdfObjectDelete_destroys_children_first 3 family_tree family)
    as (s' & Hrun & _ & Htr & _ & _ & Hgone & _).
  - vm_compute. reflexivity.
  - vm_compute. lia.
  - exists s'. by repeat split.
Defined.

Lemma height_pos t fuel : (height t <= fuel)%nat → ∃ fuel', fuel = S fuel'.
Proof.
  destruct t as [a o p ks]. cbn [height]. destruct fuel; [lia|eauto].
Qed.

Lemma not_freed_live a o s s' b :
  heap s' !! a = Some b → ¬ freed a o s s'.
Proof. intros H [H' _]. congruence. Qed.

(** The reference count in a well-formed ownership tree.
    [DmfPlatformObjectCreate] returns, and the object it returns, if any,
    has reference count 1.  A call of [WdfObjectDelete] on a live object
    that is the root of a well-formed tree when its count is 1 returns, and
    it has freed the object (control block and payload are gone from the
    heap and were released, the lock was deleted) exactly when the
    decremented reference count is zero. *)
Theorem freed_iff_count_reaches_zero :
  (∀ Parent cb s,
     (0 < brk s)%N →
     (Parent = NULL
      ∨ Parent ≠ NULL ∧ (Parent < brk s)%N
        ∧ ∃ P, heap s !! Parent = Some (BObject P)) →
     ∃ p s1,
       DmfPlatformObjectCreate Parent cb s = Some (p, s1)
       ∧ (p = NULL
          ∨ ∃ o1, heap s1 !! p = Some (BObject o1) ∧ ReferenceCount o1 = 1))
  ∧ (∀ fuel t s,
       heap s !! root t = Some (BObject (obj t)) →
       - 2 ^ 31 <= ReferenceCount (obj t) < 2 ^ 31 →
       (ReferenceCount (obj t) = 1 → wf_tree (heap s) t = true) →
       (height t <= fuel)%nat →
       ∃ s',
         WdfObjectDelete fuel (root t) s = Some (tt, s')
         ∧ (freed (root t) (obj t) s s'
            ↔ InterlockedDecrement (ReferenceCount (obj t)) = 0)).
Proof.
  split.
  - intros Parent cb s Hbrk HP.
    destruct (alloc_fails s) eqn:Hf.
    + exists NULL, (alloc_failed s).
      split; [by apply DmfPlatformObjectCreate_fail|by left].
    + destruct (DmfPlatformObjectCreate_ok s Parent cb Hbrk Hf HP)
        as (s1 & o1 & new1 & Hrun & _ & Ho1 & Hrc & _).
      exists (brk s), s1. split; [done|]. right. by exists o1.
  - intros fuel t s Ha Hrange Hwf Hfuel.
    destruct (decide (ReferenceCount (obj t) = 1)) as [H1|H1].
    + destruct (WdfObjectDelete_tree fuel t s Hfuel
                  (wf_tree_deletable _ _ (Hwf H1))) as (s' & Hrun & Hdel).
      exists s'. split; [done|]. split.
      * intros _. by rewrite H1.
      * intros _. by apply deleted_freed.
    + destruct (height_pos _ _ Hfuel) as [fuel' ->].
      assert (InterlockedDecrement (ReferenceCount (obj t)) ≠ 0) as Hnz.
      { by rewrite InterlockedDecrement_zero. }
      eexists. split; [by apply WdfObjectDelete_nonzero|]. split.
      * intros Hfreed. exfalso. revert Hfreed. eapply not_freed_live.
        solve_lookup.
      * done.
Qed.

Lemma freed_iff_count_reaches_zero_witness :
  (∃ p s1,
     DmfPlatformObjectCreate NULL None (boot_with []) = Some (p, s1)
     ∧ (p = NULL
        ∨ ∃ o1, heap s1 !! p = Some (BObject o1) ∧ ReferenceCount o1 = 1))
  ∧ (∃ s',
       WdfObjectDelete 3 (root family_tree) family = Some (tt, s')
       ∧ freed (root family_tree) (obj family_tree) family s').
Proof.
  destruct freed_iff_count_reaches_zero as [Hcreate Hdelete]. split.
  - apply (Hcreate NULL None (boot_with [])); [vm_compute; reflexivity|by left].
  - destruct (Hdelete 3%nat family_tree family) as (s' & Hrun & Hiff).
    + vm_compute. reflexivity.
    + vm_compute. split; [intros H; discriminate H|reflexivity].
    + intros _. vm_compute. reflexivity.
    + vm_compute. lia.
    + exists s'. split; [done|]. apply Hiff. vm_compute. reflexivity.
Defined.

(** C3.  A call of [WdfObjectDelete] on a live object returns, and among the
    events it adds there is exactly one call of the cleanup callback of the
    object when one is registered, and none otherwise, whatever the
    decremented reference count is.  When the decremented count is not
    zero, the call of the cleanup callback is the only event and the heap
    changes in the reference count of the object only. *)
Theorem WdfObjectDelete_cleanup_once fuel t s :
  heap s !! root t = Some (BObject (obj t)) →
  - 2 ^ 31 <= ReferenceCount (obj t) < 2 ^ 31 →
  (ReferenceCount (obj t) = 1 → wf_tree (heap s) t = true) →
  (height t <= fuel)%nat →
  ∃ s' new,
    WdfObjectDelete fuel (root t) s = Some (tt, s')
    ∧ trace s' = trace s ++ new
    ∧ cleanup_calls (root t) new
      = (if is_null (EvtCleanupCallback (ObjectAttributes (obj t)))
         then 0%nat else 1%nat)
    ∧ (InterlockedDecrement (ReferenceCount (obj t)) ≠ 0 →
       new = cleanup_trace (root t) (obj t)
       ∧ heap s'
         = <[root t := BObject (set_ReferenceCount
                                  (InterlockedDecrement
                                     (ReferenceCount (obj t)))
                                  (obj t))]> (heap s)).
Proof.
  intros Ha Hrange Hwf Hfuel.
  destruct (decide (ReferenceCount (obj t) = 1)) as [H1|H1].
  - pose proof (wf_tree_deletable _ _ (Hwf H1)) as Hdel.
    destruct (WdfObjectDelete_tree fuel t s Hfuel Hdel)
      as (s' & Hrun & Htr & _).
    exists s', (delete_trace t). split; [done|]. split; [done|].
    split; [apply cleanup_calls_tree, Hdel|].
    rewrite H1. intros Hnz. by destruct Hnz.
  - destruct (height_pos _ _ Hfuel) as [fuel' ->].
    assert (InterlockedDecrement (ReferenceCount (obj t)) ≠ 0) as Hnz.
    { by rewrite InterlockedDecrement_zero. }
    eexists _, (cleanup_trace (root t) (obj t)).
    split; [by apply WdfObjectDelete_nonzero|].
    split; [done|]. split; [apply cleanup_calls_own|]. done.
Qed.

Lemma WdfObjectDelete_cleanup_once_witness :
  ∃ s' new,
    WdfObjectDelete 3 (root family_tree) family = Some (tt, s')
    ∧ trace s' = trace family ++ new
    ∧ cleanup_calls (root family_tree) new = 1%nat.
Proof.
  destruct (WdfObjectDelete_cleanup_once 3 family_tree family)
    as (s' & new & Hrun & Htr & Hcount & _).
  - vm_compute. reflexivity.
  - vm_compute. split; [intros H; discriminate H|reflexivity].
  - intros _. vm_compute. reflexivity.
  - vm_compute. lia.
  - exists s', new. by repeat split.
Defined.

(** * Further properties of the collections *)

Lemma remove_first_notin x l : x ∉ l → remove_first x l = l.
Proof.
  induction l as [|y l IH]; [done|]. intros [Hy Hl]%not_elem_of_cons.
  cbn [remove_first]. rewrite decide_False by done. by rewrite IH.
Qed.

Lemma remove_first_delete x l i :
  l !! i = Some x → (∀ j, (j < i)%nat → l !! j ≠ Some x) →
  remove_first x l = delete i l.
Proof.
  revert i. induction l as [|y l IH]; intros i Hi Hfirst; [done|].
  cbn [remove_first]. destruct i as [|i].
  - injection Hi as ->. by rewrite decide_True.
  - rewrite decide_False.
    + change (delete (S i) (y :: l)) with (y :: delete i l). f_equal.
      apply IH; [done|]. intros j Hj. apply (Hfirst (S j)). lia.
    + intros ->. by apply (Hfirst 0%nat); [lia|].
Qed.

(** The loop of [WdfCollectionRemove] stops at the first entry that holds
    [Item] and unlinks it; it changes nothing when no entry holds it. *)
Lemma remove_walk_run s d c Item suffix xs :
  heap s !! d = Some (BCollection c) →
  0 < ItemCount c ∨ suffix = [] →
  entries_at (heap s) suffix = Some xs →
  ((Item ∉ xs) ∧ remove_walk d Item suffix s = Some (tt, s))
  ∨ (∃ i e, suffix !! i = Some e ∧ xs !! i = Some Item
            ∧ (∀ j, (j < i)%nat → xs !! j ≠ Some Item)
            ∧ remove_walk d Item suffix s = remove_entry d e s).
Proof.
  intros Hd Hc. revert xs.
  induction suffix as [|p rest IH]; intros xs Hxs.
  { cbn in Hxs. injection Hxs as <-. left. split; [apply not_elem_of_nil|done]. }
  destruct Hc as [Hc|?]; [|done]. cbn [entries_at] in Hxs.
  destruct (heap s !! p) as [[| | | |e| | |]|] eqn:Hp; try done.
  destruct (entries_at (heap s) rest) as [xs'|] eqn:Hrest; [|done].
  injection Hxs as <-. cbn [remove_walk].
  erewrite bind_run; [|by eapply assert_nonempty_run].
  step. case_bool_decide as Hi.
  - right. exists 0%nat, p. split; [done|]. split; [by rewrite Hi|].
    split; [intros j Hj; lia|done].
  - destruct (IH (or_introl Hc) xs' eq_refl)
      as [[Hno Hrun]|(i & e' & Hs & Hx & Hfirst & Hrun)].
    + left. split; [|done]. apply not_elem_of_cons. split; [congruence|done].
    + right. exists (S i), e'. split; [done|]. split; [done|].
      split; [|done]. intros [|j] Hj; [cbn; congruence|].
      apply Hfirst. lia.
Qed.

Lemma removal_state_same s d c lock :
  heap s !! d = Some (BCollection c) →
  ItemCount c = Z.of_nat (length (List c)) →
  removal_state s
    (add_trace (EvSpinLockRelease (Data lock))
       (add_trace (EvSpinLockAcquire (Data lock)) s)) d c lock (List c).
Proof.
  intros Hd Hn. unfold removal_state. heap_simpl.
  split; [|by rewrite <- app_assoc]. rewrite <- Hn.
  destruct c. symmetry. by apply insert_id.
Qed.

Lemma removal_state_unlinked s d c lock i e :
  heap s !! d = Some (BCollection c) →
  ItemCount c = Z.of_nat (length (List c)) →
  Z.of_nat (length (List c)) < 2 ^ 32 →
  NoDup (List c) → List c !! i = Some e →
  removal_state s
    (add_trace (EvSpinLockRelease (Data lock))
       (set_heap
          (insert d (BCollection
                       (set_ItemCount (wrap_ULONG (ItemCount c - 1))
                          (set_List (unlink e (List c)) c))))
          (add_trace (EvSpinLockAcquire (Data lock)) s))) d c lock
    (delete i (List c)).
Proof.
  intros Hd Hn Hlen Hnd Hi. unfold removal_state. heap_simpl.
  split; [|by rewrite <- app_assoc].
  rewrite (unlink_delete _ _ _ Hnd Hi).
  rewrite length_delete by (by eexists).
  apply lookup_lt_Some in Hi.
  rewrite Hn, wrap_ULONG_small by lia.
  do 3 f_equal. lia.
Qed.

Lemma removal_state_items s s' Collection o c lock items i :
  heap s !! Collection = Some (BObject o) →
  PlatformObjectType o = DmfPlatformObjectTypeCollection →
  heap s !! Data o = Some (BCollection c) →
  heap s !! ListLock c = Some (BObject lock) →
  PlatformObjectType lock = DmfPlatformObjectTypeSpinLock →
  NoDup (List c) →
  entries_at (heap s) (List c) = Some items →
  removal_state s s' (Data o) c lock (delete i (List c)) →
  collection_items (heap s') Collection = Some (delete i items).
Proof.
  intros Ho Hto Hc Hl Htl Hnd He (Hh & _).
  eapply collection_items_intro with (lock := lock); rewrite ?Hh; field_simpl.
  - rewrite lookup_insert_ne by congruence. done.
  - done.
  - solve_lookup.
  - field_simpl. rewrite lookup_insert_ne by congruence. done.
  - done.
  - field_simpl. by apply sublist_NoDup with (List c), sublist_delete.
  - done.
  - field_simpl. rewrite entries_at_insert; [by apply entries_at_delete|].
    intros [e' He']%list_elem_of_delete_inv%(entries_at_elem _ _ _ _ He).
    congruence.
Qed.

Lemma WdfCollectionRemove_state s Collection items Item :
  collection_items (heap s) Collection = Some items →
  Z.of_nat (length items) < 2 ^ 32 →
  ∃ s' o c lock l,
    WdfCollectionRemove Collection Item s = Some (tt, s')
    ∧ heap s !! Collection = Some (BObject o)
    ∧ heap s !! Data o = Some (BCollection c)
    ∧ heap s !! ListLock c = Some (BObject lock)
    ∧ removal_state s s' (Data o) c lock l
    ∧ collection_items (heap s') Collection = Some (remove_first Item items)
    ∧ (Item ∉ items → l = List c).
Proof.
  intros Hitems Hlen.
  destruct (collection_items_inv _ _ _ Hitems)
    as (o & c & lock & Ho & Hto & Hc & Hl & Htl & Hnd & Hn & He).
  pose proof (entries_at_length _ _ _ He) as Hlen'.
  unfold WdfCollectionRemove.
  erewrite bind_run; [|by apply collection_of_run].
  step.
  erewrite bind_run; [|by eapply WdfSpinLockAcquire_run].
  destruct (remove_walk_run (add_trace (EvSpinLockAcquire (Data lock)) s)
              (Data o) c Item (List c) items)
    as [[Hno Hrun]|(i & e & Hi & Hx & Hfirst & Hrun)].
  { solve_lookup. }
  { destruct (List c); [by right|left]. rewrite Hn. cbn [length]. lia. }
  { done. }
  - erewrite bind_run; [|exact Hrun]. step.
    erewrite WdfSpinLockRelease_run; [|solve_lookup|done].
    eexists _, o, c, lock, (List c). split; [reflexivity|].
    do 3 (split; [done|]). split; [by apply removal_state_same|].
    heap_simpl. split; [by rewrite remove_first_notin|done].
  - erewrite bind_run;
      [|rewrite Hrun; by eapply remove_entry_run; solve_lookup].
    step.
    erewrite WdfSpinLockRelease_run; [|solve_lookup|done].
    assert (Hst : removal_state s
                    (add_trace (EvSpinLockRelease (Data lock))
                       (set_heap
                          (insert (Data o)
                             (BCollection
                                (set_ItemCount (wrap_ULONG (ItemCount c - 1))
                                   (set_List (unlink e (List c)) c))))
                          (add_trace (EvSpinLockAcquire (Data lock)) s)))
                    (Data o) c lock (delete i (List c))).
    { apply removal_state_unlinked; [done|done|lia|done|done]. }
    eexists _, o, c, lock, (delete i (List c)). split; [reflexivity|].
    do 3 (split; [done|]). split; [done|]. split.
    + rewrite (remove_first_delete _ _ _ Hx Hfirst).
      by eapply removal_state_items.
    + intros Hno. exfalso. apply Hno. by eapply list_elem_of_lookup_2.
Qed.

Lemma WdfCollectionRemoveItem_state s Collection items Index :
  collection_items (heap s) Collection = Some items →
  Z.of_nat (length items) < 2 ^ 32 →
  0 <= Index < 2 ^ 32 →
  ∃ s' o c lock,
    WdfCollectionRemoveItem Collection Index s = Some (tt, s')
    ∧ heap s !! Collection = Some (BObject o)
    ∧ heap s !! Data o = Some (BCollection c)
    ∧ heap s !! ListLock c = Some (BObject lock)
    ∧ entries_at (heap s) (List c) = Some items
    ∧ removal_state s s' (Data o) c lock (delete (Z.to_nat Index) (List c))
    ∧ collection_items (heap s') Collection
      = Some (delete (Z.to_nat Index) items).
Proof.
  intros Hitems Hlen Hidx.
  destruct (collection_items_inv _ _ _ Hitems)
    as (o & c & lock & Ho & Hto & Hc & Hl & Htl & Hnd & Hn & He).
  pose proof (entries_at_length _ _ _ He) as Hlen'.
  unfold WdfCollectionRemoveItem.
  erewrite bind_run; [|by apply collection_of_run].
  step.
  erewrite bind_run; [|by eapply WdfSpinLockAcquire_run].
  assert (∃ s', remove_item_walk (Data o) Index 0 (List c)
                  (add_trace (EvSpinLockAcquire (Data lock)) s)
                = Some (tt, s')
                ∧ removal_state s
                    (add_trace (EvSpinLockRelease (Data lock)) s')
                    (Data o) c lock (delete (Z.to_nat Index) (List c))
                ∧ heap s' !! Data o
                  = Some (BCollection
                            (set_ItemCount
                               (Z.of_nat (length (delete (Z.to_nat Index)
                                                    (List c))))
                               (set_List (delete (Z.to_nat Index) (List c))
                                  c))))
    as (s1 & Hrun & Hst & Hd1).
  { erewrite remove_item_walk_run; [|solve_lookup| |lia|lia]; cycle 1.
    { destruct (List c); [by right|left]. rewrite Hn. cbn [length]. lia. }
    rewrite Z.sub_0_r.
    destruct (List c !! Z.to_nat Index) as [e|] eqn:Hi.
    - eexists. split; [by eapply remove_entry_run; solve_lookup|].
      split; [apply removal_state_unlinked; (done || lia)|].
      heap_simpl. rewrite lookup_insert_eq.
      rewrite (unlink_delete _ _ _ Hnd Hi).
      rewrite length_delete by (by eexists).
      apply lookup_lt_Some in Hi.
      rewrite Hn, wrap_ULONG_small by lia.
      do 3 f_equal. lia.
    - eexists. split; [done|].
      apply lookup_ge_None in Hi. rewrite delete_out_of_range by done.
      split; [by apply removal_state_same|]. heap_simpl.
      rewrite <- Hn, Hc. by destruct c. }
  erewrite bind_run; [|exact Hrun]. step. field_simpl.
  erewrite WdfSpinLockRelease_run; [|..|done]; cycle 1.
  { destruct Hst as (Hh & _). heap_simpl.
    assert (Hl1 : heap s1 !! ListLock c = Some (BObject lock)).
    { rewrite Hh. rewrite lookup_insert_ne by congruence. done. }
    exact Hl1. }
  eexists _, o, c, lock. split; [reflexivity|].
  do 4 (split; [done|]). split; [done|].
  by eapply removal_state_items.
Qed.

Lemma removal_state_keeps s s' d c lock l :
  heap s !! d = Some (BCollection c) →
  removal_state s s' d c lock l →
  (∃ new, trace s' = trace s ++ new ∧ frees_nothing new)
  ∧ keeps_blocks s s'.
Proof.
  intros Hd (Hh & Htr & _). split.
  - eexists. split; [done|]. intros p Hp.
    apply elem_of_cons in Hp as [?|Hp]; [done|].
    apply elem_of_cons in Hp as [?|Hp]; [done|]. by apply elem_of_nil in Hp.
  - split.
    + intros p b Hp Hb. rewrite Hh, lookup_insert_ne; [done|].
      intros <-. rewrite Hd in Hp. injection Hp as <-. by eapply Hb.
    + intros p. rewrite Hh, lookup_insert_is_Some.
      split; [intros [<-|[_ ?]]; [by eexists|done]|].
      intros Hp. destruct (decide (d = p)); [by left|by right].
Qed.

(** X1.  [WdfCollectionRemove] on a well-formed collection returns and takes
    out the first item equal to [Item], keeping the order of the others;
    when the collection does not hold [Item] the heap is left as it is. *)
Theorem WdfCollectionRemove_first_occurrence s Collection items Item :
  collection_items (heap s) Collection = Some items →
  Z.of_nat (length items) < 2 ^ 32 →
  ∃ s', WdfCollectionRemove Collection Item s = Some (tt, s')
        ∧ collection_items (heap s') Collection
          = Some (remove_first Item items)
        ∧ ((Item ∉ items) → heap s' = heap s).
Proof.
  intros Hitems Hlen.
  destruct (WdfCollectionRemove_state s Collection items Item Hitems Hlen)
    as (s' & o & c & lock & l & Hrun & Ho & Hc & Hl & Hst & Hitems' & Hsame).
  exists s'. split; [done|]. split; [done|].
  intros Hno. rewrite (Hsame Hno) in Hst. destruct Hst as (Hh & _).
  rewrite Hh.
  destruct (collection_items_inv _ _ _ Hitems)
    as (o' & c' & lock' & Ho' & _ & Hc' & _ & _ & _ & Hn & _).
  assert (o' = o) as -> by congruence.
  assert (c' = c) as -> by congruence.
  rewrite <- Hn. destruct c. by apply insert_id.
Qed.

Lemma WdfCollectionRemove_first_occurrence_witness :
  ∃ s', WdfCollectionRemove 1%N 101%N three_items = Some (tt, s')
        ∧ collection_items (heap s') 1%N = Some [102%N; 101%N].
Proof.
  destruct (WdfCollectionRemove_first_occurrence three_items 1%N
              [101%N; 102%N; 101%N] 101%N)
    as (s' & Hrun & Hitems & _).
  - vm_compute. reflexivity.
  - vm_compute. reflexivity.
  - exists s'. split; [done|]. exact Hitems.
Defined.

(** X2.  Neither [WdfCollectionRemove] nor [WdfCollectionRemoveItem]
    releases the [COLLECTION_ENTRY] it unlinks: no block is freed, every
    block that is not the collection's own payload is still allocated and
    unchanged, while the collection no longer holds the removed item. *)
Theorem collection_removal_frees_nothing s Collection items Item Index :
  collection_items (heap s) Collection = Some items →
  Z.of_nat (length items) < 2 ^ 32 →
  0 <= Index < 2 ^ 32 →
  (∃ s' new,
     WdfCollectionRemove Collection Item s = Some (tt, s')
     ∧ collection_items (heap s') Collection = Some (remove_first Item items)
     ∧ trace s' = trace s ++ new ∧ frees_nothing new ∧ keeps_blocks s s')
  ∧ (∃ s' new,
       WdfCollectionRemoveItem Collection Index s = Some (tt, s')
       ∧ collection_items (heap s') Collection
         = Some (delete (Z.to_nat Index) items)
       ∧ trace s' = trace s ++ new ∧ frees_nothing new ∧ keeps_blocks s s').
Proof.
  intros Hitems Hlen Hidx. split.
  - destruct (WdfCollectionRemove_state s Collection items Item Hitems Hlen)
      as (s' & o & c & lock & l & Hrun & Ho & Hc & Hl & Hst & Hitems' & _).
    destruct (removal_state_keeps _ _ _ _ _ _ Hc Hst)
      as [(new & Htr & Hfree) Hkeep].
    by exists s', new.
  - destruct (WdfCollectionRemoveItem_state s Collection items Index
                Hitems Hlen Hidx)
      as (s' & o & c & lock & Hrun & Ho & Hc & Hl & _ & Hst & Hitems').
    destruct (removal_state_keeps _ _ _ _ _ _ Hc Hst)
      as [(new & Htr & Hfree) Hkeep].
    by exists s', new.
Qed.

Lemma collection_removal_frees_nothing_witness :
  ∃ s', WdfCollectionRemoveItem 1%N 1 three_items = Some (tt, s')
        ∧ collection_items (heap s') 1%N = Some [101%N; 101%N]
        ∧ keeps_blocks three_items s'.
Proof.
  destruct (collection_removal_frees_nothing three_items 1%N
              [101%N; 102%N; 101%N] 101%N 1)
    as [_ (s' & new & Hrun & Hitems & _ & _ & Hkeep)].
  - vm_compute. reflexivity.
  - vm_compute. reflexivity.
  - lia.
  - exists s'. split; [done|]. split; [exact Hitems|done].
Defined.

(** X3.  When the allocator has no memory for the [COLLECTION_ENTRY],
    [WdfCollectionAdd] returns [STATUS_INSUFFICIENT_RESOURCES] without
    taking the lock, and the collection holds the same items as before. *)
Theorem WdfCollectionAdd_allocation_failure s Collection items Object :
  collection_items (heap s) Collection = Some items →
  alloc_fails s = true →
  ∃ s', WdfCollectionAdd Collection Object s
        = Some (STATUS_INSUFFICIENT_RESOURCES, s')
        ∧ heap s' = heap s
        ∧ trace s' = trace s ++ [EvAllocate NULL]
        ∧ collection_items (heap s') Collection = Some items.
Proof.
  intros Hitems Hfail.
  destruct (collection_items_inv _ _ _ Hitems)
    as (o & c & lock & Ho & Hto & _).
  unfold WdfCollectionAdd.
  erewrite bind_run; [|by apply collection_of_run].
  step. rewrite is_null_NULL.
  eexists. split; [reflexivity|]. heap_simpl. done.
Qed.

Lemma WdfCollectionAdd_allocation_failure_witness :
  ∃ s', WdfCollectionAdd 1%N 103%N three_items_exhausted
        = Some (STATUS_INSUFFICIENT_RESOURCES, s')
        ∧ collection_items (heap s') 1%N = Some [101%N; 102%N; 101%N].
Proof.
  destruct (WdfCollectionAdd_allocation_failure three_items_exhausted 1%N
              [101%N; 102%N; 101%N] 103%N)
    as (s' & Hrun & _ & _ & Hitems).
  - vm_compute. reflexivity.
  - reflexivity.
  - exists s'. by split.
Defined.

(** * Further properties of the contexts *)

Lemma delete_insert_fresh (h : gmap N block) p b :
  h !! p = None → delete p (<[p:=b]> h) = h.
Proof. intros H. rewrite delete_insert_eq. by apply delete_id. Qed.

(** What [WdfObjectAllocateContext] does, whatever the allocator answers:
    on success one context with a copy of the descriptor is appended to the
    list of the object; otherwise the heap is as before. *)
Lemma WdfObjectAllocateContext_outcome s Handle attrs Context o ti :
  allocator_ok s →
  heap s !! Handle = Some (BObject o) →
  heap s !! ContextTypeInfo attrs = Some (BTypeInfo ti) →
  ∃ r s' new,
    WdfObjectAllocateContext Handle attrs Context s = Some (r, s')
    ∧ trace s' = trace s ++ new
    ∧ prim_script s' = prim_script s
    ∧ ((¬ failed new ∧ fst r = STATUS_SUCCESS
        ∧ brk s' = N.succ (N.succ (brk s))
        ∧ alloc_script s' = tail (tail (alloc_script s))
        ∧ heap s'
          = <[Handle := BObject (set_ContextList (ContextList o ++ [brk s]) o)]>
              (<[brk s := BContext {| ContextTypeInfoCopy := ti;
                                      ContextData := N.succ (brk s) |}]>
                 (<[N.succ (brk s) := BBytes (ContextSize ti)]> (heap s)))
        ∧ snd r = (if Context then Some (N.succ (brk s)) else None))
       ∨ (failed new ∧ fst r = STATUS_INSUFFICIENT_RESOURCES
          ∧ snd r = None ∧ heap s' = heap s
          ∧ (brk s <= brk s')%N
          ∧ (alloc_fails s = true
             ∨ alloc_fails (allocated (BContext zero_context) s) = true))).
Proof.
  intros Hok Ho Hti.
  destruct (allocator_ok_lookup _ _ _ Hok Ho) as [Hbrk HH].
  destruct (allocator_ok_lookup _ _ _ Hok Hti) as [_ HT].
  pose proof (allocator_ok_fresh _ (brk s) Hok ltac:(lia)) as Hfresh.
  unfold WdfObjectAllocateContext.
  destruct (alloc_fails s) eqn:E1.
  { step. rewrite is_null_NULL. cbn [ret].
    eexists _, _, _. split; [reflexivity|]. heap_simpl.
    split; [done|]. split; [done|]. right.
    split; [solve_failed|]. do 3 (split; [done|]). split; [lia|by left]. }
  step. rewrite is_null_false by solve_neq. step.
  destruct (alloc_fails (allocated (BContext zero_context) s)) eqn:E2.
  { step. step. rewrite is_null_NULL. step. cbn [ret].
    eexists _, _, _. split; [reflexivity|]. heap_simpl.
    split; [by rewrite <- !app_assoc|]. split; [done|]. right.
    split; [solve_failed|]. do 2 (split; [done|]).
    split; [rewrite insert_insert_eq; by apply delete_insert_fresh|].
    split; [lia|by right]. }
  step. step. rewrite is_null_false by (heap_simpl; solve_neq).
  do 6 step. cbn [ret].
  eexists _, _, _. split; [reflexivity|]. heap_simpl.
  split; [by rewrite <- !app_assoc|]. split; [done|]. left.
  split; [cbn [app]; solve_not_failed|]. do 3 (split; [done|]).
  split; [|done].
  apply map_eq. intros q.
  destruct (decide (q = Handle)) as [->|Hq1]; [by rewrite !lookup_insert_eq|].
  rewrite (lookup_insert_ne _ Handle) by done.
  rewrite (lookup_insert_ne _ Handle) by done.
  destruct (decide (q = brk s)) as [->|Hq2].
  { by rewrite !lookup_insert_eq. }
  rewrite !(lookup_insert_ne _ (brk s)) by done.
  destruct (decide (q = N.succ (brk s))) as [->|Hq3].
  { by rewrite !lookup_insert_eq. }
  by rewrite !lookup_insert_ne by done.
Qed.

(** X4.  [WdfObjectAllocateContext] returns [STATUS_SUCCESS] when both of
    its allocations succeed and [STATUS_INSUFFICIENT_RESOURCES] otherwise;
    in the second case it has released what it had allocated: the heap is
    as before the call, the object has no new context and nothing is
    written through [Context]. *)
Theorem WdfObjectAllocateContext_failure_restores_heap
    s Handle attrs Context o ti :
  allocator_ok s →
  heap s !! Handle = Some (BObject o) →
  heap s !! ContextTypeInfo attrs = Some (BTypeInfo ti) →
  ∃ r s' new,
    WdfObjectAllocateContext Handle attrs Context s = Some (r, s')
    ∧ trace s' = trace s ++ new
    ∧ (¬ failed new → fst r = STATUS_SUCCESS)
    ∧ (failed new →
       fst r = STATUS_INSUFFICIENT_RESOURCES ∧ snd r = None
       ∧ heap s' = heap s).
Proof.
  intros Hok Ho Hti.
  destruct (WdfObjectAllocateContext_outcome s Handle attrs Context o ti
              Hok Ho Hti)
    as (r & s' & new & Hrun & Htr & _ & [(Hnf & Hst & _)|(Hf & Hst & Hr & Hh & _)]).
  - exists r, s', new. do 2 (split; [done|]). split; [done|].
    intros Hf. by destruct Hnf.
  - exists r, s', new. do 2 (split; [done|]). split; [|done].
    intros Hnf. by destruct Hnf.
Qed.

Lemma WdfObjectAllocateContext_failure_restores_heap_witness :
  ∃ r s',
    WdfObjectAllocateContext 16%N (attributes NULL 3%N) true
      lock_before_exhaustion
    = Some (r, s')
    ∧ fst r = STATUS_INSUFFICIENT_RESOURCES
    ∧ heap s' = heap lock_before_exhaustion.
Proof.
  destruct (WdfObjectAllocateContext_failure_restores_heap
              lock_before_exhaustion 16%N (attributes NULL 3%N) true
              (object_at (heap lock_before_exhaustion) 16%N)
              {| ContextName := 200%N; ContextSize := 4%N |})
    as (r & s' & new & Hrun & Htr & _ & Hfail).
  - refine (bool_decide_unpack _ _). vm_compute. exact I.
  - vm_compute. reflexivity.
  - vm_compute. reflexivity.
  - exists r, s'. split; [done|].
    assert (Hf : failed new).
    { left. vm_compute in Hrun. injection Hrun as <- <-.
      vm_compute in Htr. injection Htr as <-.
      apply list_elem_of_further, list_elem_of_here. }
    destruct (Hfail Hf) as (? & _ & ?). by split.
Defined.

Lemma first_match_app_new name cs c :
  Forall (λ c, ContextName (ContextTypeInfoCopy c) ≠ name) cs →
  ContextName (ContextTypeInfoCopy c) = name →
  first_match name (cs ++ [c]) = ContextData c.
Proof.
  unfold first_match. intros Hcs Hn.
  induction Hcs as [|c' cs Hc' _ IH]; cbn [app find].
  - by rewrite bool_decide_eq_true_2.
  - by rewrite bool_decide_eq_false_2.
Qed.

Lemma first_match_app_old name cs l :
  Exists (λ c, ContextName (ContextTypeInfoCopy c) = name) cs →
  first_match name (cs ++ l) = first_match name cs.
Proof.
  unfold first_match.
  induction 1 as [c cs Hc|c cs _ IH]; cbn [app find].
  - by rewrite bool_decide_eq_true_2.
  - by destruct (bool_decide _).
Qed.

Lemma contexts_at_frame h h' l cs :
  contexts_at h l = Some cs →
  (∀ p c, h !! p = Some (BContext c) → h' !! p = Some (BContext c)) →
  contexts_at h' l = Some cs.
Proof.
  intros Hcs Hfr. revert cs Hcs.
  induction l as [|p l IH]; intros cs Hcs; [done|]. cbn [contexts_at] in *.
  destruct (h !! p) as [[]|] eqn:Hp; try done.
  destruct (contexts_at h l) as [cs'|]; [|done].
  by rewrite (Hfr _ _ Hp), (IH _ eq_refl).
Qed.

(** X5.  When the allocator serves its requests, [WdfObjectAllocateContext]
    succeeds and hands out a data block that is not [NULL].  It does not
    look for a context of the same name: a following lookup with the same
    descriptor returns the new block when no context of that name was
    attached before, and otherwise still returns the block of the context
    that was attached first. *)
Theorem attach_then_lookup s Handle attrs o ti cs :
  allocator_ok s → never_fails s →
  heap s !! Handle = Some (BObject o) →
  heap s !! ContextTypeInfo attrs = Some (BTypeInfo ti) →
  contexts_at (heap s) (ContextList o) = Some cs →
  ∃ p s1 found s2,
    WdfObjectAllocateContext Handle attrs true s
    = Some ((STATUS_SUCCESS, Some p), s1)
    ∧ p ≠ NULL
    ∧ WdfObjectGetTypedContextWorker Handle (ContextTypeInfo attrs) s1
      = Some (found, s2)
    ∧ (Forall (λ c, ContextName (ContextTypeInfoCopy c) ≠ ContextName ti) cs →
       found = p)
    ∧ (Exists (λ c, ContextName (ContextTypeInfoCopy c) = ContextName ti) cs →
       found = first_match (ContextName ti) cs).
Proof.
  intros Hok Hnf Ho Hti Hcs.
  destruct (allocator_ok_lookup _ _ _ Hok Ho) as [Hbrk HH].
  destruct (allocator_ok_lookup _ _ _ Hok Hti) as [_ HT].
  destruct (WdfObjectAllocateContext_outcome s Handle attrs true o ti
              Hok Ho Hti)
    as ([st out] & s1 & new & Hrun & Htr & _ & Hcase).
  cbn [fst snd] in Hcase.
  destruct Hcase as [(_ & -> & _ & _ & Hh & ->)|(_ & _ & _ & _ & _ & Hfail)];
    cycle 1.
  { exfalso. destruct Hfail as [Hf|Hf].
    - by rewrite never_fails_alloc in Hf.
    - rewrite never_fails_alloc in Hf; [done|].
      by eapply never_fails_tail. }
  set (c := {| ContextTypeInfoCopy := ti; ContextData := N.succ (brk s) |}).
  assert (Hcs1 : contexts_at (heap s1) (ContextList o ++ [brk s])
                 = Some (cs ++ [c])).
  { apply contexts_at_app.
    - eapply contexts_at_frame; [exact Hcs|]. intros p c' Hp.
      destruct (allocator_ok_lookup _ _ _ Hok Hp) as [_ Hlt].
      rewrite Hh, !lookup_insert_ne; [done|lia|lia|congruence].
    - cbn [contexts_at]. rewrite Hh.
      by rewrite lookup_insert_ne, lookup_insert_eq by lia. }
  exists (N.succ (brk s)), s1. eexists _, _.
  split; [done|]. split; [unfold NULL; lia|]. split.
  - eapply (WdfObjectGetTypedContextWorker_run s1 Handle _ _ ti (cs ++ [c])).
    + rewrite Hh. by rewrite lookup_insert_eq.
    + rewrite Hh, !lookup_insert_ne; [done|lia|lia|congruence].
    + done.
  - split.
    + intros Hno. by apply first_match_app_new.
    + intros Hex. by apply first_match_app_old.
Qed.

Lemma attach_then_lookup_witness :
  ∃ p s1 found s2,
    WdfObjectAllocateContext 16%N (attributes NULL 3%N) true
      (state_after create_lock_with_context (boot_with []))
    = Some ((STATUS_SUCCESS, Some p), s1)
    ∧ p ≠ NULL
    ∧ WdfObjectGetTypedContextWorker 16%N 3%N s1 = Some (found, s2)
    ∧ found = 19%N ∧ p ≠ found.
Proof.
  pose (ti := {| ContextName := 200%N; ContextSize := 4%N |}).
  destruct (attach_then_lookup
              (state_after create_lock_with_context (boot_with []))
              16%N (attributes NULL 3%N)
              (object_at
                 (heap (state_after create_lock_with_context (boot_with [])))
                 16%N)
              ti [{| ContextTypeInfoCopy := ti; ContextData := 19%N |}])
    as (p & s1 & found & s2 & Hrun & Hp & Hlook & _ & Hold).
  - refine (bool_decide_unpack _ _). vm_compute. exact I.
  - refine (bool_decide_unpack _ _). vm_compute. exact I.
  - vm_compute. reflexivity.
  - vm_compute. reflexivity.
  - vm_compute. reflexivity.
  - exists p, s1, found, s2. do 3 (split; [done|]).
    assert (Hf : found = 19%N).
    { rewrite Hold; [done|]. by left. }
    split; [done|]. vm_compute in Hrun. injection Hrun as <- _.
    by rewrite Hf.
Defined.

(** * Further properties of creation *)

Lemma prims_ok_prim s : prims_ok s → prim_fails s = false.
Proof.
  unfold prims_ok, prim_fails. intros H.
  destruct (prim_script s) as [|[] ?]; try done.
  by apply Forall_cons in H as [? _].
Qed.

Lemma prims_ok_tail s s' :
  prims_ok s → prim_script s' = tail (prim_script s) → prims_ok s'.
Proof.
  unfold prims_ok. intros H ->. destruct (prim_script s); [done|].
  by apply Forall_cons in H as [_ ?].
Qed.

(** [DmfPlatformObjectCreate] when the allocation succeeds: the new object
    and, if there is one, the parent. *)
Lemma DmfPlatformObjectCreate_state s Parent cb :
  allocator_ok s → alloc_fails s = false →
  (Parent = NULL ∨ Parent ≠ NULL ∧ ∃ P, heap s !! Parent = Some (BObject P)) →
  ∃ s1 new1,
    DmfPlatformObjectCreate Parent cb s = Some (brk s, s1)
    ∧ brk s1 = N.succ (brk s)
    ∧ alloc_script s1 = tail (alloc_script s)
    ∧ prim_script s1 = prim_script s
    ∧ trace s1 = trace s ++ new1 ∧ ¬ failed new1
    ∧ heap s1 !! brk s = Some (BObject (new_object cb Parent))
    ∧ (∀ q, q ≠ brk s → Parent = NULL ∨ q ≠ Parent →
         heap s1 !! q = heap s !! q)
    ∧ (∀ P, Parent ≠ NULL → heap s !! Parent = Some (BObject P) →
         heap s1 !! Parent = Some (BObject (adopt (brk s) P)))
    ∧ (∀ q, is_Some (heap s1 !! q) → is_Some (heap s !! q) ∨ q = brk s).
Proof.
  intros Hok Hfail HP. pose proof (proj1 Hok) as Hbrk.
  unfold DmfPlatformObjectCreate.
  step. rewrite is_null_false by solve_neq.
  do 6 step. change (is_null (ChildListEntry zero_object)) with true.
  cbn [DmfAssert]. step. step.
  destruct HP as [->|(HPnn & P & HP)].
  - rewrite is_null_NULL. cbn [negb when]. step. cbn [ret].
    eexists _, _. split; [reflexivity|]. heap_simpl.
    do 3 (split; [done|]).
    split; [by rewrite <- !app_assoc|]. split; [solve_not_failed|].
    split; [solve_lookup|].
    split; [intros q Hq _; by rewrite !lookup_insert_ne|].
    split; [done|]. intros q. solve_below.
  - destruct (allocator_ok_lookup _ _ _ Hok HP) as [_ HPlt].
    rewrite is_null_false by done. cbn [negb when].
    erewrite bind_run; cycle 1.
    { do 4 step. reflexivity. }
    cbn [ret].
    eexists _, _. split; [reflexivity|]. heap_simpl.
    do 3 (split; [done|]).
    split; [by rewrite <- !app_assoc|]. split; [solve_not_failed|].
    split; [solve_lookup|].
    split; [intros q Hq [?|HqP]; [done|]; by rewrite !lookup_insert_ne|].
    split.
    + intros P' _ HP'. assert (P' = P) as -> by congruence.
      solve_lookup.
    + intros q. solve_below.
Qed.

(** X6.  [DmfPlatformObjectCreate] with a parent: when the allocation fails
    it returns [NULL] and leaves the heap as it is; otherwise the new object
    has reference count 1 and empty lists, it is linked at the tail of the
    parent's [ChildList], the parent's [NumberOfChildren] is incremented,
    and no other block changes. *)
Theorem DmfPlatformObjectCreate_links_child s Parent P cb :
  allocator_ok s →
  Parent ≠ NULL →
  heap s !! Parent = Some (BObject P) →
  ∃ child s',
    DmfPlatformObjectCreate Parent cb s = Some (child, s')
    ∧ (alloc_fails s = true → child = NULL ∧ heap s' = heap s)
    ∧ (alloc_fails s = false →
       child = brk s
       ∧ heap s' !! child = Some (BObject (new_object cb Parent))
       ∧ heap s' !! Parent = Some (BObject (adopt child P))
       ∧ ∀ q, q ≠ child → q ≠ Parent → heap s' !! q = heap s !! q).
Proof.
  intros Hok HPnn HP. destruct (alloc_fails s) eqn:Hfail.
  - exists NULL, (alloc_failed s).
    split; [by apply DmfPlatformObjectCreate_fail|]. split; [done|done].
  - destruct (DmfPlatformObjectCreate_state s Parent cb Hok Hfail)
      as (s1 & new1 & Hrun & _ & _ & _ & _ & _ & Hchild & Hframe & Hparent & _).
    { right. split; [done|by eexists]. }
    exists (brk s), s1. split; [done|]. split; [done|]. intros _.
    split; [done|]. split; [done|]. split; [by apply Hparent|].
    intros q Hq HqP. apply Hframe; [done|by right].
Qed.

Lemma DmfPlatformObjectCreate_links_child_witness :
  ∃ child s',
    DmfPlatformObjectCreate 16%N None
      (state_after (WdfMemoryCreate None 8%N false) (boot_with []))
    = Some (child, s')
    ∧ child = 19%N
    ∧ ChildList (object_at (heap s') 16%N) = [19%N]
    ∧ NumberOfChildren (object_at (heap s') 16%N) = 1.
Proof.
  destruct (DmfPlatformObjectCreate_links_child
              (state_after (WdfMemoryCreate None 8%N false) (boot_with []))
              16%N
              (object_at
                 (heap (state_after (WdfMemoryCreate None 8%N false)
                          (boot_with []))) 16%N)
              None)
    as (child & s' & Hrun & _ & Hok).
  - refine (bool_decide_unpack _ _). vm_compute. exact I.
  - done.
  - vm_compute. reflexivity.
  - exists child, s'. split; [done|].
    destruct (Hok eq_refl) as (-> & _ & HP & _).
    split; [reflexivity|]. unfold object_at. rewrite HP.
    split; reflexivity.
Defined.

(** ** [CustomContextAllocate] as the last step of a creation *)

Lemma no_context_run s p Attributes :
  no_context (heap s) Attributes →
  CustomContextAllocate p Attributes s = Some (STATUS_SUCCESS, s).
Proof.
  unfold CustomContextAllocate.
  destruct Attributes as [a|]; [|done].
  intros [->|(ti & Hti & Hsize)]; [by rewrite is_null_NULL|].
  destruct (is_null (ContextTypeInfo a)); [done|].
  step. by rewrite Hsize.
Qed.

Lemma CustomContextAllocate_state s p Attributes o :
  allocator_ok s →
  heap s !! p = Some (BObject o) →
  match Attributes with
  | None => True
  | Some attributes =>
      ContextTypeInfo attributes = NULL
      ∨ ∃ ti, heap s !! ContextTypeInfo attributes = Some (BTypeInfo ti)
  end →
  ∃ st s' l,
    CustomContextAllocate p Attributes s = Some (st, s')
    ∧ prim_script s' = prim_script s
    ∧ heap s' !! p = Some (BObject (set_ContextList l o))
    ∧ (∀ q, q ≠ p → (q < brk s)%N → heap s' !! q = heap s !! q)
    ∧ allocator_ok s' ∧ (brk s <= brk s')%N
    ∧ (never_fails s → never_fails s' ∧ st = STATUS_SUCCESS)
    ∧ (no_context (heap s) Attributes → s' = s ∧ st = STATUS_SUCCESS)
    ∧ (st = STATUS_SUCCESS
       ∨ st = STATUS_INSUFFICIENT_RESOURCES ∧ heap s' = heap s).
Proof.
  intros Hok Ho Hattr.
  assert (Hsame : ∀ st, st = STATUS_SUCCESS →
            CustomContextAllocate p Attributes s = Some (st, s) →
            ∃ st s' l,
              CustomContextAllocate p Attributes s = Some (st, s')
              ∧ prim_script s' = prim_script s
              ∧ heap s' !! p = Some (BObject (set_ContextList l o))
              ∧ (∀ q, q ≠ p → (q < brk s)%N → heap s' !! q = heap s !! q)
              ∧ allocator_ok s' ∧ (brk s <= brk s')%N
              ∧ (never_fails s → never_fails s' ∧ st = STATUS_SUCCESS)
              ∧ (no_context (heap s) Attributes → s' = s ∧ st = STATUS_SUCCESS)
              ∧ (st = STATUS_SUCCESS
                 ∨ st = STATUS_INSUFFICIENT_RESOURCES ∧ heap s' = heap s)).
  { intros st -> Hrun. exists STATUS_SUCCESS, s, (ContextList o).
    split; [done|]. split; [done|].
    split; [by destruct o|]. split; [done|]. split; [done|].
    split; [lia|]. split; [done|]. split; [done|by left]. }
  destruct Attributes as [a|]; [|by eapply Hsame].
  destruct Hattr as [Hn|(ti & Hti)].
  { eapply Hsame; [done|]. apply no_context_run. by left. }
  destruct (decide (ContextSize ti = 0%N)) as [Hz|Hnz].
  { eapply Hsame; [done|]. apply no_context_run. right. by exists ti. }
  destruct (is_null (ContextTypeInfo a)) eqn:Hnull.
  { eapply Hsame; [done|]. apply no_context_run. left.
    by apply is_null_true. }
  assert (Hwants : ¬ no_context (heap s) (Some a)).
  { intros [Hn|(ti' & Hti' & Hz)].
    - by rewrite Hn in Hnull.
    - congruence. }
  destruct (allocator_ok_lookup _ _ _ Hok Ho) as [Hbrk HH].
  destruct (allocator_ok_lookup _ _ _ Hok Hti) as [_ HT].
  destruct (WdfObjectAllocateContext_outcome s p a false o ti Hok Ho Hti)
    as (r & s' & new & Hrun & _ & Hps & Hcase).
  unfold CustomContextAllocate. rewrite Hnull. step.
  rewrite bool_decide_eq_true_2 by lia.
  rewrite (bind_run _ _ _ _ _ Hrun). cbn [ret].
  destruct Hcase as [(_ & Hst & Hb & Has & Hh & _)
                    |(_ & Hst & _ & Hh & Hb & Hfail)].
  - exists (fst r), s', (ContextList o ++ [brk s]).
    split; [done|]. split; [done|].
    split; [by rewrite Hh, lookup_insert_eq|].
    split; [intros q Hq Hlt; rewrite Hh, !lookup_insert_ne by lia; done|].
    split.
    { eapply allocator_ok_step; [done|lia|]. intros q. rewrite Hh, Hb.
      repeat rewrite lookup_insert_is_Some.
      intuition (subst; first [by left|right; lia|by auto]). }
    split; [lia|]. split; [|split; [done|by left]].
    intros Hnf. split; [|done].
    unfold never_fails in *. rewrite Has.
    destruct (alloc_script s) as [|? [|? ?]]; [done|done|].
    by do 2 apply Forall_cons in Hnf as [_ Hnf].
  - exists (fst r), s', (ContextList o).
    split; [done|]. split; [done|].
    split; [rewrite Hh; by destruct o|].
    split; [intros q _ _; by rewrite Hh|].
    split.
    { eapply allocator_ok_step; [done|done|]. intros q. rewrite Hh. by left. }
    split; [done|]. split; [|split; [done|by right]].
    intros Hnf. exfalso.
    destruct Hfail as [Hf|Hf].
    + by rewrite never_fails_alloc in Hf.
    + rewrite never_fails_alloc in Hf; [done|]. by eapply never_fails_tail.
Qed.

(** * Successful creation *)

Lemma Forall_tail {A} (P : A → Prop) l : Forall P l → Forall P (tail l).
Proof. destruct 1; [done|done]. Qed.

(** Run an allocation that cannot fail because the allocator never does. *)
Ltac alloc_ok Hnf :=
  assoc;
  lazymatch goal with
  | |- context [bind (DMF_Platform_Allocate ?z) ?k ?s1] =>
      let E := fresh "E" in
      assert (E : alloc_fails s1 = false)
        by (apply never_fails_alloc; unfold never_fails; heap_simpl;
            repeat apply Forall_tail; exact Hnf);
      step; clear E
  end.

Ltac prim_ok Hpo :=
  assoc;
  lazymatch goal with
  | |- context [bind Platform_PrimitiveCreate ?k ?s1] =>
      let E := fresh "E" in
      assert (E : prim_fails s1 = false)
        by (apply prims_ok_prim; unfold prims_ok; heap_simpl;
            repeat apply Forall_tail; exact Hpo);
      step; heap_simpl; rewrite E; cbn [negb]; clear E
  end.

Lemma ObjectAttributes_with_attributes Attributes o :
  ObjectAttributes o = zero_attributes →
  ObjectAttributes (with_attributes Attributes o)
  = default zero_attributes Attributes.
Proof. by destruct Attributes. Qed.

Lemma with_attributes_fields Attributes o :
  ReferenceCount (with_attributes Attributes o) = ReferenceCount o
  ∧ ObjectDelete (with_attributes Attributes o) = ObjectDelete o
  ∧ ChildList (with_attributes Attributes o) = ChildList o
  ∧ NumberOfChildren (with_attributes Attributes o) = NumberOfChildren o
  ∧ ChildListEntry (with_attributes Attributes o) = ChildListEntry o
  ∧ ContextList (with_attributes Attributes o) = ContextList o.
Proof. by destruct Attributes. Qed.

(** The prologue shared by the creation functions on the path where
    nothing fails. *)
Lemma creation_start s Attributes :
  allocator_ok s → attributes_ok (heap s) Attributes = true →
  (parent_of Attributes = NULL
   ∨ parent_of Attributes ≠ NULL
     ∧ ∃ P, heap s !! parent_of Attributes = Some (BObject P))
  ∧ match Attributes with
    | None => True
    | Some attributes =>
        ContextTypeInfo attributes = NULL
        ∨ (ContextTypeInfo attributes < brk s)%N
          ∧ ContextTypeInfo attributes ≠ parent_of Attributes
          ∧ ∃ ti, heap s !! ContextTypeInfo attributes = Some (BTypeInfo ti)
    end.
Proof.
  intros Hok Hattr.
  destruct (creation_ready _ _ Hok Hattr) as (_ & HP & Hti). split; [|done].
  destruct HP as [?|(? & _ & ?)]; [by left|by right].
Qed.

(** The end of a successful creation: [CustomContextAllocate] on the new
    object at [brk s], in the state [sn] the function has reached. *)
Lemma creation_finish {R} (f : NTSTATUS → R) t fn Attributes s sn o
    (k : NTSTATUS → M R) :
  (∀ st s', k st s' = Some (f st, s')) →
  allocator_ok s → never_fails sn → (prims_ok s → prims_ok sn) →
  allocator_ok sn →
  (brk s < brk sn)%N →
  heap sn !! brk s = Some (BObject o) →
  PlatformObjectType o = t → Data o = N.succ (brk s) →
  ObjectAttributes o = default zero_attributes Attributes →
  ReferenceCount o = 1 → ObjectDelete o = fn → ChildList o = [] →
  NumberOfChildren o = 0 → ChildListEntry o = parent_of Attributes →
  (∀ q, (q < brk s)%N → parent_of Attributes = NULL ∨ q ≠ parent_of Attributes →
        heap sn !! q = heap s !! q) →
  (∀ P, parent_of Attributes ≠ NULL →
        heap s !! parent_of Attributes = Some (BObject P) →
        heap sn !! parent_of Attributes = Some (BObject (adopt (brk s) P))) →
  match Attributes with
  | None => True
  | Some attributes =>
      ContextTypeInfo attributes = NULL
      ∨ (ContextTypeInfo attributes < brk s)%N
        ∧ ContextTypeInfo attributes ≠ parent_of Attributes
        ∧ ∃ ti, heap s !! ContextTypeInfo attributes = Some (BTypeInfo ti)
  end →
  ∃ s', bind (CustomContextAllocate (brk s) Attributes) k sn
        = Some (f STATUS_SUCCESS, s')
        ∧ created t fn Attributes s s' (brk s)
        ∧ (∀ q, q ≠ brk s → (q < brk sn)%N → heap s' !! q = heap sn !! q)
        ∧ (no_context (heap s) Attributes → s' = sn).
Proof.
  intros Hk Hok Hnf Hpo Hokn Hb Ho Ht Hd Ha Hrc Hfn Hcl Hnc Hce Hfr Hpar Hti.
  destruct (CustomContextAllocate_state sn (brk s) Attributes o Hokn Ho)
    as (st & s' & l & Hrun & Hps & Ho' & Hfr' & Hok' & Hb' & Hnf' & Hno & _).
  { destruct Attributes as [a|]; [|done].
    destruct Hti as [?|(Hlt & Hne & ti & Hti)]; [by left|right].
    exists ti. rewrite Hfr; [done|done|]. right. done. }
  destruct (Hnf' Hnf) as [Hnf'' ->].
  rewrite (bind_run _ _ _ _ _ Hrun), Hk.
  exists s'. split; [done|]. split; [|split; [done|]].
  - split; [done|]. split.
    { eexists. split; [exact Ho'|]. by field_simpl. }
    split.
    { intros q Hq Hqp. rewrite Hfr' by lia. by apply Hfr. }
    split.
    { intros P HPn HP.
      destruct (allocator_ok_lookup _ _ _ Hok HP) as [_ HPlt].
      rewrite Hfr' by lia. by apply Hpar. }
    split; [done|]. split; [done|].
    intros Hp. specialize (Hpo Hp). unfold prims_ok in *. by rewrite Hps.
  - intros Hnoc. apply Hno. destruct Attributes as [a|]; [|done].
    destruct Hti as [Hn|(Hlt & Hne & _)]; [by left|].
    destruct Hnoc as [?|(ti & Hti' & Hz)]; [by left|right]. exists ti.
    split; [|done]. rewrite Hfr; [done|done|by right].
Qed.

(** The common start: the object has been created and the run continues
    from a state whose components are named. *)
Ltac start_creation Hok Hnf Hattr :=
  let HP := fresh "HP" in
  let Hti := fresh "Hti" in
  destruct (creation_start _ _ Hok Hattr) as (HP & Hti);
  cbv zeta;
  lazymatch goal with
  | |- context [bind (DmfPlatformObjectCreate ?P ?cb) _ ?s] =>
      let s1 := fresh "s1" in
      let Hrun := fresh "Hrun" in
      destruct (DmfPlatformObjectCreate_state s P cb Hok
                  (never_fails_alloc _ Hnf) HP)
        as (s1 & ?new1 & Hrun & ?Hb1 & ?Has1 & ?Hps1 & _ & _ & ?Ho1
            & ?Hframe & ?Hparent & ?Hdom);
      erewrite bind_run; [|exact Hrun]; clear Hrun;
      rewrite is_null_false by (pose proof (proj1 Hok); solve_neq);
      destruct s1 as [?h1 ?b1 ?as1 ?ps1 ?t1]; heap_simpl; subst
  end.

(** The common end: apply [creation_finish] in the state reached. *)
Ltac finish_creation f t fn Hok Hnf Hti Hframe Hparent Hdom :=
  lazymatch goal with
  | |- ∃ s', bind (CustomContextAllocate (brk ?s) ?A) ?k ?sn = _ ∧ _ =>
      lazymatch sn with
      | context [insert (brk s) (BObject ?o)] =>
          destruct (creation_finish f t fn A s sn o k)
            as (?s' & ?Hrun & ?Hcr & ?Hfr & ?Hno)
      end;
      [ done
      | exact Hok
      | unfold never_fails; heap_simpl; repeat apply Forall_tail; exact Hnf
      | let Hpo := fresh "Hpo" in
        intros Hpo; unfold prims_ok; heap_simpl; repeat apply Forall_tail;
        exact Hpo
      | eapply allocator_ok_step; [exact Hok|heap_simpl; lia|];
        let q := fresh "q" in
        intros q; heap_simpl;
        repeat (rewrite lookup_insert_is_Some || rewrite lookup_delete_is_Some);
        pose proof (Hdom q);
        intuition (subst; first [by left | right; lia | by auto])
      | heap_simpl; lia
      | solve_lookup
      | by destruct A | by destruct A | by destruct A | by destruct A
      | by destruct A | by destruct A | by destruct A | by destruct A
      | let q := fresh "q" in
        intros q ? ?; heap_simpl; rewrite !lookup_insert_ne by lia;
        apply Hframe; [lia|done]
      | let P := fresh "P" in
        let HP := fresh "HP" in
        intros P ? HP;
        destruct (allocator_ok_lookup _ _ _ Hok HP) as [_ ?];
        heap_simpl; rewrite !lookup_insert_ne by lia; by apply Hparent
      | exact Hti
      | ]
  end.

Lemma WdfWaitLockCreate_success s Attributes :
  allocator_ok s → never_fails s → prims_ok s →
  attributes_ok (heap s) Attributes = true →
  ∃ s', WdfWaitLockCreate Attributes s
        = Some (STATUS_SUCCESS, Some (brk s), s')
        ∧ created DmfPlatformObjectTypeWaitLock
            (Some DmfPlatformWdfWaitLockDelete_fn) Attributes s s' (brk s)
        ∧ heap s' !! N.succ (brk s)
          = Some (BPrimitive DmfPlatformObjectTypeWaitLock)
        ∧ (no_context (heap s) Attributes → brk s' = (brk s + 2)%N).
Proof.
  intros Hok Hnf Hpo Hattr. pose proof (proj1 Hok) as Hbrk.
  unfold WdfWaitLockCreate. start_creation Hok Hnf Hattr.
  alloc_ok Hnf. step. rewrite is_null_false by (heap_simpl; solve_neq).
  step. prim_ok Hpo. run_copy_attributes. heap_simpl.
  finish_creation (λ st : NTSTATUS, (st, Some (brk s)))
    DmfPlatformObjectTypeWaitLock
    (Some DmfPlatformWdfWaitLockDelete_fn) Hok Hnf Hti Hframe Hparent Hdom.
  exists s'. split; [done|]. split; [done|]. split.
  - rewrite Hfr by (heap_simpl; lia). solve_lookup.
  - intros Hn. rewrite (Hno Hn). heap_simpl. lia.
Qed.

Lemma WdfSpinLockCreate_success s Attributes :
  allocator_ok s → never_fails s → prims_ok s →
  attributes_ok (heap s) Attributes = true →
  ∃ s', WdfSpinLockCreate Attributes s
        = Some (STATUS_SUCCESS, Some (brk s), s')
        ∧ created DmfPlatformObjectTypeSpinLock
            (Some DmfPlatformWdfSpinLockDelete_fn) Attributes s s' (brk s)
        ∧ heap s' !! N.succ (brk s)
          = Some (BPrimitive DmfPlatformObjectTypeSpinLock)
        ∧ (no_context (heap s) Attributes → brk s' = (brk s + 2)%N).
Proof.
  intros Hok Hnf Hpo Hattr. pose proof (proj1 Hok) as Hbrk.
  unfold WdfSpinLockCreate. start_creation Hok Hnf Hattr.
  alloc_ok Hnf. step. rewrite is_null_false by (heap_simpl; solve_neq).
  step. prim_ok Hpo. run_copy_attributes. heap_simpl.
  finish_creation (λ st : NTSTATUS, (st, Some (brk s)))
    DmfPlatformObjectTypeSpinLock
    (Some DmfPlatformWdfSpinLockDelete_fn) Hok Hnf Hti Hframe Hparent Hdom.
  exists s'. split; [done|]. split; [done|]. split.
  - rewrite Hfr by (heap_simpl; lia). solve_lookup.
  - intros Hn. rewrite (Hno Hn). heap_simpl. lia.
Qed.

Lemma create_deferred_success t fn s Attributes :
  allocator_ok s → never_fails s → prims_ok s →
  attributes_ok (heap s) Attributes = true →
  ∃ s', create_deferred t fn Attributes s
        = Some (STATUS_SUCCESS, Some (brk s), s')
        ∧ created t (Some fn) Attributes s s' (brk s)
        ∧ heap s' !! N.succ (brk s) = Some (BPrimitive t)
        ∧ (no_context (heap s) Attributes → brk s' = (brk s + 2)%N).
Proof.
  intros Hok Hnf Hpo Hattr. pose proof (proj1 Hok) as Hbrk.
  unfold create_deferred. start_creation Hok Hnf Hattr.
  alloc_ok Hnf. step. rewrite is_null_false by (heap_simpl; solve_neq).
  step. run_copy_attributes. prim_ok Hpo. heap_simpl.
  finish_creation (λ st : NTSTATUS, (st, Some (brk s)))
    t (Some fn) Hok Hnf Hti Hframe Hparent Hdom.
  exists s'. split; [done|]. split; [done|]. split.
  - rewrite Hfr by (heap_simpl; lia). solve_lookup.
  - intros Hn. rewrite (Hno Hn). heap_simpl. lia.
Qed.

Lemma WdfMemoryCreate_success s Attributes BufferSize Buffer :
  allocator_ok s → never_fails s →
  attributes_ok (heap s) Attributes = true →
  ∃ s', WdfMemoryCreate Attributes BufferSize Buffer s
        = Some (STATUS_SUCCESS, Some (brk s),
                if Buffer then Some (N.succ (N.succ (brk s))) else None, s')
        ∧ created DmfPlatformObjectTypeMemory
            (Some DmfPlatformWdfMemoryDelete_fn) Attributes s s' (brk s)
        ∧ heap s' !! N.succ (brk s)
          = Some (BMemory {| DataMemory := N.succ (N.succ (brk s));
                             NeedToDeallocate := true;
                             Size := BufferSize |})
        ∧ heap s' !! N.succ (N.succ (brk s)) = Some (BBytes BufferSize)
        ∧ (no_context (heap s) Attributes → brk s' = (brk s + 3)%N).
Proof.
  intros Hok Hnf Hattr. pose proof (proj1 Hok) as Hbrk.
  unfold WdfMemoryCreate. start_creation Hok Hnf Hattr.
  alloc_ok Hnf. step. rewrite is_null_false by (heap_simpl; solve_neq).
  step. run_copy_attributes. alloc_ok Hnf. step.
  rewrite is_null_false by (heap_simpl; solve_neq).
  do 3 step. heap_simpl.
  finish_creation (λ st : NTSTATUS,
                     (st, Some (brk s),
                      if Buffer then Some (N.succ (N.succ (brk s))) else None))
    DmfPlatformObjectTypeMemory
    (Some DmfPlatformWdfMemoryDelete_fn) Hok Hnf Hti Hframe Hparent Hdom.
  exists s'. split; [done|]. split; [done|]. split; [|split].
  - rewrite Hfr by (heap_simpl; lia). solve_lookup.
  - rewrite Hfr by (heap_simpl; lia). solve_lookup.
  - intros Hn. rewrite (Hno Hn). heap_simpl. lia.
Qed.

(** * What can be done with a new object *)

Lemma ParentObject_default Attributes :
  ParentObject (default zero_attributes Attributes) = parent_of Attributes.
Proof. by destruct Attributes. Qed.

(** X7.  When the allocator serves its requests, [WdfMemoryCreate] returns
    [STATUS_SUCCESS] with a handle and a buffer that is a new block of
    [BufferSize] bytes, and [WdfMemoryGetBuffer] on that handle returns this
    buffer and this size. *)
Theorem WdfMemoryCreate_GetBuffer_round_trip s Attributes BufferSize :
  allocator_ok s → never_fails s →
  attributes_ok (heap s) Attributes = true →
  ∃ Memory buffer s',
    WdfMemoryCreate Attributes BufferSize true s
    = Some (STATUS_SUCCESS, Some Memory, Some buffer, s')
    ∧ buffer ≠ NULL
    ∧ heap s !! buffer = None
    ∧ heap s' !! buffer = Some (BBytes BufferSize)
    ∧ WdfMemoryGetBuffer Memory true s'
      = Some (buffer, Some BufferSize, s').
Proof.
  intros Hok Hnf Hattr.
  destruct (WdfMemoryCreate_success s Attributes BufferSize true Hok Hnf Hattr)
    as (s' & Hrun & Hcr & Hd & Hb & _).
  destruct Hcr as (_ & (o & Ho & Ht & HD & _) & _).
  exists (brk s), (N.succ (N.succ (brk s))), s'.
  split; [done|]. split; [unfold NULL; lia|].
  split; [apply allocator_ok_fresh; [done|lia]|]. split; [done|].
  unfold WdfMemoryGetBuffer. cbv zeta. step. rewrite Ht.
  rewrite bool_decide_eq_true_2 by done. cbn [DmfAssert]. step.
  rewrite HD. by step.
Qed.

Lemma WdfMemoryCreate_GetBuffer_round_trip_witness :
  ∃ Memory buffer s',
    WdfMemoryCreate None 8%N true (boot_with [])
    = Some (STATUS_SUCCESS, Some Memory, Some buffer, s')
    ∧ WdfMemoryGetBuffer Memory true s' = Some (buffer, Some 8%N, s').
Proof.
  destruct (WdfMemoryCreate_GetBuffer_round_trip (boot_with []) None 8%N)
    as (Memory & buffer & s' & Hrun & _ & _ & _ & Hget).
  - refine (bool_decide_unpack _ _). vm_compute. exact I.
  - refine (bool_decide_unpack _ _). vm_compute. exact I.
  - reflexivity.
  - by exists Memory, buffer, s'.
Defined.

(** X8.  A timer or a work item created with attributes remembers the
    parent named in them: [WdfTimerGetParentObject] and
    [WdfWorkItemGetParentObject] on the new handle return
    [Attributes->ParentObject], and [NULL] when the object was created
    without attributes. *)
Theorem GetParentObject_round_trip s Attributes :
  allocator_ok s → never_fails s → prims_ok s →
  attributes_ok (heap s) Attributes = true →
  (∃ Timer s',
     WdfTimerCreate Attributes s = Some (STATUS_SUCCESS, Some Timer, s')
     ∧ WdfTimerGetParentObject Timer s'
       = Some (parent_of Attributes, s'))
  ∧ (∃ WorkItem s',
       WdfWorkItemCreate Attributes s
       = Some (STATUS_SUCCESS, Some WorkItem, s')
       ∧ WdfWorkItemGetParentObject WorkItem s'
         = Some (parent_of Attributes, s')).
Proof.
  intros Hok Hnf Hpo Hattr. split.
  - destruct (create_deferred_success DmfPlatformObjectTypeTimer
                DmfPlatformWdfTimerDelete_fn s Attributes Hok Hnf Hpo Hattr)
      as (s' & Hrun & (_ & (o & Ho & _ & _ & Ha & _) & _) & _).
    exists (brk s), s'. split; [done|].
    unfold WdfTimerGetParentObject. cbv zeta. step.
    by rewrite Ha, ParentObject_default.
  - destruct (create_deferred_success DmfPlatformObjectTypeWorkItem
                DmfPlatformWdfWorkItemDelete_fn s Attributes Hok Hnf Hpo Hattr)
      as (s' & Hrun & (_ & (o & Ho & _ & _ & Ha & _) & _) & _).
    exists (brk s), s'. split; [done|].
    unfold WdfWorkItemGetParentObject. cbv zeta. step.
    by rewrite Ha, ParentObject_default.
Qed.

Lemma GetParentObject_round_trip_witness :
  ∃ Timer s',
    WdfTimerCreate (Some (attributes 16%N NULL))
      (state_after (WdfWaitLockCreate None) (boot_with []))
    = Some (STATUS_SUCCESS, Some Timer, s')
    ∧ WdfTimerGetParentObject Timer s' = Some (16%N, s').
Proof.
  destruct (GetParentObject_round_trip
              (state_after (WdfWaitLockCreate None) (boot_with []))
              (Some (attributes 16%N NULL)))
    as [(Timer & s' & Hrun & Hget) _].
  - refine (bool_decide_unpack _ _). vm_compute. exact I.
  - refine (bool_decide_unpack _ _). vm_compute. exact I.
  - refine (bool_decide_unpack _ _). vm_compute. exact I.
  - vm_compute. reflexivity.
  - by exists Timer, s'.
Defined.

(** * Creation followed by deletion *)

Lemma create_kind_success s k Attributes :
  allocator_ok s → never_fails s → prims_ok s →
  attributes_ok (heap s) Attributes = true →
  ∃ s', create_kind k Attributes s = Some (STATUS_SUCCESS, Some (brk s), s')
        ∧ created (kind_type k) (Some (kind_fn k)) Attributes s s' (brk s)
        ∧ heap s' !! N.succ (brk s) = Some (kind_payload k (brk s))
        ∧ (∀ m, kind_payload k (brk s) = BMemory m →
                is_Some (heap s' !! DataMemory m))
        ∧ (no_context (heap s) Attributes →
           brk s' = (brk s + kind_blocks k)%N).
Proof.
  intros Hok Hnf Hpo Hattr. destruct k as [n| | | |]; cbn [create_kind].
  - destruct (WdfMemoryCreate_success s Attributes n false Hok Hnf Hattr)
      as (s' & Hrun & Hcr & Hd & Hb & Hno).
    exists s'. unfold WdfMemoryCreate_result.
    rewrite (bind_run _ _ _ _ _ Hrun). split; [done|]. split; [done|].
    split; [done|]. split; [|done].
    intros m [= <-]. by eexists.
  - destruct (WdfWaitLockCreate_success s Attributes Hok Hnf Hpo Hattr)
      as (s' & Hrun & Hcr & Hd & Hno).
    exists s'. do 3 (split; [done|]). split; [by intros m [=]|done].
  - destruct (WdfSpinLockCreate_success s Attributes Hok Hnf Hpo Hattr)
      as (s' & Hrun & Hcr & Hd & Hno).
    exists s'. do 3 (split; [done|]). split; [by intros m [=]|done].
  - destruct (create_deferred_success DmfPlatformObjectTypeTimer
                DmfPlatformWdfTimerDelete_fn s Attributes Hok Hnf Hpo Hattr)
      as (s' & Hrun & Hcr & Hd & Hno).
    exists s'. do 3 (split; [done|]). split; [by intros m [=]|done].
  - destruct (create_deferred_success DmfPlatformObjectTypeWorkItem
                DmfPlatformWdfWorkItemDelete_fn s Attributes Hok Hnf Hpo Hattr)
      as (s' & Hrun & Hcr & Hd & Hno).
    exists s'. do 3 (split; [done|]). split; [by intros m [=]|done].
Qed.

(** A new object is a tree without children that can be deleted. *)
Lemma created_deletable s s' k Attributes o :
  allocator_ok s →
  attributes_ok (heap s) Attributes = true →
  created (kind_type k) (Some (kind_fn k)) Attributes s s' (brk s) →
  heap s' !! brk s = Some (BObject o) →
  heap s' !! N.succ (brk s) = Some (kind_payload k (brk s)) →
  (∀ m, kind_payload k (brk s) = BMemory m →
        is_Some (heap s' !! DataMemory m)) →
  deletable (heap s') (Node (brk s) o (kind_payload k (brk s)) [])
  ∧ footprint (Node (brk s) o (kind_payload k (brk s)) [])
    = kind_footprint k (brk s)
  ∧ owner_of o = parent_of Attributes.
Proof.
  intros Hok Hattr (_ & (o' & Ho' & Ht & HD & Ha & Hrc & Hfn & Hcl & Hnc & Hce)
                    & Hfr & Hpar & _) Ho Hd Hm.
  assert (o' = o) as -> by congruence.
  pose proof (proj1 Hok) as Hbrk.
  assert (Hfoot : footprint (Node (brk s) o (kind_payload k (brk s)) [])
                  = kind_footprint k (brk s)).
  { cbn [footprint flat_map]. rewrite app_nil_r.
    unfold own_footprint, owned_buffer. rewrite HD, Hfn.
    by destruct k. }
  assert (Hin : ∀ q, q ∈ kind_footprint k (brk s) →
                     (brk s <= q < brk s + kind_blocks k)%N).
  { intros q Hq. destruct k; cbn [kind_footprint kind_blocks] in *;
      repeat (apply elem_of_cons in Hq as [->|Hq]; [lia|]);
      by apply elem_of_nil in Hq. }
  assert (Howner : owner_of o = parent_of Attributes).
  { unfold owner_of. rewrite Ha, ParentObject_default, Hce.
    destruct (is_null (parent_of Attributes)) eqn:E; [|done].
    symmetry. by apply is_null_true. }
  split; [|done].
  split; [|split; [|split]].
  - apply tree_in_intro; [done|done|done|rewrite Hnc; cbn; lia| |
                         |by apply Forall_nil].
    + by rewrite HD.
    + unfold payload_ok. rewrite Hfn, Ht.
      rewrite bool_decide_eq_true_2 by (by destruct k).
      destruct k as [n| | | |]; cbn [kind_fn kind_payload andb]; try done.
      cbn [NeedToDeallocate negb orb DataMemory].
      apply bool_decide_eq_true_2. by apply (Hm _ eq_refl).
  - rewrite Hfoot. destruct k; cbn [kind_footprint];
      repeat (apply NoDup_cons; split;
              [rewrite ?elem_of_cons, elem_of_nil; lia|]);
      apply NoDup_nil_2.
  - rewrite Hfoot. intros Hq%Hin. unfold NULL in *. lia.
  - cbn [obj]. rewrite Howner.
    destruct (attributes_ok_inv _ _ Hattr) as [[HP|(HPn & P & HP)] _].
    + left. rewrite HP. apply is_null_NULL.
    + right. split.
      * rewrite Hfoot. intros Hq%Hin.
        destruct (allocator_ok_lookup _ _ _ Hok HP) as [_ Hlt]. lia.
      * eexists. by apply Hpar.
Qed.

Lemma kind_footprint_range k p q :
  q ∈ kind_footprint k p ↔ (p <= q < p + kind_blocks k)%N.
Proof.
  destruct k; cbn [kind_footprint kind_blocks];
    rewrite ?elem_of_cons, elem_of_nil; lia.
Qed.

(** X9.  When nothing fails, an object of any kind that has just been
    created can be deleted at once: [WdfObjectDelete] returns and releases
    the object, its payload and, for a memory object, its buffer.  When the
    attributes name no parent and ask for no context, the heap after the
    deletion is the heap before the creation. *)
Theorem create_then_delete s k Attributes :
  allocator_ok s → never_fails s → prims_ok s →
  attributes_ok (heap s) Attributes = true →
  ∃ h s1 s2,
    create_kind k Attributes s = Some (STATUS_SUCCESS, Some h, s1)
    ∧ WdfObjectDelete 1 h s1 = Some (tt, s2)
    ∧ (∀ q, q ∈ kind_footprint k h →
            is_Some (heap s1 !! q) ∧ heap s2 !! q = None)
    ∧ (no_context (heap s) Attributes → parent_of Attributes = NULL →
       heap s2 = heap s).
Proof.
  intros Hok Hnf Hpo Hattr.
  destruct (create_kind_success s k Attributes Hok Hnf Hpo Hattr)
    as (s1 & Hrun & Hcr & Hd & Hm & Hno).
  pose proof Hcr as (_ & (o & Ho & _ & HD & _) & Hfr & _ & Hok1 & _).
  destruct (created_deletable s s1 k Attributes o Hok Hattr Hcr Ho Hd Hm)
    as (Hdel & Hfoot & Howner).
  destruct (WdfObjectDelete_tree 1
              (Node (brk s) o (kind_payload k (brk s)) []) s1 (le_n 1) Hdel)
    as (s2 & Hrun2 & _ & _ & _ & _ & Hgone & Hsame & _).
  cbn [root obj] in *. rewrite Hfoot in Hgone, Hsame.
  exists (brk s), s1, s2. split; [done|]. split; [done|]. split.
  - intros q Hq. split; [|by apply Hgone].
    destruct k; cbn [kind_footprint] in Hq;
      repeat (apply elem_of_cons in Hq as [->|Hq];
              [first [by eauto|by apply (Hm _ eq_refl)]|]);
      by apply elem_of_nil in Hq.
  - intros Hnoc HP. apply map_eq. intros q.
    destruct (decide (q ∈ kind_footprint k (brk s))) as [Hq|Hq].
    + rewrite Hgone by done. symmetry.
      apply allocator_ok_fresh; [done|].
      apply kind_footprint_range in Hq. lia.
    + rewrite Hsame; [|done|right; rewrite Howner, HP; apply is_null_NULL].
      rewrite kind_footprint_range in Hq.
      destruct (decide (q < brk s)%N) as [Hlt|Hge].
      * apply Hfr; [done|by left].
      * rewrite !allocator_ok_fresh; [done|done|lia|done|].
        rewrite (Hno Hnoc). lia.
Qed.

Lemma create_then_delete_witness :
  ∃ h s1 s2,
    create_kind (KMemory 8) None (boot_with [])
    = Some (STATUS_SUCCESS, Some h, s1)
    ∧ WdfObjectDelete 1 h s1 = Some (tt, s2)
    ∧ heap s2 = heap (boot_with []).
Proof.
  destruct (create_then_delete (boot_with []) (KMemory 8) None)
    as (h & s1 & s2 & Hrun & Hdel & _ & Hheap).
  - refine (bool_decide_unpack _ _). vm_compute. exact I.
  - refine (bool_decide_unpack _ _). vm_compute. exact I.
  - refine (bool_decide_unpack _ _). vm_compute. exact I.
  - reflexivity.
  - exists h, s1, s2. do 2 (split; [done|]). by apply Hheap.
Defined.

(** * Deletion never allocates *)

Lemma shrinks_refl s : shrinks s s.
Proof.
  split; [done|]. do 3 (split; [done|]). exists []. by rewrite app_nil_r.
Qed.

Lemma shrinks_trans s1 s2 s3 : shrinks s1 s2 → shrinks s2 s3 → shrinks s1 s3.
Proof.
  intros (H1 & Hb1 & Ha1 & Hp1 & n1 & Ht1) (H2 & Hb2 & Ha2 & Hp2 & n2 & Ht2).
  split; [by auto|]. do 3 (split; [congruence|]).
  exists (n1 ++ n2). by rewrite Ht2, Ht1, app_assoc.
Qed.

Lemma shrinking_ret {A} (a : A) : shrinking (ret a).
Proof. intros s a' s' [= _ <-]. apply shrinks_refl. Qed.

Lemma shrinking_fault {A} : shrinking (fault (A := A)).
Proof. by intros s a s'. Qed.

Lemma shrinking_bind {A B} (m : M A) (k : A → M B) :
  shrinking m → (∀ a, shrinking (k a)) → shrinking (bind m k).
Proof.
  intros Hm Hk s b s' Hrun. unfold bind in Hrun.
  destruct (m s) as [[a s1]|] eqn:E; [|done].
  eapply shrinks_trans; [by eapply Hm|by eapply Hk].
Qed.

Lemma shrinking_emit e : shrinking (emit e).
Proof.
  intros s a s' [= _ <-]. split; [done|]. do 3 (split; [done|]).
  by exists [e].
Qed.

Lemma shrinking_DmfAssert b : shrinking (DmfAssert b).
Proof. destruct b; [apply shrinking_ret|apply shrinking_fault]. Qed.

Lemma shrinking_when b m : shrinking m → shrinking (when b m).
Proof. destruct b; [done|intros _; apply shrinking_ret]. Qed.

Lemma shrinking_load p : shrinking (load p).
Proof.
  intros s a s'. unfold load. destruct (heap s !! p); [|done].
  intros [= _ <-]. apply shrinks_refl.
Qed.

Lemma shrinking_store p b : shrinking (store p b).
Proof.
  intros s a s'. unfold store. destruct (heap s !! p) eqn:E; [|done].
  intros [= _ <-]. split; [|do 3 (split; [done|]); exists []; by rewrite app_nil_r].
  intros q Hq. heap_simpl. rewrite lookup_insert_ne; [done|congruence].
Qed.

Lemma shrinking_free p : shrinking (DMF_Platform_Free p).
Proof.
  intros s a s'. unfold DMF_Platform_Free.
  destruct (is_null p).
  { intros [= _ <-]. split; [done|]. do 3 (split; [done|]). by eexists. }
  destruct (heap s !! p) eqn:E; [|done].
  intros [= _ <-]. split; [|do 3 (split; [done|]); by eexists].
  intros q Hq. heap_simpl. rewrite lookup_delete_ne; [done|congruence].
Qed.

Lemma shrinking_load_object p : shrinking (load_object p).
Proof.
  apply shrinking_bind; [apply shrinking_load|].
  intros []; first [apply shrinking_ret|apply shrinking_fault].
Qed.

Lemma shrinking_load_memory p : shrinking (load_memory p).
Proof.
  apply shrinking_bind; [apply shrinking_load|].
  intros []; first [apply shrinking_ret|apply shrinking_fault].
Qed.

Lemma shrinking_update_object p f : shrinking (update_object p f).
Proof.
  apply shrinking_bind; [apply shrinking_load_object|].
  intros o. apply shrinking_store.
Qed.

Create HintDb shrink discriminated.
#[local] Hint Resolve shrinking_ret shrinking_fault shrinking_emit
  shrinking_DmfAssert shrinking_load shrinking_store shrinking_free
  shrinking_load_object shrinking_load_memory shrinking_update_object
  : shrink.

(** Decompose a computation into the steps above. *)
Ltac shrink :=
  repeat first
    [ apply shrinking_bind; [|intros ?]
    | apply shrinking_when
    | solve [auto with shrink]
    | lazymatch goal with
      | |- shrinking (if ?b then _ else _) => destruct b
      | |- shrinking (match ?x with _ => _ end) => destruct x
      end ].

Lemma shrinking_call_ObjectDelete fn p : shrinking (call_ObjectDelete fn p).
Proof.
  unfold call_ObjectDelete, DmfPlatformWdfMemoryDelete,
    DmfPlatformPrimitiveDelete.
  destruct fn; shrink.
Qed.

Lemma shrinking_RemoveEntryList p :
  shrinking (RemoveEntryList_ChildListEntry p).
Proof. unfold RemoveEntryList_ChildListEntry. shrink. Qed.

Lemma shrinking_delete_children del p l :
  (∀ c, shrinking (del c)) → shrinking (delete_children del p l).
Proof.
  intros Hdel. induction l as [|c l IH]; cbn [delete_children]; [shrink|].
  shrink; first [apply Hdel|apply IH].
Qed.

Lemma shrinking_WdfObjectDelete fuel Object :
  shrinking (WdfObjectDelete fuel Object).
Proof.
  revert Object. induction fuel as [|fuel IH]; intros Object.
  { apply shrinking_fault. }
  cbn [WdfObjectDelete]. cbv zeta.
  shrink;
    first [ by apply shrinking_delete_children
          | apply shrinking_RemoveEntryList
          | apply shrinking_call_ObjectDelete ].
Qed.

(** X10.  [WdfObjectDelete] never allocates: when it returns, every address
    that was free before the call is free after it, the allocator and the
    back end's creation functions have not been called, and the events of
    the call have been appended to the trace.  A well-formed allocator
    state stays well-formed. *)
Theorem WdfObjectDelete_never_allocates fuel Object s s' :
  WdfObjectDelete fuel Object s = Some (tt, s') →
  shrinks s s' ∧ (allocator_ok s → allocator_ok s').
Proof.
  intros Hrun.
  pose proof (shrinking_WdfObjectDelete fuel Object s tt s' Hrun) as Hs.
  split; [done|]. destruct Hs as (Hfree & Hb & _).
  intros Hok. eapply allocator_ok_step; [done|lia|].
  intros p Hp. left. destruct (heap s !! p) eqn:E; [by eexists|].
  rewrite (Hfree _ E) in Hp. by destruct Hp.
Qed.

Lemma WdfObjectDelete_never_allocates_witness :
  shrinks family (state_after (WdfObjectDelete 3 16%N) family).
Proof.
  apply (WdfObjectDelete_never_allocates 3 16%N family
           (state_after (WdfObjectDelete 3 16%N) family)).
  vm_compute. reflexivity.
Defined.

(** * A child whose creation failed *)

Lemma bind_None {A B} (m : M A) (k : A → M B) s :
  m s = None → bind m k s = None.
Proof. intros H. unfold bind. by rewrite H. Qed.

(** A computation that cannot get past the free address [x]. *)
Lemma bind_stuck {A B} (m : M A) (k : A → M B) x s :
  shrinking m →
  (∀ a s', heap s' !! x = None → k a s' = None) →
  heap s !! x = None → bind m k s = None.
Proof.
  intros Hm Hk Hx. unfold bind.
  destruct (m s) as [[a s']|] eqn:E; [|done].
  apply Hk. by apply (Hm _ _ _ E).
Qed.

Lemma WdfObjectDelete_free fuel x s :
  heap s !! x = None → WdfObjectDelete fuel x s = None.
Proof.
  intros Hx. destruct fuel; [done|]. cbn [WdfObjectDelete]. cbv zeta.
  apply bind_None. unfold load_object. apply bind_None.
  unfold load. by rewrite Hx.
Qed.

(** The walk over a child list whose last entry is a freed block faults. *)
Lemma delete_children_dangling fuel p l x s :
  heap s !! x = None →
  delete_children (WdfObjectDelete fuel) p (l ++ [x]) s = None.
Proof.
  revert s. induction l as [|c l IH]; intros s Hx;
    cbn [app delete_children].
  - eapply bind_stuck; [shrink| |done]. intros _ s1 H1.
    eapply bind_stuck; [shrink| |done]. intros o s2 H2.
    eapply bind_stuck; [shrink| |done]. intros _ s3 H3.
    apply bind_None. by apply WdfObjectDelete_free.
  - eapply bind_stuck; [shrink| |done]. intros _ s1 H1.
    eapply bind_stuck; [shrink| |done]. intros o s2 H2.
    eapply bind_stuck; [shrink| |done]. intros _ s3 H3.
    eapply bind_stuck; [apply shrinking_WdfObjectDelete| |done].
    intros _ s4 H4. by apply IH.
Qed.

Lemma WdfObjectDelete_dangling fuel P o l x s :
  heap s !! P = Some (BObject o) →
  ReferenceCount o = 1 →
  ChildList o = l ++ [x] →
  heap s !! x = None →
  WdfObjectDelete fuel P s = None.
Proof.
  intros Ho Hrc Hcl Hx. destruct fuel as [|fuel]; [done|].
  assert (HxP : x ≠ P) by congruence.
  rewrite WdfObjectDelete_unfold. cbv zeta. step. step.
  erewrite bind_run; [|apply when_emit_run].
  rewrite Hrc. change (InterlockedDecrement 1) with 0.
  rewrite bool_decide_eq_true_2 by done. step. step.
  apply bind_None. rewrite Hcl. apply delete_children_dangling.
  heap_simpl. by rewrite lookup_insert_ne.
Qed.

(** The exit of a creation function whose payload cannot be allocated,
    when a parent was named. *)
Lemma create_kind_payload_failure s k attrs P0 script :
  allocator_ok s →
  ParentObject attrs ≠ NULL →
  heap s !! ParentObject attrs = Some (BObject P0) →
  alloc_script s = true :: false :: script →
  ∃ s', create_kind k (Some attrs) s = Some (STATUS_UNSUCCESSFUL, None, s')
        ∧ heap s' !! brk s = None
        ∧ heap s' !! ParentObject attrs = Some (BObject (adopt (brk s) P0))
        ∧ (∀ q, q ≠ ParentObject attrs → heap s' !! q = heap s !! q).
Proof.
  intros Hok HPn HP Hscript. pose proof (proj1 Hok) as Hbrk.
  destruct (allocator_ok_lookup _ _ _ Hok HP) as [_ HPlt].
  pose proof (allocator_ok_fresh _ (brk s) Hok ltac:(lia)) as Hfresh.
  assert (Hf0 : alloc_fails s = false).
  { unfold alloc_fails. by rewrite Hscript. }
  assert (Hend : ∀ fn,
    ∃ s1, DmfPlatformObjectCreate (ParentObject attrs) fn s
          = Some (brk s, s1)
          ∧ alloc_fails s1 = true
          ∧ heap s1 !! brk s
            = Some (BObject (new_object fn (ParentObject attrs)))
          ∧ heap s1 !! ParentObject attrs
            = Some (BObject (adopt (brk s) P0))
          ∧ (∀ q, q ≠ brk s → q ≠ ParentObject attrs →
                  heap s1 !! q = heap s !! q)).
  { intros fn.
    destruct (DmfPlatformObjectCreate_state s (ParentObject attrs) fn Hok Hf0)
      as (s1 & new1 & Hrun & _ & Has & _ & _ & _ & Ho1 & Hframe & Hparent & _).
    { right. split; [done|by eexists]. }
    exists s1. split; [done|]. split.
    { unfold alloc_fails. by rewrite Has, Hscript. }
    split; [done|]. split; [by apply Hparent|].
    intros q ? ?. apply Hframe; [done|by right]. }
  destruct k; cbn [create_kind];
    unfold WdfMemoryCreate_result, WdfMemoryCreate, WdfWaitLockCreate,
      WdfSpinLockCreate, WdfTimerCreate, WdfWorkItemCreate, create_deferred;
    cbn [parent_of]; assoc;
    (lazymatch goal with
     | |- context [DmfPlatformObjectCreate _ ?fn] =>
         destruct (Hend fn) as (s1 & Hrun & E & Ho1 & HP1 & Hfr)
     end);
    (erewrite bind_run; [|exact Hrun]);
    rewrite is_null_false by solve_neq;
    destruct s1 as [h1 b1 as1 ps1 t1]; heap_simpl;
    step; step; rewrite is_null_NULL; step; try step;
    (eexists; split; [reflexivity|]); heap_simpl;
    (split; [by rewrite lookup_delete_eq|]);
    (split; [rewrite lookup_delete_ne, lookup_insert_ne by lia; done|]);
    intros q Hq; (destruct (decide (q = brk s)) as [->|Hqb];
      [by rewrite lookup_delete_eq
      |rewrite lookup_delete_ne, lookup_insert_ne by done; by apply Hfr]).
Qed.

(** X11.  When a creation function is given a parent and the allocation of
    the payload fails, it releases the new object without unlinking it: the
    function returns [STATUS_UNSUCCESSFUL] and no handle, the parent still
    counts the released block as its last child, and a later
    [WdfObjectDelete] of the parent does not return, because its walk over
    the children reads the released block. *)
Theorem failed_child_creation_poisons_parent s k attrs P0 script :
  allocator_ok s →
  ParentObject attrs ≠ NULL →
  heap s !! ParentObject attrs = Some (BObject P0) →
  ReferenceCount P0 = 1 →
  alloc_script s = true :: false :: script →
  ∃ s' P',
    create_kind k (Some attrs) s = Some (STATUS_UNSUCCESSFUL, None, s')
    ∧ heap s' !! ParentObject attrs = Some (BObject P')
    ∧ ChildList P' = ChildList P0 ++ [brk s]
    ∧ NumberOfChildren P' = wrap_LONG (NumberOfChildren P0 + 1)
    ∧ heap s' !! brk s = None
    ∧ ∀ fuel, WdfObjectDelete fuel (ParentObject attrs) s' = None.
Proof.
  intros Hok HPn HP Hrc Hscript.
  destruct (create_kind_payload_failure s k attrs P0 script Hok HPn HP Hscript)
    as (s' & Hrun & Hfree & HP' & _).
  exists s', (adopt (brk s) P0). do 2 (split; [done|]).
  do 2 (split; [done|]). split; [done|].
  intros fuel.
  by eapply (WdfObjectDelete_dangling fuel _ (adopt (brk s) P0) (ChildList P0)).
Qed.

Lemma failed_child_creation_poisons_parent_witness :
  ∃ s',
    create_kind KWaitLock (Some (attributes 16%N NULL)) parent_then_exhausted
    = Some (STATUS_UNSUCCESSFUL, None, s')
    ∧ ChildList (object_at (heap s') 16%N) = [19%N]
    ∧ heap s' !! 19%N = None
    ∧ WdfObjectDelete 2 16%N s' = None.
Proof.
  destruct (failed_child_creation_poisons_parent parent_then_exhausted
              KWaitLock (attributes 16%N NULL)
              (object_at (heap parent_then_exhausted) 16%N) [])
    as (s' & P' & Hrun & HP' & Hcl & _ & Hfree & Hdel).
  - refine (bool_decide_unpack _ _). vm_compute. exact I.
  - done.
  - vm_compute. reflexivity.
  - reflexivity.
  - vm_compute. reflexivity.
  - exists s'. split; [done|]. unfold object_at.
    change (ParentObject (attributes 16%N NULL)) with 16%N in HP'.
    rewrite HP'.
    split; [exact Hcl|]. split; [exact Hfree|apply Hdel].
Defined.

(** * Creation that fails *)

(** The heap is the one before the call once the blocks at [brk s] and
    after it have been released. *)
Ltac heap_restored s Hok Hframe :=
  let q := fresh "q" in
  apply map_eq; intros q; heap_simpl;
  (destruct (decide (q = brk s)) as [->|?];
   [|destruct (decide (q = N.succ (brk s))) as [->|?]]);
  repeat first [ rewrite lookup_delete_eq
               | rewrite lookup_delete_ne by lia
               | rewrite lookup_insert_ne by lia ];
  first [ done
        | symmetry; apply allocator_ok_fresh; [exact Hok|lia]
        | apply Hframe; [lia|by left] ].

Lemma finish_any {R} (f : NTSTATUS → R) sn p A o (k : NTSTATUS → M R) :
  (∀ st s', k st s' = Some (f st, s')) →
  allocator_ok sn →
  heap sn !! p = Some (BObject o) →
  match A with
  | None => True
  | Some attributes =>
      ContextTypeInfo attributes = NULL
      ∨ ∃ ti, heap sn !! ContextTypeInfo attributes = Some (BTypeInfo ti)
  end →
  ∃ st s', bind (CustomContextAllocate p A) k sn = Some (f st, s').
Proof.
  intros Hk Hok Ho Hti.
  destruct (CustomContextAllocate_state sn p A o Hok Ho Hti)
    as (st & s' & l & Hrun & _).
  exists st, s'. by rewrite (bind_run _ _ _ _ _ Hrun), Hk.
Qed.

(** The run has reached [CustomContextAllocate]: a handle is returned. *)
Ltac handle_returned f Hok Hti Hframe Hdom :=
  lazymatch goal with
  | |- ∃ st out s', bind (CustomContextAllocate (brk ?s) ?A) ?k ?sn = _ ∧ _ =>
      lazymatch sn with
      | context [insert (brk s) (BObject ?o)] =>
          destruct (finish_any f sn (brk s) A o k) as (?st & ?s' & ?Hrun);
          [ done
          | eapply allocator_ok_step; [exact Hok|heap_simpl; lia|];
            let q := fresh "q" in
            intros q; heap_simpl;
            repeat (rewrite lookup_insert_is_Some
                    || rewrite lookup_delete_is_Some);
            pose proof (Hdom q);
            intuition (subst; first [by left | right; lia | by auto])
          | solve_lookup
          | destruct A as [?a|]; [|done];
            let ti := fresh "ti" in
            let Hti' := fresh "Hti" in
            destruct Hti as [?|(? & ? & ti & Hti')]; [by left|right];
            exists ti; heap_simpl; rewrite !lookup_insert_ne by lia;
            rewrite Hframe by (lia || by right); done
          | eexists _, _, _; split; [exact Hrun|]; by intros [=] ]
      end
  end.

(** X12.  A memory object, wait lock, timer or work item whose creation
    stops before a handle is written leaves nothing behind when no parent
    is named: whichever allocation or back-end call fails, the function
    returns [STATUS_UNSUCCESSFUL] and the heap is the one before the
    call. *)
Theorem creation_failure_restores_heap s k Attributes :
  allocator_ok s →
  attributes_ok (heap s) Attributes = true →
  parent_of Attributes = NULL →
  k ≠ KSpinLock →
  ∃ st out s',
    create_kind k Attributes s = Some (st, out, s')
    ∧ (out = None → st = STATUS_UNSUCCESSFUL ∧ heap s' = heap s).
Proof.
  intros Hok Hattr HPnull Hk. pose proof (proj1 Hok) as Hbrk.
  destruct (creation_start _ _ Hok Hattr) as (HP & Hti).
  destruct (alloc_fails s) eqn:E1.
  { destruct k; try done; cbn [create_kind];
      unfold WdfMemoryCreate_result, WdfMemoryCreate, WdfWaitLockCreate,
        WdfTimerCreate, WdfWorkItemCreate, create_deferred; assoc;
      (erewrite bind_run; [|by apply DmfPlatformObjectCreate_fail]);
      rewrite is_null_NULL; try step;
      eexists _, _, _; (split; [reflexivity|]); done. }
  assert (Hstart : ∀ fn,
    ∃ h1 as1 t1,
      DmfPlatformObjectCreate (parent_of Attributes) fn s
      = Some (brk s, {| heap := h1; brk := N.succ (brk s); alloc_script := as1;
                        prim_script := prim_script s; trace := t1 |})
      ∧ h1 !! brk s = Some (BObject (new_object fn (parent_of Attributes)))
      ∧ (∀ q, q ≠ brk s → parent_of Attributes = NULL ∨ q ≠ parent_of Attributes →
              h1 !! q = heap s !! q)
      ∧ (∀ q, is_Some (h1 !! q) → is_Some (heap s !! q) ∨ q = brk s)).
  { intros fn.
    destruct (DmfPlatformObjectCreate_state s (parent_of Attributes) fn
                Hok E1 HP)
      as ([h1 b1 as1 ps1 t1] & new1 & Hrun & Hb & _ & Hps & _ & _ & Ho1
          & Hframe & _ & Hdom).
    heap_simpl. subst. by exists h1, as1, t1. }
  destruct k as [n| | | |]; try done; cbn [create_kind];
    unfold WdfMemoryCreate_result, WdfMemoryCreate, WdfWaitLockCreate,
      WdfTimerCreate, WdfWorkItemCreate, create_deferred; assoc;
    (lazymatch goal with
     | |- context [DmfPlatformObjectCreate _ ?fn] =>
         destruct (Hstart fn) as (h1 & as1 & t1 & Hrun & Ho1 & Hframe & Hdom)
     end);
    (erewrite bind_run; [|exact Hrun]); clear Hrun Hstart;
    rewrite is_null_false by solve_neq.
  - (* memory *)
    next_alloc.
    { do 2 step. rewrite is_null_NULL. do 2 step.
      eexists _, _, _. split; [reflexivity|]. intros _. split; [done|].
      heap_restored s Hok Hframe. }
    do 2 step. rewrite is_null_false by (heap_simpl; solve_neq). step.
    run_copy_attributes. next_alloc.
    { do 2 step. rewrite is_null_NULL. unfold free_Data. do 4 step.
      eexists _, _, _. split; [reflexivity|]. intros _. split; [done|].
      heap_restored s Hok Hframe. }
    do 2 step. rewrite is_null_false by (heap_simpl; solve_neq). heap_simpl.
    do 3 step. assoc. heap_simpl.
    handle_returned (λ st : NTSTATUS, (st, Some (brk s))) Hok Hti Hframe Hdom.
  - (* wait lock *)
    next_alloc.
    { do 2 step. rewrite is_null_NULL. do 1 step.
      eexists _, _, _. split; [reflexivity|]. intros _. split; [done|].
      heap_restored s Hok Hframe. }
    do 2 step. rewrite is_null_false by (heap_simpl; solve_neq). do 2 step.
    next_prim.
    { unfold free_Data. do 3 step.
      eexists _, _, _. split; [reflexivity|]. intros _. split; [done|].
      heap_restored s Hok Hframe. }
    run_copy_attributes. heap_simpl.
    handle_returned (λ st : NTSTATUS, (st, Some (brk s))) Hok Hti Hframe Hdom.
  - (* timer *)
    next_alloc.
    { do 2 step. rewrite is_null_NULL. do 1 step.
      eexists _, _, _. split; [reflexivity|]. intros _. split; [done|].
      heap_restored s Hok Hframe. }
    do 2 step. rewrite is_null_false by (heap_simpl; solve_neq). step.
    run_copy_attributes. step. next_prim.
    { unfold free_Data. do 3 step.
      eexists _, _, _. split; [reflexivity|]. intros _. split; [done|].
      heap_restored s Hok Hframe. }
    heap_simpl.
    handle_returned (λ st : NTSTATUS, (st, Some (brk s))) Hok Hti Hframe Hdom.
  - (* work item *)
    next_alloc.
    { do 2 step. rewrite is_null_NULL. do 1 step.
      eexists _, _, _. split; [reflexivity|]. intros _. split; [done|].
      heap_restored s Hok Hframe. }
    do 2 step. rewrite is_null_false by (heap_simpl; solve_neq). step.
    run_copy_attributes. step. next_prim.
    { unfold free_Data. do 3 step.
      eexists _, _, _. split; [reflexivity|]. intros _. split; [done|].
      heap_restored s Hok Hframe. }
    heap_simpl.
    handle_returned (λ st : NTSTATUS, (st, Some (brk s))) Hok Hti Hframe Hdom.
Qed.

Lemma creation_failure_restores_heap_witness :
  ∃ st s',
    create_kind (KMemory 8) None (boot_with [true; true; false])
    = Some (st, None, s')
    ∧ st = STATUS_UNSUCCESSFUL
    ∧ heap s' = heap (boot_with [true; true; false]).
Proof.
  destruct (creation_failure_restores_heap (boot_with [true; true; false])
              (KMemory 8) None)
    as (st & out & s' & Hrun & Hnone).
  - refine (bool_decide_unpack _ _). vm_compute. exact I.
  - reflexivity.
  - reflexivity.
  - done.
  - assert (out = None) as ->.
    { vm_compute in Hrun. by injection Hrun as _ <- _. }
    exists st, s'. split; [done|]. by apply Hnone.
Defined.

(** X13.  [WdfSpinLockCreate] does not undo its work when the back end
    cannot create the lock: it returns [STATUS_UNSUCCESSFUL] and writes no
    handle, but the object and its payload, both allocated by this call,
    stay allocated. *)
Theorem WdfSpinLockCreate_backend_failure_leaks s Attributes :
  allocator_ok s → never_fails s →
  attributes_ok (heap s) Attributes = true →
  prim_fails s = true →
  ∃ s' o,
    WdfSpinLockCreate Attributes s = Some (STATUS_UNSUCCESSFUL, None, s')
    ∧ heap s !! brk s = None
    ∧ heap s !! N.succ (brk s) = None
    ∧ heap s' !! brk s = Some (BObject o)
    ∧ PlatformObjectType o = DmfPlatformObjectTypeSpinLock
    ∧ Data o = N.succ (brk s)
    ∧ heap s' !! N.succ (brk s)
      = Some (BPrimitive DmfPlatformObjectTypeSpinLock).
Proof.
  intros Hok Hnf Hattr Hprim. pose proof (proj1 Hok) as Hbrk.
  unfold WdfSpinLockCreate. start_creation Hok Hnf Hattr.
  alloc_ok Hnf. step. rewrite is_null_false by (heap_simpl; solve_neq).
  do 2 step.
  lazymatch goal with
  | |- context [prim_fails ?st] =>
      assert (E : prim_fails st = true) by exact Hprim; rewrite E
  end.
  cbn [negb ret].
  eexists _, _. split; [reflexivity|]. heap_simpl.
  split; [apply allocator_ok_fresh; [done|lia]|].
  split; [apply allocator_ok_fresh; [done|lia]|].
  split; [solve_lookup|]. split; [done|]. split; [done|]. solve_lookup.
Qed.

Lemma WdfSpinLockCreate_backend_failure_leaks_witness :
  ∃ s', WdfSpinLockCreate None boot_backend_fails
        = Some (STATUS_UNSUCCESSFUL, None, s')
        ∧ heap boot_backend_fails = ∅
        ∧ is_Some (heap s' !! 1%N) ∧ is_Some (heap s' !! 2%N).
Proof.
  destruct (WdfSpinLockCreate_backend_failure_leaks boot_backend_fails None)
    as (s' & o & Hrun & _ & _ & Ho & _ & _ & Hd).
  - refine (bool_decide_unpack _ _). vm_compute. exact I.
  - refine (bool_decide_unpack _ _). vm_compute. exact I.
  - reflexivity.
  - reflexivity.
  - exists s'. split; [done|]. split; [reflexivity|].
    split; by eexists.
Defined.

(** * A new collection *)

Lemma WdfCollectionCreate_success s Attributes :
  allocator_ok s → never_fails s → prims_ok s →
  attributes_ok (heap s) Attributes = true →
  ∃ s' lock,
    WdfCollectionCreate Attributes s
    = Some (STATUS_SUCCESS, Some (brk s), s')
    ∧ created DmfPlatformObjectTypeCollection None Attributes s s' (brk s)
    ∧ heap s' !! N.succ (brk s)
      = Some (BCollection {| ListLock := N.succ (N.succ (brk s));
                             List := []; ItemCount := 0 |})
    ∧ heap s' !! N.succ (N.succ (brk s)) = Some (BObject lock)
    ∧ PlatformObjectType lock = DmfPlatformObjectTypeSpinLock
    ∧ (no_context (heap s) Attributes → brk s' = (brk s + 4)%N).
Proof.
  intros Hok Hnf Hpo Hattr. pose proof (proj1 Hok) as Hbrk.
  unfold WdfCollectionCreate. start_creation Hok Hnf Hattr.
  alloc_ok Hnf. step. rewrite is_null_false by (heap_simpl; solve_neq).
  step. assoc.
  lazymatch goal with
  | |- context [bind (WdfSpinLockCreate ?a) ?k ?st] => set (s2 := st)
  end.
  assert (Hb2 : brk s2 = N.succ (N.succ (brk s))) by reflexivity.
  assert (Ho2 : heap s2 !! brk s
                = Some (BObject
                          (set_PlatformObjectType
                             DmfPlatformObjectTypeCollection
                             (set_Data (N.succ (brk s))
                                (new_object None (parent_of Attributes))))))
    by (subst s2; solve_lookup).
  assert (Hd2 : heap s2 !! N.succ (brk s)
                = Some (BCollection zero_collection))
    by (subst s2; solve_lookup).
  assert (Hfr2 : ∀ q, (q < brk s)%N →
                      parent_of Attributes = NULL ∨ q ≠ parent_of Attributes →
                      heap s2 !! q = heap s !! q).
  { intros q ? ?. subst s2. heap_simpl. rewrite !lookup_insert_ne by lia.
    apply Hframe; [lia|done]. }
  assert (Hpar2 : ∀ P, parent_of Attributes ≠ NULL →
                       heap s !! parent_of Attributes = Some (BObject P) →
                       heap s2 !! parent_of Attributes
                       = Some (BObject (adopt (brk s) P))).
  { intros P ? HP'.
    destruct (allocator_ok_lookup _ _ _ Hok HP') as [_ ?].
    subst s2. heap_simpl. rewrite !lookup_insert_ne by lia.
    by apply Hparent. }
  assert (Hok2 : allocator_ok s2).
  { eapply allocator_ok_step; [exact Hok|subst s2; heap_simpl; lia|].
    intros q; subst s2; heap_simpl.
    repeat (rewrite lookup_insert_is_Some || rewrite lookup_delete_is_Some).
    pose proof (Hdom q).
    intuition (subst; first [by left | right; lia | by auto]). }
  assert (Hnf2 : never_fails s2).
  { subst s2. unfold never_fails; heap_simpl; repeat apply Forall_tail.
    exact Hnf. }
  assert (Hpo2 : prims_ok s2) by exact Hpo.
  clearbody s2. clear Hframe Hparent Hdom Ho1.
  destruct (WdfSpinLockCreate_success s2 (Some WDF_OBJECT_ATTRIBUTES_INIT)
              Hok2 Hnf2 Hpo2 eq_refl)
    as (s3 & Hrun3 & Hcr3 & Hp3 & Hno3).
  rewrite (bind_run _ _ _ _ _ Hrun3). cbn [fst snd].
  destruct Hcr3 as (_ & (lock & Hl3 & Htl & HDl & _) & Hfr3 & _
                    & Hok3 & Hnf3 & Hpo3).
  change (parent_of (Some WDF_OBJECT_ATTRIBUTES_INIT)) with NULL in Hfr3.
  assert (Hb3 : brk s3 = (brk s + 4)%N).
  { rewrite Hno3; [lia|]. by left. }
  assert (Ho3 : heap s3 !! brk s
                = Some (BObject
                          (set_PlatformObjectType
                             DmfPlatformObjectTypeCollection
                             (set_Data (N.succ (brk s))
                                (new_object None (parent_of Attributes))))))
    by (rewrite Hfr3; [exact Ho2|lia|by left]).
  assert (Hd3 : heap s3 !! N.succ (brk s)
                = Some (BCollection zero_collection))
    by (rewrite Hfr3; [exact Hd2|lia|by left]).
  rewrite Hb2 in Hl3, Hp3, HDl |- *.
  assert (Hfr3' : ∀ q, (q < brk s)%N →
                       parent_of Attributes = NULL ∨ q ≠ parent_of Attributes →
                       heap s3 !! q = heap s !! q).
  { intros q ? ?. rewrite Hfr3; [by apply Hfr2|lia|by left]. }
  assert (Hpar3 : ∀ P, parent_of Attributes ≠ NULL →
                       heap s !! parent_of Attributes = Some (BObject P) →
                       heap s3 !! parent_of Attributes
                       = Some (BObject (adopt (brk s) P))).
  { intros P ? HP'.
    destruct (allocator_ok_lookup _ _ _ Hok HP') as [_ ?].
    rewrite Hfr3; [by apply Hpar2|lia|by left]. }
  specialize (Hpo3 Hpo2).
  clear Hfr3 Hfr2 Hpar2 Hrun3 Hno3 Ho2 Hd2 Hok2 Hnf2 Hpo2 Hb2 s2.
  destruct s3 as [h3 b3 as3 ps3 t3]. heap_simpl. subst b3.
  step. change (negb (NT_SUCCESS STATUS_SUCCESS)) with false. cbv iota.
  do 2 step. run_copy_attributes. heap_simpl.
  lazymatch goal with
  | |- ∃ s' lock0, bind (CustomContextAllocate _ ?A) ?k ?sn = _ ∧ _ =>
      lazymatch sn with
      | context [insert (brk s) (BObject ?o)] =>
          destruct (creation_finish (λ st : NTSTATUS, (st, Some (brk s)))
                      DmfPlatformObjectTypeCollection None A s sn o k)
            as (s' & Hrun & Hcr & Hfr & Hno)
      end
  end.
  { done. }
  { exact Hok. }
  { exact Hnf3. }
  { intros _. exact Hpo3. }
  { eapply allocator_ok_step; [exact Hok3|heap_simpl; lia|].
    intros q. heap_simpl.
    repeat (rewrite lookup_insert_is_Some || rewrite lookup_delete_is_Some).
    intuition (subst; first [by left | right; lia | by auto]). }
  { heap_simpl. lia. }
  { solve_lookup. }
  { by destruct Attributes. }
  { by destruct Attributes. }
  { by destruct Attributes. }
  { by destruct Attributes. }
  { by destruct Attributes. }
  { by destruct Attributes. }
  { by destruct Attributes. }
  { by destruct Attributes. }
  { intros q ? ?. heap_simpl. rewrite !lookup_insert_ne by lia.
    by apply Hfr3'. }
  { intros P ? HP'.
    destruct (allocator_ok_lookup _ _ _ Hok HP') as [_ ?].
    heap_simpl. rewrite !lookup_insert_ne by lia. by apply Hpar3. }
  { exact Hti. }
  exists s', lock. split; [done|]. split; [done|]. split; [|split; [|split]].
  - rewrite Hfr by (heap_simpl; lia). solve_lookup.
  - rewrite Hfr by (heap_simpl; lia). solve_lookup.
  - done.
  - intros Hn. rewrite (Hno Hn). heap_simpl. lia.
Qed.

(** X14.  When nothing fails, [WdfCollectionCreate] returns a handle to a
    well-formed collection without items, whose lock is a new spin lock
    object: its count is 0, and the first, the last and every indexed item
    are [NULL]. *)
Theorem WdfCollectionCreate_empty s Attributes :
  allocator_ok s → never_fails s → prims_ok s →
  attributes_ok (heap s) Attributes = true →
  ∃ Collection s',
    WdfCollectionCreate Attributes s
    = Some (STATUS_SUCCESS, Some Collection, s')
    ∧ collection_items (heap s') Collection = Some []
    ∧ value_after (WdfCollectionGetCount Collection) s' = Some 0
    ∧ value_after (WdfCollectionGetFirstItem Collection) s' = Some NULL
    ∧ value_after (WdfCollectionGetLastItem Collection) s' = Some NULL
    ∧ (∀ Index, 0 <= Index < 2 ^ 32 →
         value_after (WdfCollectionGetItem Collection Index) s' = Some NULL)
    ∧ allocator_ok s' ∧ never_fails s'.
Proof.
  intros Hok Hnf Hpo Hattr.
  destruct (WdfCollectionCreate_success s Attributes Hok Hnf Hpo Hattr)
    as (s' & lock & Hrun & Hcr & Hd & Hl & Htl & _).
  destruct Hcr as (_ & (o & Ho & Ht & HD & _) & _ & _ & Hok' & Hnf' & _).
  assert (Hitems : collection_items (heap s') (brk s) = Some []).
  { eapply collection_items_intro with (lock := lock);
      [exact Ho|exact Ht|by rewrite HD|exact Hl|exact Htl
      |apply NoDup_nil_2|done|done]. }
  exists (brk s), s'. split; [done|]. split; [done|].
  split; [by apply (WdfCollectionGetCount_run _ _ [])|].
  split; [by apply (WdfCollectionGetFirstItem_run _ _ [])|].
  split; [by apply (WdfCollectionGetLastItem_run _ _ [])|].
  split; [|done]. intros Index HI.
  by rewrite (WdfCollectionGetItem_run _ _ [] Index).
Qed.

Lemma WdfCollectionCreate_empty_witness :
  ∃ Collection s',
    WdfCollectionCreate None (boot_with [])
    = Some (STATUS_SUCCESS, Some Collection, s')
    ∧ value_after (WdfCollectionGetCount Collection) s' = Some 0
    ∧ value_after (WdfCollectionGetFirstItem Collection) s' = Some NULL.
Proof.
  destruct (WdfCollectionCreate_empty (boot_with []) None)
    as (Collection & s' & Hrun & _ & Hcount & Hfirst & _).
  - refine (bool_decide_unpack _ _). vm_compute. exact I.
  - refine (bool_decide_unpack _ _). vm_compute. exact I.
  - refine (bool_decide_unpack _ _). vm_compute. exact I.
  - reflexivity.
  - by exists Collection, s'.
Defined.

(** * Deleting a collection *)

Lemma entries_at_BEntry h l xs e :
  entries_at h l = Some xs → e ∈ l → ∃ x, h !! e = Some (BEntry x).
Proof. intros H He. by eapply entries_at_elem. Qed.

(** X15.  A collection has no payload destructor.  [WdfObjectDelete] on a
    collection whose object can be deleted releases the object and its
    [DMF_PLATFORM_COLLECTION], and nothing else: the spin lock object that
    [WdfCollectionCreate] made for it and every [COLLECTION_ENTRY] still
    linked are left allocated. *)
Theorem collection_delete_leaks s Collection o c items :
  heap s !! Collection = Some (BObject o) →
  heap s !! Data o = Some (BCollection c) →
  collection_items (heap s) Collection = Some items →
  wf_tree (heap s) (Node Collection o (BCollection c) []) = true →
  ∃ s',
    WdfObjectDelete 1 Collection s = Some (tt, s')
    ∧ ObjectDelete o = None
    ∧ heap s' !! Collection = None
    ∧ heap s' !! Data o = None
    ∧ (∃ lock, heap s' !! ListLock c = Some (BObject lock))
    ∧ length (List c) = length items
    ∧ (∀ e, e ∈ List c → ∃ x, heap s' !! e = Some (BEntry x)).
Proof.
  intros Ho Hc Hitems Hwf.
  destruct (collection_items_inv _ _ _ Hitems)
    as (o' & c' & lock & Ho' & Hto & Hc' & Hl & Htl & _ & _ & He).
  assert (o' = o) as -> by congruence.
  assert (c' = c) as -> by congruence.
  pose proof (wf_tree_deletable _ _ Hwf) as Hdel.
  destruct (WdfObjectDelete_tree 1 (Node Collection o (BCollection c) []) s
              (le_n 1) Hdel)
    as (s' & Hrun & _ & _ & _ & _ & Hgone & Hsame & Hown).
  destruct Hdel as (Hin & _).
  destruct (tree_in_inv _ _ _ _ _ Hin) as (_ & _ & _ & _ & _ & Hpay & _).
  assert (Hfn : ObjectDelete o = None).
  { unfold payload_ok in Hpay. destruct (ObjectDelete o) as [fn|]; [|done].
    apply andb_true_iff in Hpay as [Hty%bool_decide_eq_true _].
    rewrite Hto in Hty. by destruct fn. }
  cbn [root obj footprint flat_map] in *. rewrite app_nil_r in *.
  unfold own_footprint, owned_buffer in *. rewrite Hfn in *.
  exists s'. split; [done|]. split; [done|].
  split; [apply Hgone; by left|].
  split; [apply Hgone; right; by left|].
  assert (Hkeep : ∀ q b, heap s !! q = Some b → q ≠ Collection → q ≠ Data o →
                         (∀ P, b ≠ BObject P) → heap s' !! q = Some b).
  { intros q b Hq H1 H2 Hb. rewrite Hsame; [done| |].
    - rewrite !elem_of_cons, elem_of_nil. tauto.
    - destruct (is_null (owner_of o)) eqn:E; [by right|left].
      intros ->.
      destruct (wf_tree_deletable _ _ Hwf) as (_ & _ & _ & [HE|(_ & P & HP)]).
      + cbn [obj] in HE. congruence.
      + cbn [obj] in HP. rewrite HP in Hq. injection Hq as <-. by eapply Hb. }
  split.
  - destruct (is_null (owner_of o)) eqn:E.
    + exists lock. rewrite Hsame; [done| |by right].
      rewrite !elem_of_cons, elem_of_nil. intros [Heq|[Heq|[]]].
      * rewrite Heq, Ho in Hl. injection Hl as <-. by rewrite Hto in Htl.
      * rewrite <- Heq, Hl in Hc. done.
    + destruct (decide (ListLock c = owner_of o)) as [Heq|Hne].
      * eexists. rewrite Heq. apply Hown; [done|]. by rewrite <- Heq.
      * exists lock. rewrite Hsame; [done| |by left].
        rewrite !elem_of_cons, elem_of_nil. intros [Heq|[Heq|[]]].
        -- rewrite Heq, Ho in Hl. injection Hl as <-. by rewrite Hto in Htl.
        -- rewrite <- Heq, Hl in Hc. done.
  - split; [symmetry; by eapply entries_at_length|].
    intros e Hel. destruct (entries_at_BEntry _ _ _ _ He Hel) as [x Hx].
    exists x. apply Hkeep; [done| | |done].
    + intros ->. congruence.
    + intros ->. congruence.
Qed.

Lemma collection_delete_leaks_witness :
  ∃ s',
    WdfObjectDelete 1 1%N three_items = Some (tt, s')
    ∧ heap s' !! 1%N = None
    ∧ is_Some (heap s' !! 3%N)
    ∧ is_Some (heap s' !! 5%N).
Proof.
  destruct (collection_delete_leaks three_items 1%N
              (object_at (heap three_items) 1%N)
              {| ListLock := 3%N; List := [5%N; 6%N; 7%N]; ItemCount := 3 |}
              [101%N; 102%N; 101%N])
    as (s' & Hrun & _ & Hobj & _ & [lock Hlock] & _ & Hentries).
  - vm_compute. reflexivity.
  - vm_compute. reflexivity.
  - vm_compute. reflexivity.
  - vm_compute. reflexivity.
  - exists s'. split; [done|]. split; [done|]. split; [by eexists|].
    destruct (Hentries 5%N) as [x Hx]; [by left|]. by eexists.
Defined.

(** * Deleting a child, then its parent *)

Lemma unlink_notin x l : x ∉ l → unlink x l = l.
Proof.
  unfold unlink. induction l as [|y l IH]; [done|].
  intros [Hy Hl]%not_elem_of_cons.
  rewrite filter_cons_True by done. by rewrite IH.
Qed.

Lemma unlink_middle x l1 l2 :
  x ∉ l1 → x ∉ l2 → unlink x (l1 ++ x :: l2) = l1 ++ l2.
Proof.
  intros H1 H2. unfold unlink. rewrite filter_app, filter_cons_False by auto.
  fold (unlink x l1). fold (unlink x l2).
  by rewrite !unlink_notin.
Qed.

Lemma height_without a o o' p ks1 k ks2 :
  (height (Node a o' p (ks1 ++ ks2))
   <= height (Node a o p (ks1 ++ k :: ks2)))%nat.
Proof.
  cbn [height]. apply le_n_S.
  induction ks1 as [|k1 ks1 IH]; cbn [app foldr]; lia.
Qed.

Lemma root_in_kids_footprint k ks :
  k ∈ ks → root k ∈ flat_map footprint ks.
Proof. intros Hk. eapply footprint_kid; [done|apply root_in_footprint]. Qed.

Lemma roots_in_footprint x ks :
  x ∈ map root ks → x ∈ flat_map footprint ks.
Proof.
  intros (k & -> & Hk)%list_elem_of_fmap. by apply root_in_kids_footprint.
Qed.

(** The parts of a tree with one child singled out. *)
Lemma deletable_split h a o p ks1 k ks2 :
  deletable h (Node a o p (ks1 ++ k :: ks2)) →
  NoDup (footprint k)
  ∧ (∀ x, x ∈ footprint k → x ∉ own_footprint a o p)
  ∧ (∀ x, x ∈ footprint k → x ∉ flat_map footprint (ks1 ++ ks2))
  ∧ NoDup (own_footprint a o p ++ flat_map footprint (ks1 ++ ks2))
  ∧ (root k ∉ map root ks1) ∧ (root k ∉ map root ks2).
Proof.
  intros (_ & Hnd & _). cbn [footprint] in Hnd.
  rewrite flat_map_app in Hnd. cbn [flat_map] in Hnd.
  apply NoDup_app in Hnd as (Hndo & Hdisj & Hndk).
  apply NoDup_app in Hndk as (Hnd1 & Hd1 & Hndk).
  apply NoDup_app in Hndk as (Hndk & Hd2 & Hnd2).
  split; [done|]. split.
  { intros x Hx Hxo. apply (Hdisj x Hxo). rewrite !elem_of_app. auto. }
  split.
  { intros x Hx. rewrite flat_map_app, elem_of_app. intros [H1|H2].
    - apply (Hd1 x H1). apply elem_of_app. by left.
    - by apply (Hd2 x Hx). }
  split.
  { apply NoDup_app. split; [done|]. split.
    - intros x Hxo. rewrite flat_map_app, elem_of_app. intros [H1|H2];
        apply (Hdisj x Hxo); rewrite !elem_of_app; auto.
    - rewrite flat_map_app. apply NoDup_app. split; [done|].
      split; [|done]. intros x H1 H2. apply (Hd1 x H1).
      apply elem_of_app. by right. }
  split.
  - intros H1%roots_in_footprint. apply (Hd1 _ H1).
    apply elem_of_app. left. apply root_in_footprint.
  - intros H2%roots_in_footprint. apply (Hd2 (root k)); [|done].
    apply root_in_footprint.
Qed.

(** X16.  A child may be deleted before its parent.  In a well-formed
    ownership tree, [WdfObjectDelete] on a child that was created with a
    parent releases the subtree of the child and unlinks the child from the
    parent; a following [WdfObjectDelete] on the parent returns too, walks
    over the remaining children only, and leaves no block of the tree in
    the heap. *)
Theorem delete_child_then_parent s a o p ks1 k ks2 fuel :
  wf_tree (heap s) (Node a o p (ks1 ++ k :: ks2)) = true →
  ParentObject (ObjectAttributes (obj k)) ≠ NULL →
  (height (Node a o p (ks1 ++ k :: ks2)) <= fuel)%nat →
  ∃ s1 s2,
    WdfObjectDelete fuel (root k) s = Some (tt, s1)
    ∧ heap s1 !! a
      = Some (BObject (set_ChildList (map root (ks1 ++ ks2)) o))
    ∧ WdfObjectDelete fuel a s1 = Some (tt, s2)
    ∧ trace s2
      = trace s ++ delete_trace k
        ++ delete_trace
             (Node a (set_ChildList (map root (ks1 ++ ks2)) o) p (ks1 ++ ks2))
    ∧ ∀ x, x ∈ footprint (Node a o p (ks1 ++ k :: ks2)) → heap s2 !! x = None.
Proof.
  intros Hwf HPk Hfuel. pose proof (wf_tree_deletable _ _ Hwf) as Hdel.
  destruct (deletable_split _ _ _ _ _ _ _ Hdel)
    as (Hndk & Hko & Hkk & Hnd' & Hr1 & Hr2).
  destruct Hdel as (Hin & Hnd & Hnull & Hown).
  destruct (tree_in_inv _ _ _ _ _ Hin) as (Ha & Hrc & Hcl & Hn & Hd & Hp & Hks).
  cbn [root obj footprint] in *.
  assert (Hkin : k ∈ ks1 ++ k :: ks2).
  { apply elem_of_app. right. by left. }
  assert (Hsub : ∀ x, x ∈ footprint k →
                      x ∈ own_footprint a o p
                          ++ flat_map footprint (ks1 ++ k :: ks2)).
  { intros x Hx. apply elem_of_app. right. by eapply footprint_kid. }
  rewrite Forall_forall in Hks. destruct (Hks k Hkin) as [Hce Hink].
  assert (Howner : owner_of (obj k) = a).
  { unfold owner_of. by rewrite is_null_false. }
  assert (Hak : a ∉ footprint k).
  { intros Hx. apply (Hko a Hx). by left. }
  assert (Hdelk : deletable (heap s) k).
  { split; [done|]. split; [done|]. split.
    - intros Hx. by apply Hnull, Hsub.
    - right. rewrite Howner. split; [done|by eexists]. }
  assert (Hhk : (height k <= fuel)%nat).
  { pose proof (height_kid k _ a o p Hkin). lia. }
  destruct (WdfObjectDelete_tree fuel k s Hhk Hdelk)
    as (s1 & Hrun1 & Htr1 & _ & _ & _ & Hgone1 & Hsame1 & Hown1).
  rewrite Howner in Hsame1, Hown1.
  assert (Hnn : is_null a = false).
  { apply is_null_false. intros ->. apply Hnull. apply elem_of_app. left.
    by left. }
  assert (Ha1 : heap s1 !! a
                = Some (BObject (set_ChildList (map root (ks1 ++ ks2)) o))).
  { rewrite (Hown1 o Hnn Ha), Hcl, map_app. cbn [map].
    by rewrite unlink_middle, <- map_app. }
  assert (Hfr1 : ∀ x, x ∈ own_footprint a o p
                          ++ flat_map footprint (ks1 ++ ks2) →
                      x ≠ a → heap s1 !! x = heap s !! x).
  { intros x Hx Hxa. apply Hsame1; [|by left].
    intros Hxk. apply elem_of_app in Hx as [Hx|Hx].
    - by apply (Hko x).
    - by apply (Hkk x). }
  set (o' := set_ChildList (map root (ks1 ++ ks2)) o).
  assert (Hdel' : deletable (heap s1) (Node a o' p (ks1 ++ ks2))).
  { split; [|split; [|split]].
    - apply tree_in_intro; subst o'; field_simpl; try done.
      + rewrite length_app in *. cbn [length] in Hn. lia.
      + rewrite Hfr1; [done| |].
        * apply elem_of_app. left. right. by left.
        * intros E. apply NoDup_app in Hnd' as (Hndo & _).
          apply NoDup_cons in Hndo as [Hno _]. apply Hno. rewrite <- E.
          by left.
      + eapply payload_ok_frame; [exact Hp|]. intros x Hx. apply Hfr1.
        * apply elem_of_app. left. by do 2 right.
        * intros ->. apply NoDup_app in Hnd' as (Hndo & _).
          apply NoDup_cons in Hndo as [Hno _]. apply Hno. by right.
      + apply Forall_forall. intros k' Hk'.
        assert (Hk'in : k' ∈ ks1 ++ k :: ks2).
        { apply elem_of_app in Hk' as [?|?]; apply elem_of_app;
            [by left|right; by right]. }
        destruct (Hks k' Hk'in) as [? Hink']. split; [done|].
        eapply tree_in_frame; [exact Hink'|]. intros x Hx. apply Hfr1.
        * apply elem_of_app. right. by eapply footprint_kid.
        * intros ->. apply NoDup_app in Hnd' as (_ & Hdisj & _).
          apply (Hdisj a); [by left|]. by eapply footprint_kid.
    - done.
    - intros Hx. apply Hnull. apply elem_of_app in Hx as [Hx|Hx].
      + apply elem_of_app. by left.
      + apply elem_of_app. right. rewrite flat_map_app in *.
        cbn [flat_map]. rewrite !elem_of_app in *. tauto.
    - cbn [obj]. change (owner_of o') with (owner_of o).
      destruct Hown as [?|(Hout & P & HP)]; [by left|right]. split.
      + intros Hx. apply Hout. apply elem_of_app in Hx as [Hx|Hx].
        * apply elem_of_app. by left.
        * apply elem_of_app. right. rewrite flat_map_app in *.
          cbn [flat_map]. rewrite !elem_of_app in *. tauto.
      + destruct (decide (owner_of o = a)) as [E|E].
        * rewrite E. by eexists.
        * exists P. rewrite Hsame1; [done| |by left].
          intros Hx. by apply Hout, Hsub. }
  assert (Hh' : (height (Node a o' p (ks1 ++ ks2)) <= fuel)%nat).
  { pose proof (height_without a o o' p ks1 k ks2). lia. }
  destruct (WdfObjectDelete_tree fuel _ s1 Hh' Hdel')
    as (s2 & Hrun2 & Htr2 & _ & _ & _ & Hgone2 & _).
  exists s1, s2. split; [done|]. split; [done|]. split; [done|].
  split; [by rewrite Htr2, Htr1, <- app_assoc|].
  intros x Hx. cbn [footprint] in Hgone2.
  assert (x ∈ footprint k
          ∨ x ∈ own_footprint a o' p ++ flat_map footprint (ks1 ++ ks2))
    as [Hxk|Hx'].
  { apply elem_of_app in Hx as [Hx|Hx]; [right; apply elem_of_app; by left|].
    rewrite flat_map_app in Hx. cbn [flat_map] in Hx.
    rewrite !elem_of_app in Hx. destruct Hx as [Hx|[Hx|Hx]].
    - right. rewrite flat_map_app, !elem_of_app. auto.
    - by left.
    - right. rewrite flat_map_app, !elem_of_app. auto. }
  - apply (shrinking_WdfObjectDelete _ _ _ _ _ Hrun2). by apply Hgone1.
  - by apply Hgone2.
Qed.

Lemma delete_child_then_parent_witness :
  ∃ s1 s2,
    WdfObjectDelete 3 (root family_child) family = Some (tt, s1)
    ∧ WdfObjectDelete 3 (root family_tree) s1 = Some (tt, s2)
    ∧ ∀ x, x ∈ footprint family_tree → heap s2 !! x = None.
Proof.
  assert (E : Node (root family_tree) (obj family_tree) (payload family_tree)
                ([] ++ family_child :: family_siblings) = family_tree)
    by (vm_compute; reflexivity).
  destruct (delete_child_then_parent family (root family_tree)
              (obj family_tree) (payload family_tree) [] family_child
              family_siblings 3)
    as (s1 & s2 & Hrun1 & _ & Hrun2 & _ & Hgone).
  - rewrite E. vm_compute. reflexivity.
  - vm_compute. discriminate.
  - rewrite E. vm_compute. lia.
  - rewrite E in Hgone.
    exists s1, s2. split; [exact Hrun1|]. split; [exact Hrun2|]. exact Hgone.
Defined.

(** * Adding and removing the same item *)

(** [WdfCollectionAdd] when the allocation succeeds: the entry is the new
    block, and no block other than the collection's payload changes. *)
Lemma WdfCollectionAdd_state s Collection items Object :
  allocator_ok s → alloc_fails s = false →
  collection_items (heap s) Collection = Some items →
  Z.of_nat (length items) + 1 < 2 ^ 32 →
  ∃ s', WdfCollectionAdd Collection Object s = Some (STATUS_SUCCESS, s')
        ∧ allocator_ok s'
        ∧ collection_items (heap s') Collection = Some (items ++ [Object])
        ∧ heap s !! brk s = None
        ∧ heap s' !! brk s = Some (BEntry {| Object := Object |})
        ∧ (∀ q b, heap s !! q = Some b → (∀ c, b ≠ BCollection c) →
                  heap s' !! q = Some b).
Proof.
  intros Hok Hfail Hitems Hlen.
  destruct (collection_items_inv _ _ _ Hitems)
    as (o & c & lock & Ho & Hto & Hc & Hl & Htl & Hnd & Hn & He).
  pose proof (entries_at_length _ _ _ He) as Hlen'.
  destruct (allocator_ok_lookup _ _ _ Hok Ho) as [Hbrk HC].
  destruct (allocator_ok_lookup _ _ _ Hok Hc) as [_ HD].
  destruct (allocator_ok_lookup _ _ _ Hok Hl) as [_ HL].
  unfold WdfCollectionAdd.
  erewrite bind_run; [|by apply collection_of_run].
  step. rewrite is_null_false by solve_neq.
  step. step.
  erewrite bind_run;
    [|apply WdfSpinLockAcquire_run with (lock := lock); [solve_lookup|done]].
  step. step. step.
  erewrite bind_run;
    [|apply WdfSpinLockRelease_run with (lock := lock); [solve_lookup|done]].
  eexists. split; [reflexivity|]. heap_simpl.
  rewrite !insert_insert_eq. split; [|split; [|split; [|split]]].
  - eapply allocator_ok_step; [done|heap_simpl; lia|].
    intros p. solve_below.
  - field_simpl.
    eapply collection_items_intro with (lock := lock); field_simpl.
    + solve_lookup.
    + done.
    + solve_lookup.
    + solve_lookup.
    + done.
    + apply NoDup_app. split; [done|]. split; [|apply NoDup_singleton].
      intros p Hp ->%list_elem_of_singleton.
      destruct (entries_at_elem _ _ _ _ He Hp) as [e Hpe].
      apply (allocator_ok_lookup _ _ _ Hok) in Hpe. lia.
    + field_simpl. rewrite length_app. cbn [length].
      rewrite wrap_ULONG_small; lia.
    + field_simpl. apply entries_at_app.
      * rewrite !entries_at_insert; [done| |].
        -- intros Hp. destruct (entries_at_elem _ _ _ _ He Hp) as [e Hpe].
           apply (allocator_ok_lookup _ _ _ Hok) in Hpe. lia.
        -- intros Hp. destruct (entries_at_elem _ _ _ _ He Hp) as [e Hpe].
           congruence.
      * cbn [entries_at]. by rewrite lookup_insert_ne, lookup_insert_eq by lia.
  - apply allocator_ok_fresh; [done|lia].
  - by rewrite lookup_insert_ne, lookup_insert_eq by lia.
  - intros q b Hq Hb.
    destruct (allocator_ok_lookup _ _ _ Hok Hq) as [_ Hlt].
    rewrite !lookup_insert_ne; [done|lia|].
    intros <-. rewrite Hc in Hq. injection Hq as <-. by eapply Hb.
Qed.

Lemma delete_last {A} (l : list A) x : delete (length l) (l ++ [x]) = l.
Proof.
  induction l as [|y l IH]; [done|]. cbn [app length].
  change (delete (S (length l)) (y :: l ++ [x]))
    with (y :: delete (length l) (l ++ [x])).
  by rewrite IH.
Qed.

(** X17.  Adding an item and removing it again gives back the collection
    but not the memory: after [WdfCollectionAdd] and
    [WdfCollectionRemoveItem] at the index of the new item the collection
    holds the items it held before, while the [COLLECTION_ENTRY] allocated
    by the addition is still allocated. *)
Theorem add_then_remove_leaks_entry s Collection items Object :
  allocator_ok s → alloc_fails s = false →
  collection_items (heap s) Collection = Some items →
  Z.of_nat (length items) + 1 < 2 ^ 32 →
  ∃ s1 s2,
    WdfCollectionAdd Collection Object s = Some (STATUS_SUCCESS, s1)
    ∧ WdfCollectionRemoveItem Collection (Z.of_nat (length items)) s1
      = Some (tt, s2)
    ∧ collection_items (heap s2) Collection = Some items
    ∧ heap s !! brk s = None
    ∧ heap s2 !! brk s = Some (BEntry {| Object := Object |})
    ∧ keeps_blocks s1 s2.
Proof.
  intros Hok Hfail Hitems Hlen.
  destruct (WdfCollectionAdd_state s Collection items Object Hok Hfail
              Hitems Hlen)
    as (s1 & Hrun1 & Hok1 & Hitems1 & Hfresh & Hentry & _).
  destruct (WdfCollectionRemoveItem_state s1 Collection (items ++ [Object])
              (Z.of_nat (length items)) Hitems1)
    as (s2 & o & c & lock & Hrun2 & Ho & Hc & Hl & _ & Hst & Hitems2).
  { rewrite length_app. cbn [length]. lia. }
  { lia. }
  destruct (removal_state_keeps _ _ _ _ _ _ Hc Hst) as [_ Hkeep].
  exists s1, s2. do 2 (split; [done|]). split.
  { by rewrite Hitems2, Nat2Z.id, delete_last. }
  split; [done|]. split; [|done].
  destruct Hkeep as [Hkeep _]. by apply Hkeep.
Qed.

Lemma add_then_remove_leaks_entry_witness :
  ∃ s1 s2,
    WdfCollectionAdd 1%N 103%N three_items = Some (STATUS_SUCCESS, s1)
    ∧ WdfCollectionRemoveItem 1%N 3 s1 = Some (tt, s2)
    ∧ collection_items (heap s2) 1%N = Some [101%N; 102%N; 101%N]
    ∧ heap three_items !! brk three_items = None
    ∧ heap s2 !! brk three_items = Some (BEntry {| Object := 103%N |}).
Proof.
  destruct (add_then_remove_leaks_entry three_items 1%N
              [101%N; 102%N; 101%N] 103%N)
    as (s1 & s2 & Hrun1 & Hrun2 & Hitems & Hfresh & Hentry & _).
  - refine (bool_decide_unpack _ _). vm_compute. exact I.
  - reflexivity.
  - vm_compute. reflexivity.
  - vm_compute. reflexivity.
  - exists s1, s2. split; [exact Hrun1|]. split; [exact Hrun2|].
    split; [exact Hitems|]. split; [exact Hfresh|exact Hentry].
Defined.

(** * A collection does not keep its items alive *)

Lemma entries_at_frame h h' l xs :
  entries_at h l = Some xs →
  (∀ q b, h !! q = Some b → collection_block b → h' !! q = Some b) →
  entries_at h' l = Some xs.
Proof.
  intros Hxs Hfr. revert xs Hxs.
  induction l as [|p l IH]; intros xs Hxs; [done|]. cbn [entries_at] in *.
  destruct (h !! p) as [[| | | |e| | |]|] eqn:Hp; try done.
  destruct (entries_at h l) as [xs'|]; [|done].
  by rewrite (Hfr _ _ Hp I), (IH _ eq_refl).
Qed.

Lemma collection_items_frame h h' Collection items :
  collection_items h Collection = Some items →
  (∀ q b, h !! q = Some b → collection_block b → h' !! q = Some b) →
  collection_items h' Collection = Some items.
Proof.
  intros Hitems Hfr.
  destruct (collection_items_inv _ _ _ Hitems)
    as (o & c & lock & Ho & Hto & Hc & Hl & Htl & Hnd & Hn & He).
  eapply collection_items_intro with (lock := lock); try done.
  - apply (Hfr _ _ Ho). by left.
  - by apply (Hfr _ _ Hc).
  - apply (Hfr _ _ Hl). by right.
  - by eapply entries_at_frame.
Qed.

(** X18.  A collection stores the handle of an item and nothing more: it
    takes no reference.  A memory object that is created, added to a
    collection and then deleted is released by [WdfObjectDelete], while the
    collection still holds its handle: [WdfCollectionGetLastItem] returns
    the address of the released object. *)
Theorem collection_keeps_deleted_item s Collection items BufferSize :
  allocator_ok s → never_fails s →
  collection_items (heap s) Collection = Some items →
  Z.of_nat (length items) + 1 < 2 ^ 32 →
  ∃ Memory s1 s2 s3,
    WdfMemoryCreate_result None BufferSize false s
    = Some (STATUS_SUCCESS, Some Memory, s1)
    ∧ WdfCollectionAdd Collection Memory s1 = Some (STATUS_SUCCESS, s2)
    ∧ WdfObjectDelete 1 Memory s2 = Some (tt, s3)
    ∧ heap s3 !! Memory = None
    ∧ collection_items (heap s3) Collection = Some (items ++ [Memory])
    ∧ value_after (WdfCollectionGetLastItem Collection) s3 = Some Memory.
Proof.
  intros Hok Hnf Hitems Hlen.
  destruct (WdfMemoryCreate_success s None BufferSize false Hok Hnf eq_refl)
    as (s1 & Hrun1 & Hcr & Hd & Hb & Hno).
  pose proof Hcr as (_ & (o & Ho & Ht & HD & Ha & Hrc & Hfn & Hcl & Hnc & Hce)
                     & Hfr1 & _ & Hok1 & Hnf1 & _).
  assert (Hitems1 : collection_items (heap s1) Collection = Some items).
  { eapply collection_items_frame; [exact Hitems|]. intros q b Hq _.
    destruct (allocator_ok_lookup _ _ _ Hok Hq) as [_ Hlt].
    rewrite Hfr1; [done|done|by left]. }
  destruct (WdfCollectionAdd_state s1 Collection items (brk s) Hok1
              (never_fails_alloc _ Hnf1) Hitems1 Hlen)
    as (s2 & Hrun2 & Hok2 & Hitems2 & _ & _ & Hkeep2).
  set (payload := BMemory {| DataMemory := N.succ (N.succ (brk s));
                             NeedToDeallocate := true;
                             Size := BufferSize |}).
  assert (Hdel1 : deletable (heap s1) (Node (brk s) o payload [])
                  ∧ footprint (Node (brk s) o payload [])
                    = kind_footprint (KMemory BufferSize) (brk s)
                  ∧ owner_of o = parent_of None).
  { apply (created_deletable s s1 (KMemory BufferSize) None o Hok eq_refl
             Hcr Ho Hd).
    intros m [= <-]. by eexists. }
  destruct Hdel1 as ((Hin & Hnd & Hnull & _) & Hfoot & Howner).
  assert (Hsame2 : ∀ q, q ∈ footprint (Node (brk s) o payload []) →
                        heap s2 !! q = heap s1 !! q
                        ∧ ∃ b, heap s2 !! q = Some b ∧ ¬ collection_block b).
  { intros q Hq. rewrite Hfoot in Hq. cbn [kind_footprint] in Hq.
    assert (Hmem : ¬ collection_block (BObject o)).
    { cbn [collection_block]. rewrite Ht. by intros [|]. }
    repeat (apply elem_of_cons in Hq as [->|Hq]).
    - rewrite (Hkeep2 _ _ Ho) by done. rewrite Ho. split; [done|by eexists].
    - rewrite (Hkeep2 _ _ Hd) by done. rewrite Hd.
      split; [done|]. eexists. split; [done|]. by intros [].
    - rewrite (Hkeep2 _ _ Hb) by done. rewrite Hb.
      split; [done|]. eexists. split; [done|]. by intros [].
    - by apply elem_of_nil in Hq. }
  assert (Hdel2 : deletable (heap s2) (Node (brk s) o payload [])).
  { split; [|split; [done|split; [done|]]].
    - eapply tree_in_frame; [exact Hin|]. intros q Hq.
      by apply Hsame2.
    - left. cbn [obj]. rewrite Howner. apply is_null_NULL. }
  destruct (WdfObjectDelete_tree 1 (Node (brk s) o payload []) s2
              (le_n 1) Hdel2)
    as (s3 & Hrun3 & _ & _ & _ & _ & Hgone & Hsame & _).
  cbn [root obj] in *.
  assert (Hitems3 : collection_items (heap s3) Collection
                    = Some (items ++ [brk s])).
  { eapply collection_items_frame; [exact Hitems2|]. intros q b Hq Hcb.
    rewrite Hsame; [done| |right; rewrite Howner; apply is_null_NULL].
    intros Hqf. destruct (Hsame2 q Hqf) as (_ & b' & Hq' & Hncb).
    congruence. }
  exists (brk s), s1, s2, s3. unfold WdfMemoryCreate_result.
  rewrite (bind_run _ _ _ _ _ Hrun1).
  split; [done|]. split; [done|]. split; [done|].
  split; [apply Hgone; rewrite Hfoot; by left|]. split; [done|].
  rewrite (WdfCollectionGetLastItem_run _ _ _ Hitems3).
  - by rewrite last_snoc.
  - rewrite length_app. cbn [length]. lia.
Qed.

Lemma collection_keeps_deleted_item_witness :
  ∃ Memory s1 s2 s3,
    WdfMemoryCreate_result None 8%N false three_items
    = Some (STATUS_SUCCESS, Some Memory, s1)
    ∧ WdfCollectionAdd 1%N Memory s1 = Some (STATUS_SUCCESS, s2)
    ∧ WdfObjectDelete 1 Memory s2 = Some (tt, s3)
    ∧ heap s3 !! Memory = None
    ∧ value_after (WdfCollectionGetLastItem 1%N) s3 = Some Memory.
Proof.
  destruct (collection_keeps_deleted_item three_items 1%N
              [101%N; 102%N; 101%N] 8%N)
    as (Memory & s1 & s2 & s3 & Hrun1 & Hrun2 & Hrun3 & Hgone & _ & Hlast).
  - refine (bool_decide_unpack _ _). vm_compute. exact I.
  - refine (bool_decide_unpack _ _). vm_compute. exact I.
  - vm_compute. reflexivity.
  - vm_compute. reflexivity.
  - exists Memory, s1, s2, s3. split; [exact Hrun1|]. split; [exact Hrun2|].
    split; [exact Hrun3|]. split; [exact Hgone|exact Hlast].
Defined.

(** * The handle written when the context cannot be allocated *)

(** [WdfMemoryCreate] when its own three allocations succeed, whatever
    happens to the allocation of the context. *)
Lemma WdfMemoryCreate_handle s Attributes BufferSize Buffer script :
  allocator_ok s →
  attributes_ok (heap s) Attributes = true →
  parent_of Attributes = NULL →
  alloc_script s = true :: true :: true :: script →
  ∃ st s' o,
    WdfMemoryCreate Attributes BufferSize Buffer s
    = Some (st, Some (brk s),
            if Buffer then Some (N.succ (N.succ (brk s))) else None, s')
    ∧ heap s' !! brk s = Some (BObject o)
    ∧ PlatformObjectType o = DmfPlatformObjectTypeMemory
    ∧ Data o = N.succ (brk s)
    ∧ ObjectAttributes o = default zero_attributes Attributes
    ∧ ReferenceCount o = 1
    ∧ ObjectDelete o = Some DmfPlatformWdfMemoryDelete_fn
    ∧ ChildList o = []
    ∧ NumberOfChildren o = 0
    ∧ heap s' !! N.succ (brk s)
      = Some (BMemory {| DataMemory := N.succ (N.succ (brk s));
                         NeedToDeallocate := true; Size := BufferSize |})
    ∧ heap s' !! N.succ (N.succ (brk s)) = Some (BBytes BufferSize)
    ∧ (∀ q, (q < brk s)%N → heap s' !! q = heap s !! q)
    ∧ (st ≠ STATUS_SUCCESS →
       st = STATUS_INSUFFICIENT_RESOURCES
       ∧ ∀ q, (brk s + 3 <= q)%N → heap s' !! q = None).
Proof.
  intros Hok Hattr HPnull Hscript. pose proof (proj1 Hok) as Hbrk.
  destruct (creation_start _ _ Hok Hattr) as (HP & Hti).
  assert (E1 : alloc_fails s = false).
  { unfold alloc_fails. by rewrite Hscript. }
  unfold WdfMemoryCreate. cbv zeta.
  destruct (DmfPlatformObjectCreate_state s (parent_of Attributes)
              (Some DmfPlatformWdfMemoryDelete_fn) Hok E1 HP)
    as ([h1 b1 as1 ps1 t1] & new1 & Hrun & Hb1 & Has1 & Hps1 & _ & _ & Ho1
        & Hframe & _ & Hdom).
  heap_simpl. subst b1 as1 ps1. rewrite Hscript in *. cbn [tail] in *.
  erewrite bind_run; [|exact Hrun]. clear Hrun.
  rewrite is_null_false by solve_neq.
  assert (E2 : alloc_fails {| heap := h1; brk := N.succ (brk s);
                              alloc_script := true :: true :: script;
                              prim_script := prim_script s; trace := t1 |}
               = false) by reflexivity.
  do 2 step. rewrite is_null_false by (heap_simpl; solve_neq). step.
  run_copy_attributes.
  lazymatch goal with
  | |- context [bind (DMF_Platform_Allocate ?z) ?k ?s1] =>
      assert (E3 : alloc_fails s1 = false) by reflexivity
  end.
  do 2 step. rewrite is_null_false by (heap_simpl; solve_neq).
  do 3 step. heap_simpl.
  lazymatch goal with
  | |- context [bind (CustomContextAllocate (brk s) ?A) ?k ?sn] =>
      lazymatch sn with
      | context [insert (brk s) (BObject ?o)] =>
          destruct (CustomContextAllocate_state sn (brk s) A o)
            as (st & s' & l & Hrun & _ & Ho' & Hfr & Hok' & Hb' & _ & _ & Hst);
          [ eapply allocator_ok_step; [exact Hok|heap_simpl; lia|];
            let q := fresh "q" in
            intros q; heap_simpl;
            repeat (rewrite lookup_insert_is_Some
                    || rewrite lookup_delete_is_Some);
            pose proof (Hdom q);
            intuition (subst; first [by left | right; lia | by auto])
          | solve_lookup
          | destruct A as [?a|]; [|done];
            let ti := fresh "ti" in
            let Hti' := fresh "Hti" in
            destruct Hti as [?|(? & ? & ti & Hti')]; [by left|right];
            exists ti; heap_simpl; rewrite !lookup_insert_ne by lia;
            rewrite Hframe by (lia || by right); done
          | ]
      end
  end.
  rewrite (bind_run _ _ _ _ _ Hrun). cbn [ret].
  eexists st, s', _. split; [reflexivity|]. split; [exact Ho'|].
  do 7 (split; [by destruct Attributes|]).
  split; [rewrite Hfr by (heap_simpl; lia); solve_lookup|].
  split; [rewrite Hfr by (heap_simpl; lia); solve_lookup|].
  split.
  { intros q Hq. rewrite Hfr by (heap_simpl; lia). heap_simpl.
    rewrite !lookup_insert_ne by lia. apply Hframe; [lia|by left]. }
  intros Hne. destruct Hst as [?|[-> Hh]]; [done|]. split; [done|].
  intros q Hq. rewrite Hh. heap_simpl. rewrite !lookup_insert_ne by lia.
  destruct (h1 !! q) eqn:E; [|done].
  destruct (Hdom q) as [[b0 Hb0]|?]; [by eexists| |lia].
  apply (allocator_ok_lookup _ _ _ Hok) in Hb0. lia.
Qed.

(** X19.  When the three allocations of [WdfMemoryCreate] succeed, the
    handle is written whatever happens to the context, and the object
    behind it is complete: [WdfObjectDelete] on the handle returns and
    releases it.  When the status is not [STATUS_SUCCESS], so that the
    context could not be allocated, it is
    [STATUS_INSUFFICIENT_RESOURCES], and deleting the handle gives back
    the heap as it was before the creation. *)
Theorem context_failure_handle_can_be_deleted
    s Attributes BufferSize script :
  allocator_ok s →
  attributes_ok (heap s) Attributes = true →
  parent_of Attributes = NULL →
  alloc_script s = true :: true :: true :: script →
  ∃ st Memory s1 s2,
    WdfMemoryCreate_result Attributes BufferSize false s
    = Some (st, Some Memory, s1)
    ∧ WdfObjectDelete 1 Memory s1 = Some (tt, s2)
    ∧ heap s2 !! Memory = None
    ∧ (st ≠ STATUS_SUCCESS →
       st = STATUS_INSUFFICIENT_RESOURCES ∧ heap s2 = heap s).
Proof.
  intros Hok Hattr HPnull Hscript. pose proof (proj1 Hok) as Hbrk.
  destruct (WdfMemoryCreate_handle s Attributes BufferSize false script
              Hok Hattr HPnull Hscript)
    as (st & s1 & o & Hrun & Ho & Ht & HD & Ha & Hrc & Hfn & Hcl & Hnc
        & Hd & Hb & Hfr & Hfail).
  set (payload := BMemory {| DataMemory := N.succ (N.succ (brk s));
                             NeedToDeallocate := true;
                             Size := BufferSize |}).
  assert (Hfoot : footprint (Node (brk s) o payload [])
                  = [brk s; N.succ (brk s); N.succ (N.succ (brk s))]).
  { cbn [footprint flat_map]. rewrite app_nil_r.
    unfold own_footprint, owned_buffer. by rewrite HD, Hfn. }
  assert (Howner : is_null (owner_of o) = true).
  { unfold owner_of. rewrite Ha, ParentObject_default, HPnull.
    by rewrite is_null_NULL. }
  assert (Hdel : deletable (heap s1) (Node (brk s) o payload [])).
  { split; [|split; [|split]].
    - apply tree_in_intro; [done|done|done|rewrite Hnc; cbn; lia| |
                           |by apply Forall_nil].
      + by rewrite HD.
      + unfold payload_ok. rewrite Hfn, Ht. cbn [destructor_type].
        rewrite bool_decide_eq_true_2 by done. cbn [andb payload].
        cbn [NeedToDeallocate negb orb DataMemory].
        apply bool_decide_eq_true_2. by eexists.
    - rewrite Hfoot.
      repeat (apply NoDup_cons; split;
              [rewrite ?elem_of_cons, elem_of_nil; lia|]).
      apply NoDup_nil_2.
    - rewrite Hfoot, !elem_of_cons, elem_of_nil. unfold NULL in *. lia.
    - by left. }
  destruct (WdfObjectDelete_tree 1 (Node (brk s) o payload []) s1
              (le_n 1) Hdel)
    as (s2 & Hrun2 & _ & _ & _ & _ & Hgone & Hsame & _).
  cbn [root obj] in *. rewrite Hfoot in Hgone, Hsame.
  exists st, (brk s), s1, s2. unfold WdfMemoryCreate_result.
  rewrite (bind_run _ _ _ _ _ Hrun). split; [done|]. split; [done|].
  split; [apply Hgone; by left|].
  intros Hne. destruct (Hfail Hne) as [-> Hfresh]. split; [done|].
  apply map_eq. intros q.
  destruct (decide (q ∈ [brk s; N.succ (brk s); N.succ (N.succ (brk s))]))
    as [Hq|Hq].
  - rewrite Hgone by done. symmetry. apply allocator_ok_fresh; [done|].
    rewrite !elem_of_cons, elem_of_nil in Hq. lia.
  - rewrite Hsame; [|done|by right].
    rewrite !elem_of_cons, elem_of_nil in Hq.
    destruct (decide (q < brk s)%N) as [Hlt|Hge]; [by apply Hfr|].
    rewrite Hfresh by lia. symmetry. apply allocator_ok_fresh; [done|lia].
Qed.

Lemma context_failure_handle_can_be_deleted_witness :
  ∃ Memory s1 s2,
    WdfMemoryCreate_result (Some (attributes NULL 3%N)) 8%N false
      (boot_with [true; true; true; false])
    = Some (STATUS_INSUFFICIENT_RESOURCES, Some Memory, s1)
    ∧ WdfObjectDelete 1 Memory s1 = Some (tt, s2)
    ∧ heap s2 = heap (boot_with [true; true; true; false]).
Proof.
  destruct (context_failure_handle_can_be_deleted
              (boot_with [true; true; true; false])
              (Some (attributes NULL 3%N)) 8%N [false])
    as (st & Memory & s1 & s2 & Hrun & Hdel & _ & Hfail).
  - refine (bool_decide_unpack _ _). vm_compute. exact I.
  - vm_compute. reflexivity.
  - reflexivity.
  - reflexivity.
  - assert (Hst : st = STATUS_INSUFFICIENT_RESOURCES).
    { vm_compute in Hrun. injection Hrun as <- _ _. reflexivity. }
    subst st. exists Memory, s1, s2. split; [exact Hrun|].
    split; [exact Hdel|]. by apply Hfail.
Defined.

(** * The status of a creation and the step that failed *)

(** Case analysis on the next call of the allocator or of the back end,
    recorded as a fact about the script. *)
Ltac case_alloc :=
  assoc;
  lazymatch goal with
  | |- context [bind (DMF_Platform_Allocate ?z) ?k ?s1] =>
      let R := fresh "R" in
      let E := fresh "E" in
      let l := eval cbn [alloc_script allocated alloc_failed prim_called
                         set_heap add_trace] in (alloc_script s1) in
      destruct (refused l) eqn:R;
      [ assert (E : alloc_fails s1 = true) by exact R
      | assert (E : alloc_fails s1 = false) by exact R ]
  end.

Ltac case_prim :=
  assoc;
  lazymatch goal with
  | |- context [bind Platform_PrimitiveCreate ?k ?s1] =>
      let R := fresh "R" in
      let E := fresh "E" in
      let l := eval cbn [prim_script allocated alloc_failed prim_called
                         set_heap add_trace] in (prim_script s1) in
      destruct (refused l) eqn:R;
      [ assert (E : prim_fails s1 = true) by exact R
      | assert (E : prim_fails s1 = false) by exact R ];
      step; heap_simpl; rewrite E; cbn [negb]
  end.

(** Compute the expected status from the facts about the scripts. *)
Ltac settle_status :=
  cbn [first_failure is_allocation app own_steps];
  repeat (match goal with
          | R : refused _ = _ |- _ => rewrite R
          end; cbn [first_failure is_allocation]).

Lemma finish_status h0 pr sn p A o out
    (k : NTSTATUS → M (NTSTATUS * option addr)) :
  (∀ st s', k st s' = Some (st, out, s')) →
  allocator_ok sn →
  heap sn !! p = Some (BObject o) →
  match A with
  | None => True
  | Some attributes =>
      ContextTypeInfo attributes = NULL
      ∨ ∃ ti, h0 !! ContextTypeInfo attributes = Some (BTypeInfo ti)
              ∧ heap sn !! ContextTypeInfo attributes = Some (BTypeInfo ti)
  end →
  ∃ s', bind (CustomContextAllocate p A) k sn
        = Some (status_of (first_failure (context_steps h0 A)
                             (alloc_script sn) pr), out, s').
Proof.
  intros Hk Hok Ho Hti. unfold CustomContextAllocate, context_steps.
  destruct A as [a|]; [|step; rewrite Hk; by eexists].
  destruct (is_null (ContextTypeInfo a)) eqn:Hnull;
    [step; rewrite Hk; by eexists|].
  destruct Hti as [Hn|(ti & Hti0 & Hti)]; [by rewrite Hn in Hnull|].
  rewrite Hti0. step.
  case_bool_decide as Hsize; [|step; rewrite Hk; by eexists].
  destruct (allocator_ok_lookup _ _ _ Hok Ho) as [Hbrk Hp].
  destruct (allocator_ok_lookup _ _ _ Hok Hti) as [_ Hlt].
  assert (ContextTypeInfo a ≠ p) by congruence.
  unfold WdfObjectAllocateContext. cbv zeta.
  case_alloc.
  { step. rewrite is_null_NULL. do 2 step. rewrite Hk.
    settle_status. by eexists. }
  step. rewrite is_null_false by solve_neq. step.
  case_alloc.
  { do 2 step. rewrite is_null_NULL. do 3 step. rewrite Hk.
    settle_status. by eexists. }
  do 2 step. rewrite is_null_false by (heap_simpl; solve_neq).
  do 8 step. rewrite Hk. settle_status. by eexists.
Qed.

(** The start of every creation function when the control block is
    allocated: the state [DmfPlatformObjectCreate] leaves. *)
Lemma creation_begin s Attributes fn :
  allocator_ok s → attributes_ok (heap s) Attributes = true →
  refused (alloc_script s) = false →
  ∃ h1 t1,
    DmfPlatformObjectCreate (parent_of Attributes) fn s
    = Some (brk s, {| heap := h1; brk := N.succ (brk s);
                      alloc_script := tail (alloc_script s);
                      prim_script := prim_script s; trace := t1 |})
    ∧ h1 !! brk s = Some (BObject (new_object fn (parent_of Attributes)))
    ∧ (∀ q, q ≠ brk s →
            parent_of Attributes = NULL ∨ q ≠ parent_of Attributes →
            h1 !! q = heap s !! q)
    ∧ (∀ q, is_Some (h1 !! q) → is_Some (heap s !! q) ∨ q = brk s).
Proof.
  intros Hok Hattr R.
  destruct (creation_start _ _ Hok Hattr) as (HP & _).
  destruct (DmfPlatformObjectCreate_state s (parent_of Attributes) fn
              Hok R HP)
    as ([h1 b1 as1 ps1 t1] & new1 & Hrun & Hb & Has & Hps & _ & _ & Ho1
        & Hframe & _ & Hdom).
  heap_simpl. subst. by exists h1, t1.
Qed.

(** The control block cannot be allocated. *)
Ltac control_block_refused R :=
  (erewrite bind_run;
   [|by apply DmfPlatformObjectCreate_fail; exact R]);
  rewrite is_null_NULL; try step; cbn [ret];
  settle_status; by eexists _, _.

(** The control block has been allocated: name the state. *)
Ltac control_block_allocated s Attributes Hok Hattr R :=
  lazymatch goal with
  | |- context [DmfPlatformObjectCreate _ ?fn] =>
      destruct (creation_begin s Attributes fn Hok Hattr R)
        as (?h1 & ?t1 & ?Hrun & ?Ho1 & ?Hframe & ?Hdom)
  end;
  (erewrite bind_run; [|eassumption]);
  rewrite is_null_false by (pose proof (proj1 Hok); solve_neq).

(** A failure exit: the remaining calls release what was allocated. *)
Ltac failure_status :=
  unfold free_Data; repeat step; cbn [ret];
  settle_status; by eexists _, _.

(** The run has reached [CustomContextAllocate] on the object at
    [brk s]. *)
Ltac context_status s Hok Hti Hframe Hdom :=
  settle_status; heap_simpl;
  lazymatch goal with
  | |- ∃ out s', bind (CustomContextAllocate ?p ?A) ?k ?sn
                 = Some (status_of (first_failure _ _ ?pr), _, _) =>
      lazymatch sn with
      | context [insert p (BObject ?o)] =>
          let Hfin := fresh "Hfin" in
          destruct (finish_status (heap s) pr sn p A o (Some p) k)
            as (?s' & Hfin);
          [ done
          | eapply allocator_ok_step; [exact Hok|heap_simpl; lia|];
            let q := fresh "q" in
            intros q; heap_simpl;
            repeat (rewrite lookup_insert_is_Some
                    || rewrite lookup_delete_is_Some);
            pose proof (Hdom q);
            intuition (subst; first [by left | right; lia | by auto])
          | solve_lookup
          | lazymatch A with
            | Some _ => idtac
            | _ => destruct A as [?a|]; [|done]
            end;
            let ti := fresh "ti" in
            let Hti' := fresh "Hti" in
            destruct Hti as [?|(? & ? & ti & Hti')]; [by left|right];
            exists ti; split; [done|]; heap_simpl;
            rewrite !lookup_insert_ne by lia;
            rewrite Hframe by (lia || by right); done
          | eexists _, _; exact Hfin ]
      end
  end.

Lemma WdfWaitLockCreate_status s Attributes :
  allocator_ok s → attributes_ok (heap s) Attributes = true →
  ∃ out s',
    WdfWaitLockCreate Attributes s
    = Some (status_of
              (first_failure
                 (own_steps WaitLockCreate ++ context_steps (heap s) Attributes)
                 (alloc_script s) (prim_script s)), out, s').
Proof.
  intros Hok Hattr. pose proof (proj1 Hok) as Hbrk.
  destruct (creation_start _ _ Hok Hattr) as (HP & Hti).
  unfold WdfWaitLockCreate. cbv zeta.
  destruct (refused (alloc_script s)) eqn:R; [control_block_refused R|].
  control_block_allocated s Attributes Hok Hattr R.
  case_alloc.
  { do 2 step. rewrite is_null_NULL. failure_status. }
  do 2 step. rewrite is_null_false by (heap_simpl; solve_neq). step.
  case_prim; [failure_status|].
  run_copy_attributes.
  context_status s Hok Hti Hframe Hdom.
Qed.

Lemma WdfSpinLockCreate_status s Attributes :
  allocator_ok s → attributes_ok (heap s) Attributes = true →
  ∃ out s',
    WdfSpinLockCreate Attributes s
    = Some (status_of
              (first_failure
                 (own_steps SpinLockCreate ++ context_steps (heap s) Attributes)
                 (alloc_script s) (prim_script s)), out, s').
Proof.
  intros Hok Hattr. pose proof (proj1 Hok) as Hbrk.
  destruct (creation_start _ _ Hok Hattr) as (HP & Hti).
  unfold WdfSpinLockCreate. cbv zeta.
  destruct (refused (alloc_script s)) eqn:R; [control_block_refused R|].
  control_block_allocated s Attributes Hok Hattr R.
  case_alloc.
  { do 2 step. rewrite is_null_NULL. failure_status. }
  do 2 step. rewrite is_null_false by (heap_simpl; solve_neq). step.
  case_prim; [failure_status|].
  run_copy_attributes.
  context_status s Hok Hti Hframe Hdom.
Qed.

Lemma create_deferred_status t fn s Attributes :
  allocator_ok s → attributes_ok (heap s) Attributes = true →
  ∃ out s',
    create_deferred t fn Attributes s
    = Some (status_of
              (first_failure
                 (own_steps TimerCreate ++ context_steps (heap s) Attributes)
                 (alloc_script s) (prim_script s)), out, s').
Proof.
  intros Hok Hattr. pose proof (proj1 Hok) as Hbrk.
  destruct (creation_start _ _ Hok Hattr) as (HP & Hti).
  unfold create_deferred. cbv zeta.
  destruct (refused (alloc_script s)) eqn:R; [control_block_refused R|].
  control_block_allocated s Attributes Hok Hattr R.
  case_alloc.
  { do 2 step. rewrite is_null_NULL. failure_status. }
  do 2 step. rewrite is_null_false by (heap_simpl; solve_neq). step.
  run_copy_attributes.
  case_prim; [failure_status|].
  context_status s Hok Hti Hframe Hdom.
Qed.

Lemma WdfMemoryCreate_status s Attributes BufferSize Buffer :
  allocator_ok s → attributes_ok (heap s) Attributes = true →
  ∃ out s',
    WdfMemoryCreate_result Attributes BufferSize Buffer s
    = Some (status_of
              (first_failure
                 (own_steps (MemoryCreate BufferSize Buffer)
                  ++ context_steps (heap s) Attributes)
                 (alloc_script s) (prim_script s)), out, s').
Proof.
  intros Hok Hattr. pose proof (proj1 Hok) as Hbrk.
  destruct (creation_start _ _ Hok Hattr) as (HP & Hti).
  unfold WdfMemoryCreate_result, WdfMemoryCreate. assoc.
  destruct (refused (alloc_script s)) eqn:R; [control_block_refused R|].
  control_block_allocated s Attributes Hok Hattr R.
  case_alloc.
  { do 2 step. rewrite is_null_NULL. failure_status. }
  do 2 step. rewrite is_null_false by (heap_simpl; solve_neq). step.
  run_copy_attributes.
  case_alloc.
  { do 2 step. rewrite is_null_NULL. failure_status. }
  do 2 step. rewrite is_null_false by (heap_simpl; solve_neq). do 3 step.
  assoc.
  context_status s Hok Hti Hframe Hdom.
Qed.

Lemma WdfMemoryCreatePreallocated_status write s Attributes Buffer BufferSize :
  allocator_ok s → attributes_ok (heap s) Attributes = true →
  Attributes ≠ None
  ∨ first_failure
      (own_steps (MemoryCreatePreallocated write Buffer BufferSize)
       ++ context_steps (heap s) Attributes)
      (alloc_script s) (prim_script s) ≠ None →
  ∃ out s',
    WdfMemoryCreatePreallocated write Attributes Buffer BufferSize s
    = Some (status_of
              (first_failure
                 (own_steps (MemoryCreatePreallocated write Buffer BufferSize)
                  ++ context_steps (heap s) Attributes)
                 (alloc_script s) (prim_script s)), out, s').
Proof.
  intros Hok Hattr Hacc. pose proof (proj1 Hok) as Hbrk.
  destruct (creation_start _ _ Hok Hattr) as (HP & Hti).
  unfold WdfMemoryCreatePreallocated. cbv zeta.
  destruct (refused (alloc_script s)) eqn:R; [control_block_refused R|].
  control_block_allocated s Attributes Hok Hattr R.
  case_alloc.
  { do 2 step. rewrite is_null_NULL. failure_status. }
  do 2 step. rewrite is_null_false by (heap_simpl; solve_neq). do 2 step.
  destruct Attributes as [attributes|].
  - step. context_status s Hok Hti Hframe Hdom.
  - destruct Hacc as [Hacc|Hacc]; [done|]. exfalso. apply Hacc.
    by settle_status.
Qed.

(** The spin lock that [WdfCollectionCreate] creates for the collection,
    without parent or context. *)
Lemma WdfSpinLockCreate_init_status s :
  allocator_ok s →
  ∃ r s',
    WdfSpinLockCreate (Some WDF_OBJECT_ATTRIBUTES_INIT) s = Some (r, s')
    ∧ (∀ q, (q < brk s)%N → heap s' !! q = heap s !! q)
    ∧ allocator_ok s'
    ∧ (brk s <= brk s')%N
    ∧ ((fst r = STATUS_UNSUCCESSFUL ∧ snd r = None
        ∧ (refused (alloc_script s) = true
           ∨ refused (alloc_script s) = false
             ∧ (refused (tail (alloc_script s)) = true
                ∨ refused (tail (alloc_script s)) = false
                  ∧ refused (prim_script s) = true)))
       ∨ (fst r = STATUS_SUCCESS ∧ (∃ lock, snd r = Some lock)
          ∧ refused (alloc_script s) = false
          ∧ refused (tail (alloc_script s)) = false
          ∧ refused (prim_script s) = false
          ∧ alloc_script s' = tail (tail (alloc_script s))
          ∧ prim_script s' = tail (prim_script s))).
Proof.
  intros Hok. pose proof (proj1 Hok) as Hbrk.
  unfold WdfSpinLockCreate. cbv zeta.
  destruct (refused (alloc_script s)) eqn:R.
  { (erewrite bind_run;
     [|by apply DmfPlatformObjectCreate_fail; exact R]).
    rewrite is_null_NULL. cbn [ret].
    eexists _, _. split; [reflexivity|]. heap_simpl.
    split; [done|]. split; [done|]. split; [lia|].
    left. split; [done|]. split; [done|]. by left. }
  control_block_allocated s (Some WDF_OBJECT_ATTRIBUTES_INIT) Hok
    (eq_refl : attributes_ok (heap s) (Some WDF_OBJECT_ATTRIBUTES_INIT) = true)
    R.
  change (parent_of (Some WDF_OBJECT_ATTRIBUTES_INIT)) with NULL in *.
  assert (Hfr1 : ∀ q, (q < brk s)%N → h1 !! q = heap s !! q).
  { intros q Hq. apply Hframe; [lia|by left]. }
  case_alloc.
  { do 2 step. rewrite is_null_NULL. step. cbn [ret].
    eexists _, _. split; [reflexivity|]. heap_simpl.
    split; [intros q Hq; rewrite lookup_delete_ne, !lookup_insert_ne by lia;
            by apply Hfr1|].
    split.
    { eapply allocator_ok_step; [exact Hok|heap_simpl; lia|].
      intros q. heap_simpl.
      repeat (rewrite lookup_insert_is_Some || rewrite lookup_delete_is_Some).
      pose proof (Hdom q).
      intuition (subst; first [by left | right; lia | by auto]). }
    split; [lia|]. left. split; [done|]. split; [done|].
    right. split; [done|]. by left. }
  do 2 step. rewrite is_null_false by (heap_simpl; solve_neq). step.
  case_prim.
  { cbn [ret]. eexists _, _. split; [reflexivity|]. heap_simpl.
    split; [intros q Hq; rewrite !lookup_insert_ne by lia; by apply Hfr1|].
    split.
    { eapply allocator_ok_step; [exact Hok|heap_simpl; lia|].
      intros q. heap_simpl.
      repeat (rewrite lookup_insert_is_Some || rewrite lookup_delete_is_Some).
      pose proof (Hdom q).
      intuition (subst; first [by left | right; lia | by auto]). }
    split; [lia|]. left. split; [done|]. split; [done|].
    right. split; [done|]. right. by split. }
  run_copy_attributes. unfold CustomContextAllocate.
  change (is_null (ContextTypeInfo WDF_OBJECT_ATTRIBUTES_INIT)) with true.
  cbv iota. step. cbn [ret].
  eexists _, _. split; [reflexivity|]. heap_simpl.
  split; [intros q Hq; rewrite !lookup_insert_ne by lia; by apply Hfr1|].
  split.
  { eapply allocator_ok_step; [exact Hok|heap_simpl; lia|].
    intros q. heap_simpl.
    repeat (rewrite lookup_insert_is_Some || rewrite lookup_delete_is_Some).
    pose proof (Hdom q).
    intuition (subst; first [by left | right; lia | by auto]). }
  split; [lia|]. right. split; [done|]. split; [by eexists|]. done.
Qed.

Lemma WdfCollectionCreate_status s Attributes :
  allocator_ok s → attributes_ok (heap s) Attributes = true →
  ∃ out s',
    WdfCollectionCreate Attributes s
    = Some (status_of
              (first_failure
                 (own_steps CollectionCreate
                  ++ context_steps (heap s) Attributes)
                 (alloc_script s) (prim_script s)), out, s').
Proof.
  intros Hok Hattr. pose proof (proj1 Hok) as Hbrk.
  destruct (creation_start _ _ Hok Hattr) as (HP & Hti).
  unfold WdfCollectionCreate. cbv zeta.
  destruct (refused (alloc_script s)) eqn:R; [control_block_refused R|].
  control_block_allocated s Attributes Hok Hattr R.
  case_alloc.
  { do 2 step. rewrite is_null_NULL. failure_status. }
  do 2 step. rewrite is_null_false by (heap_simpl; solve_neq). step.
  assoc. heap_simpl.
  lazymatch goal with
  | |- context [bind (WdfSpinLockCreate ?a) ?k ?st] => set (s2 := st)
  end.
  assert (Ho2 : heap s2 !! brk s
                = Some (BObject
                          (set_PlatformObjectType
                             DmfPlatformObjectTypeCollection
                             (set_Data (N.succ (brk s))
                                (new_object None (parent_of Attributes))))))
    by (subst s2; solve_lookup).
  assert (Hd2 : heap s2 !! N.succ (brk s)
                = Some (BCollection zero_collection))
    by (subst s2; solve_lookup).
  assert (Hti2 : match Attributes with
                 | None => True
                 | Some attributes =>
                     ContextTypeInfo attributes = NULL
                     ∨ (ContextTypeInfo attributes < brk s)%N
                       ∧ ∃ ti, heap s !! ContextTypeInfo attributes
                               = Some (BTypeInfo ti)
                               ∧ heap s2 !! ContextTypeInfo attributes
                                 = Some (BTypeInfo ti)
                 end).
  { destruct Attributes as [a|]; [|done].
    destruct Hti as [?|(? & ? & ti & Hti')]; [by left|right].
    split; [done|]. exists ti. split; [done|]. subst s2. heap_simpl.
    rewrite !lookup_insert_ne by lia.
    rewrite Hframe by (lia || by right). done. }
  assert (Hok2 : allocator_ok s2).
  { eapply allocator_ok_step; [exact Hok|subst s2; heap_simpl; lia|].
    intros q; subst s2; heap_simpl.
    repeat (rewrite lookup_insert_is_Some || rewrite lookup_delete_is_Some).
    pose proof (Hdom q).
    intuition (subst; first [by left | right; lia | by auto]). }
  assert (Hb2 : brk s2 = N.succ (N.succ (brk s))) by reflexivity.
  assert (Ha2 : alloc_script s2 = tail (tail (alloc_script s)))
    by reflexivity.
  assert (Hp2 : prim_script s2 = prim_script s) by reflexivity.
  clearbody s2. clear Hframe Hdom Ho1 Hti E.
  destruct (WdfSpinLockCreate_init_status s2 Hok2)
    as ([st out] & s3 & Hrun3 & Hfr3 & Hok3 & Hb3 & Hcase).
  rewrite (bind_run _ _ _ _ _ Hrun3). cbn [fst snd] in *.
  rewrite Hb2 in Hfr3, Hb3. rewrite Ha2, Hp2 in Hcase.
  assert (Ho3 : heap s3 !! brk s
                = Some (BObject
                          (set_PlatformObjectType
                             DmfPlatformObjectTypeCollection
                             (set_Data (N.succ (brk s))
                                (new_object None (parent_of Attributes))))))
    by (rewrite Hfr3; [exact Ho2|lia]).
  assert (Hd3 : heap s3 !! N.succ (brk s)
                = Some (BCollection zero_collection))
    by (rewrite Hfr3; [exact Hd2|lia]).
  destruct Hcase as [(-> & -> & Hwhich)
                    |(-> & (lock & ->) & R1 & R2 & R3 & Ha3 & Hp3)].
  - assert (Hst : status_of
                    (first_failure
                       (own_steps CollectionCreate
                        ++ context_steps (heap s) Attributes)
                       (alloc_script s) (prim_script s))
                  = STATUS_UNSUCCESSFUL).
    { destruct Hwhich as [R1|[R1 [R2|[R2 R3]]]]; by settle_status. }
    rewrite Hst. step.
    change (negb (NT_SUCCESS STATUS_UNSUCCESSFUL)) with true. cbv iota.
    unfold free_Data.
    destruct s3 as [h3 b3 as3 ps3 t3]. heap_simpl.
    assert (N.succ (brk s) ≠ brk s) by lia.
    do 3 step. cbn [ret]. by eexists _, _.
  - step. change (negb (NT_SUCCESS STATUS_SUCCESS)) with false. cbv iota.
    destruct s3 as [h3 b3 as3 ps3 t3]. heap_simpl. subst as3 ps3.
    do 2 step. run_copy_attributes. settle_status. heap_simpl.
    lazymatch goal with
    | |- ∃ out s', bind (CustomContextAllocate ?p ?A) ?k ?sn
                   = Some (status_of (first_failure _ _ ?pr), _, _) =>
        lazymatch sn with
        | context [insert p (BObject ?o)] =>
            destruct (finish_status (heap s) pr sn p A o (Some p) k)
              as (s' & Hfin)
        end
    end.
    + done.
    + eapply allocator_ok_step; [exact Hok3|heap_simpl; lia|].
      intros q. heap_simpl.
      repeat (rewrite lookup_insert_is_Some || rewrite lookup_delete_is_Some).
      intuition (subst; first [by left | right; lia | by auto]).
    + solve_lookup.
    + destruct Attributes as [a|]; [|done].
      destruct Hti2 as [?|(? & ti & Hti0 & Hti2)]; [by left|right].
      exists ti. split; [done|]. heap_simpl.
      rewrite !lookup_insert_ne by lia. rewrite Hfr3 by lia. done.
    + eexists _, _. exact Hfin.
Qed.

Lemma first_failure_elem steps allocs prims c :
  first_failure steps allocs prims = Some c → c ∈ steps.
Proof.
  revert allocs prims. induction steps as [|d steps IH]; intros allocs prims;
    cbn [first_failure]; [done|].
  destruct (is_allocation d).
  - destruct (refused allocs).
    + intros [= ->]. by left.
    + intros H. right. by eapply IH.
  - destruct (refused prims).
    + intros [= ->]. by left.
    + intros H. right. by eapply IH.
Qed.

Lemma context_steps_elem h Attributes c :
  c ∈ context_steps h Attributes → c = StepContext ∨ c = StepContextData.
Proof.
  unfold context_steps. destruct Attributes as [a|]; [|by intros ?%elem_of_nil].
  destruct (is_null (ContextTypeInfo a)); [by intros ?%elem_of_nil|].
  destruct (h !! ContextTypeInfo a) as [[]|]; try by intros ?%elem_of_nil.
  case_bool_decide; [|by intros ?%elem_of_nil].
  rewrite !elem_of_cons, elem_of_nil. tauto.
Qed.

Lemma own_steps_elem f c :
  c ∈ own_steps f → c ≠ StepContext ∧ c ≠ StepContextData.
Proof.
  destruct f; cbn [own_steps]; rewrite !elem_of_cons, elem_of_nil;
    intros H; split; intros ->; intuition discriminate.
Qed.

Lemma status_of_success failure :
  status_of failure = STATUS_SUCCESS ↔ failure = None.
Proof. destruct failure as [[]|]; by split. Qed.

Lemma status_of_insufficient failure :
  status_of failure = STATUS_INSUFFICIENT_RESOURCES
  ↔ failure = Some StepContext ∨ failure = Some StepContextData.
Proof.
  destruct failure as [[]|]; split; try done;
    first [by intros [?|?] | by left | by right].
Qed.

(** C5, amended.  Every creation function (memory, preallocated memory,
    wait lock, spin lock, timer, work item, collection), called in a state
    where the allocator is sound and the pointers of the attributes are
    valid, returns a status that is decided by the first of its steps that
    fails, the calls of the allocator and of the back end being served in
    the order of the source: [STATUS_UNSUCCESSFUL] when, and only when, it
    is the allocation of the control block, of the payload or of the
    buffer, or the creation of the primitive, also when these are the steps
    of the spin lock that a collection creates for itself;
    [STATUS_INSUFFICIENT_RESOURCES] when, and only when, it is one of the
    two allocations of the context that the attributes ask for;
    [STATUS_SUCCESS] when, and only when, no step fails.
    [WdfMemoryCreatePreallocated] copies the attributes without testing the
    pointer: called without attributes it returns a status when one of its
    two allocations fails. *)
Theorem creation_status_by_failing_step f Attributes s :
  allocator_ok s → attributes_ok (heap s) Attributes = true →
  let failure :=
    first_failure (own_steps f ++ context_steps (heap s) Attributes)
      (alloc_script s) (prim_script s) in
  (accepts f Attributes ∨ failure ≠ None →
   ∃ out s', run_creation f Attributes s = Some (status_of failure, out, s'))
  ∧ (status_of failure = STATUS_UNSUCCESSFUL
     ↔ ∃ c, failure = Some c ∧ c ∈ own_steps f)
  ∧ (status_of failure = STATUS_INSUFFICIENT_RESOURCES
     ↔ failure = Some StepContext ∨ failure = Some StepContextData)
  ∧ (status_of failure = STATUS_SUCCESS ↔ failure = None).
Proof.
  intros Hok Hattr failure.
  split; [|split; [|split; [apply status_of_insufficient
                           |apply status_of_success]]].
  - intros Hacc. subst failure. destruct f; cbn [run_creation].
    + by apply WdfMemoryCreate_status.
    + by apply WdfMemoryCreatePreallocated_status.
    + by apply WdfWaitLockCreate_status.
    + by apply WdfSpinLockCreate_status.
    + by apply create_deferred_status.
    + by apply create_deferred_status.
    + by apply WdfCollectionCreate_status.
  - split.
    + intros Hst. destruct failure as [c|] eqn:E; [|done].
      exists c. split; [done|].
      apply first_failure_elem in E. apply elem_of_app in E as [E|E]; [done|].
      apply context_steps_elem in E as [->| ->]; done.
    + intros (c & -> & Hc). apply own_steps_elem in Hc as [H1 H2].
      by destruct c.
Qed.

Lemma creation_status_by_failing_step_witness :
  let s := boot_with [true; true; true; true; false] in
  let Attributes := Some (attributes NULL 1%N) in
  let failure :=
    first_failure
      (own_steps CollectionCreate ++ context_steps (heap s) Attributes)
      (alloc_script s) (prim_script s) in
  (∃ out s',
     run_creation CollectionCreate Attributes s
     = Some (status_of failure, out, s'))
  ∧ failure = Some StepContext
  ∧ status_of failure = STATUS_INSUFFICIENT_RESOURCES.
Proof.
  intros s Attributes failure.
  destruct (creation_status_by_failing_step CollectionCreate Attributes s)
    as (Hrun & _ & _ & _).
  - refine (bool_decide_unpack _ _). vm_compute. exact I.
  - vm_compute. reflexivity.
  - split; [apply Hrun; left; exact I|]. split; vm_compute; reflexivity.
Defined.

(** * Deletion after a creation that failed below a parent *)

(** C1.  The wait lock at 16 owns a memory object (at 18) and a timer (at
    25), all with a destroy callback.  [WdfWorkItemCreate] with the lock as
    parent, when the control block is allocated (at 27) and the payload is
    not, returns [STATUS_UNSUCCESSFUL]; it has released the control block
    and left its address in the child list of the lock.  The lock has
    reference count 1, so the decrement of [WdfObjectDelete] gives zero,
    but the call does not complete the teardown: the walk over the
    children reads the released block, and no amount of fuel gives a
    result. *)
Theorem WdfObjectDelete_after_failed_child_creation :
  ∃ s' P memory timer,
    WdfWorkItemCreate (Some (callbacks 16%N)) family_then_exhausted
    = Some (STATUS_UNSUCCESSFUL, None, s')
    ∧ heap s' !! 16%N = Some (BObject P)
    ∧ ReferenceCount P = 1
    ∧ InterlockedDecrement (ReferenceCount P) = 0
    ∧ EvtDestroyCallback (ObjectAttributes P) ≠ NULL
    ∧ ChildList P = [18%N; 25%N; 27%N]
    ∧ heap s' !! 18%N = Some (BObject memory)
    ∧ heap s' !! 25%N = Some (BObject timer)
    ∧ heap s' !! 27%N = None
    ∧ ∀ fuel, WdfObjectDelete fuel 16%N s' = None.
Proof.
  eexists _, _, _, _.
  split; [vm_compute; reflexivity|].
  split; [vm_compute; reflexivity|].
  split; [reflexivity|]. split; [reflexivity|]. split; [done|].
  split; [reflexivity|].
  split; [vm_compute; reflexivity|].
  split; [vm_compute; reflexivity|].
  split; [vm_compute; reflexivity|].
  intros fuel.
  eapply (WdfObjectDelete_dangling fuel 16%N _ [18%N; 25%N] 27%N).
  - vm_compute. reflexivity.
  - reflexivity.
  - reflexivity.
  - vm_compute. reflexivity.
Qed.

(** C2.  A memory object at 16 and [WdfWaitLockCreate] with this object as
    parent, when the control block is allocated and the payload is not.
    [DmfPlatformObjectCreate] gives the control block (at 19) reference
    count 1 and links it into the parent.  [WdfWaitLockCreate] then
    releases it: the events of the call end with the release of the block,
    no call of [WdfObjectDelete] has decremented its count.  The parent is
    left with reference count 1 and the released block in its child list:
    the decrement of [WdfObjectDelete] on the parent gives zero and the
    parent is not freed, the call reads the released block. *)
Theorem rollback_frees_without_decrement :
  ∃ s1 child s2 parent,
    DmfPlatformObjectCreate 16%N (Some DmfPlatformWdfWaitLockDelete_fn)
      parent_then_exhausted
    = Some (19%N, s1)
    ∧ heap s1 !! 19%N = Some (BObject child)
    ∧ ReferenceCount child = 1
    ∧ ChildListEntry child = 16%N
    ∧ WdfWaitLockCreate (Some (attributes 16%N NULL)) parent_then_exhausted
      = Some (STATUS_UNSUCCESSFUL, None, s2)
    ∧ trace s2
      = trace parent_then_exhausted
        ++ [EvAllocate 19%N; EvCriticalSectionCreate 19%N;
            EvCriticalSectionEnter 16%N; EvCriticalSectionLeave 16%N;
            EvAllocate NULL; EvFree 19%N]
    ∧ heap s2 !! 19%N = None
    ∧ heap s2 !! 16%N = Some (BObject parent)
    ∧ ReferenceCount parent = 1
    ∧ InterlockedDecrement (ReferenceCount parent) = 0
    ∧ ChildList parent = [19%N]
    ∧ ∀ fuel, WdfObjectDelete fuel 16%N s2 = None.
Proof.
  eexists _, _, _, _.
  split; [vm_compute; reflexivity|].
  split; [vm_compute; reflexivity|].
  split; [reflexivity|]. split; [reflexivity|].
  split; [vm_compute; reflexivity|].
  split; [vm_compute; reflexivity|].
  split; [vm_compute; reflexivity|].
  split; [vm_compute; reflexivity|].
  split; [reflexivity|]. split; [reflexivity|]. split; [reflexivity|].
  intros fuel.
  eapply (WdfObjectDelete_dangling fuel 16%N _ [] 19%N).
  - vm_compute. reflexivity.
  - reflexivity.
  - reflexivity.
  - vm_compute. reflexivity.
Qed.
